(** * IfcOpenShell / BlenderBIM: georeferencing editor and style tools

    A shallow embedding of
    - [ifcopenshell/api/georeference/edit_georeferencing.py]
      ([edit_georeferencing], [Usecase.execute], [Usecase.set_true_north]);
    - [blenderbim/tool/style.py]
      ([Style.get_surface_rendering_attributes], [Style.get_styled_items], and
      the queries on the style of a material: [Style.get_style],
      [Style.get_style_elements], [Style.get_surface_shading_attributes],
      [Style.get_surface_shading_style], [Style.get_surface_texture_style],
      [Style.has_blender_external_style]);
    - [blenderbim/bim/module/sequence/helper.py]
      ([parse_duration_as_blender_props], [simplify_duration]).

    Python values are an inductive type, Python floats are binary64
    ([PrimFloat]), exceptions are results, and the IFC document is an
    explicit store threaded through the calls (the mutated state survives a
    raised exception, as it does in Python). *)

From Stdlib Require Import ZArith Lia Bool List PrimFloat FloatOps SpecFloat DecimalString.
From Stdlib Require QArith.
From stdpp Require Import base option list strings gmap.

Set Warnings "-inexact-float,-register-all".
Local Open Scope string_scope.
Local Open Scope list_scope.

(* ===================================================================== *)
(** * Python values, exceptions and builtins *)
(* ===================================================================== *)

Module Py.

(** The exceptions the embedded code can raise (messages are dropped).
    [Undeclared] is the exception of the toolkit's attribute setter for a
    name the class of the instance does not declare: the setter lives outside
    the source tree, and the Python class of its exception is left open. *)
Inductive exn : Type :=
| AttributeError
| IndexError
| KeyError
| TypeError
| RuntimeError
| Undeclared.

(** An expression either evaluates to a value or raises. *)
Inductive result (A : Type) : Type :=
| Ok (a : A)
| Raise (e : exn).
Arguments Ok {A} a.
Arguments Raise {A} e.

Definition bind {A B : Type} (m : result A) (k : A -> result B) : result B :=
  match m with
  | Ok a => k a
  | Raise e => Raise e
  end.

(** Python objects as far as the two modules handle them.  [PyEntity] is a
    handle on an instance of the IFC document (its numeric id). *)
Inductive value : Type :=
| PyNone
| PyBool (b : bool)
| PyInt (z : Z)
| PyFloat (f : float)
| PyStr (s : string)
| PyList (items : list value)
| PyTuple (items : list value)
| PyDict (items : list (string * value))
| PyEntity (id : nat).

(** [bool(v)]. *)
Definition truthy (v : value) : bool :=
  match v with
  | PyNone => false
  | PyBool b => b
  | PyInt z => negb (Z.eqb z 0)
  | PyFloat f => negb (PrimFloat.eqb f 0%float)
  | PyStr s => negb (String.eqb s "")
  | PyList l | PyTuple l => match l with [] => false | _ => true end
  | PyDict d => match d with [] => false | _ => true end
  | PyEntity _ => true
  end.

(** [v == 2]: Python compares numbers by value across int, bool and float. *)
Definition equals_two (v : value) : bool :=
  match v with
  | PyInt z => Z.eqb z 2
  | PyFloat f => PrimFloat.eqb f 2%float
  | _ => false
  end.

(** [v[0:2]]: slicing keeps the sequence type. *)
Definition slice_0_2 (v : value) : result value :=
  match v with
  | PyList l => Ok (PyList (firstn 2 l))
  | PyTuple l => Ok (PyTuple (firstn 2 l))
  | PyStr s => Ok (PyStr (String.substring 0 2 s))
  | _ => Raise TypeError
  end.

(** [v + [x, ...]]: only a list concatenates with a list. *)
Definition add_list (v : value) (l : list value) : result value :=
  match v with
  | PyList a => Ok (PyList (a ++ l))
  | _ => Raise TypeError
  end.

(** [v[i]] on a sequence. *)
Definition index (v : value) (i : nat) : result value :=
  match v with
  | PyList l | PyTuple l =>
      match nth_error l i with
      | Some x => Ok x
      | None => Raise IndexError
      end
  | PyStr s =>
      match String.get i s with
      | Some c => Ok (PyStr (String c EmptyString))
      | None => Raise IndexError
      end
  | PyDict _ => Raise KeyError
  | _ => Raise TypeError
  end.

(** [1 - v]. *)
Definition one_minus (v : value) : result value :=
  match v with
  | PyFloat f => Ok (PyFloat (1 - f)%float)
  | PyInt z => Ok (PyInt (1 - z))
  | PyBool b => Ok (PyInt (if b then 0 else 1))
  | _ => Raise TypeError
  end.

(** Division rounding the quotient to the nearest integer, ties to even. *)
Definition half_even_div (n d : Z) : Z :=
  let q := (n / d)%Z in
  let r := (n mod d)%Z in
  match (2 * r ?= d)%Z with
  | Lt => q
  | Gt => (q + 1)%Z
  | Eq => if Z.even q then q else (q + 1)%Z
  end.

(** The binary64 number nearest to [(-1)^s * k / d]. *)
Definition nearest_float (s : bool) (k : Z) (d : positive) : float :=
  match k with
  | Zpos p => SF2Prim (SFdiv prec emax (S754_finite s p 0) (S754_finite false d 0))
  | _ => SF2Prim (S754_zero s)
  end.

(** [round(x, ndigits)] on a float, [ndigits >= 0]: CPython rounds the exact
    binary value to [ndigits] decimals, ties to even, and converts the
    decimal back to the nearest float; zeros, infinities and nans round to
    themselves. *)
Definition round_float (x : float) (ndigits : nat) : float :=
  match Prim2SF x with
  | S754_finite s m e =>
      let p := Pos.pow 10 (Pos.of_nat ndigits) in
      let p := match ndigits with O => 1%positive | _ => p end in
      let scaled := (Zpos m * Zpos p)%Z in
      let k := match e with
               | Zneg e' => half_even_div scaled (Zpos (Pos.pow 2 e'))
               | _ => (scaled * 2 ^ e)%Z
               end in
      nearest_float s k p
  | _ => x
  end.

(** [round(v, 3)]. *)
Definition round3 (v : value) : result value :=
  match v with
  | PyFloat f => Ok (PyFloat (round_float f 3))
  | PyInt z => Ok (PyInt z)
  | PyBool b => Ok (PyInt (if b then 1 else 0))
  | _ => Raise TypeError
  end.

(** The instances a value refers to, at any depth. *)
Fixpoint refs (v : value) : list nat :=
  match v with
  | PyEntity i => [i]
  | PyList l | PyTuple l => flat_map refs l
  | PyDict d => flat_map (fun kv => refs (snd kv)) d
  | _ => []
  end.

(** A sequence of numbers (what a direction vector is). *)
Definition is_number (v : value) : bool :=
  match v with
  | PyInt _ | PyFloat _ => true
  | _ => false
  end.

Definition is_vector (v : value) : bool :=
  match v with
  | PyList l | PyTuple l => forallb is_number l
  | _ => false
  end.

(** A dict as [items()] lists it. *)
Definition dict : Type := list (string * value).

Definition keys (d : dict) : list string := map fst d.

End Py.

Declare Scope result_scope.
Notation "x <- m ;; k" := (Py.bind m (fun x => k))
  (at level 100, m at next level, right associativity) : result_scope.
Delimit Scope result_scope with result.

(* ===================================================================== *)
(** * The IFC document object model *)
(* ===================================================================== *)

Module Ifc.
Import Py.

(** An instance of the document: its numeric id ([id()]), its class
    ([is_a()]) and its attributes in schema order, unset ones holding
    [PyNone]. *)
Record entity_instance : Type := {
  id : nat;
  is_a : string;
  attributes : list (string * value)
}.

(** [ifcopenshell.file]: the schema identifier and the instances in the
    order they were added. *)
Record file : Type := {
  schema : string;
  instances : list entity_instance
}.

(** Modelled from the spec: the entity declarations of the IFC schema are
    not in the source tree.  [supertypes] lists the declared supertypes of the
    classes that the lookups of this development can meet (lookup-by-type on
    coordinate operations, projected CRS, projects; [is_a] tests on style
    assignments and mapped items); a class that is not listed has none of the
    classes looked up among its supertypes. *)
Definition supertypes (cls : string) : list string :=
  if String.eqb cls "IfcMapConversion" then ["IfcCoordinateOperation"]
  else if String.eqb cls "IfcMapConversionScaled" then ["IfcMapConversion"; "IfcCoordinateOperation"]
  else if String.eqb cls "IfcRigidOperation" then ["IfcCoordinateOperation"]
  else if String.eqb cls "IfcProjectedCRS" then ["IfcCoordinateReferenceSystem"]
  else if String.eqb cls "IfcGeographicCRS" then ["IfcCoordinateReferenceSystem"]
  else if String.eqb cls "IfcGeometricRepresentationSubContext"
    then ["IfcGeometricRepresentationContext"; "IfcRepresentationContext"]
  else if String.eqb cls "IfcGeometricRepresentationContext" then ["IfcRepresentationContext"]
  else if String.eqb cls "IfcDirection"
    then ["IfcGeometricRepresentationItem"; "IfcRepresentationItem"]
  else if String.eqb cls "IfcMappedItem" then ["IfcRepresentationItem"]
  else if String.eqb cls "IfcStyledItem" then ["IfcRepresentationItem"]
  else [].

(** Modelled from the spec: the attribute names a class declares, for the
    one class this code instantiates. *)
Definition attribute_names (cls : string) : list string :=
  if String.eqb cls "IfcDirection" then ["DirectionRatios"] else [].

(** A class is of kind [cls] when it is [cls] or declares it a supertype. *)
Definition subclass (c cls : string) : bool :=
  String.eqb c cls || existsb (String.eqb cls) (supertypes c).

(** [instance.is_a(cls)]. *)
Definition is_a_kind (e : entity_instance) (cls : string) : bool :=
  subclass (is_a e) cls.

Definition class_matches (cls : string) (include_subtypes : bool) (c : string) : bool :=
  if include_subtypes then subclass c cls else String.eqb c cls.

Definition type_matches (cls : string) (include_subtypes : bool) (e : entity_instance) : bool :=
  class_matches cls include_subtypes (is_a e).

(** [file.by_type(cls, include_subtypes)], as instance handles. *)
Definition by_type (f : file) (cls : string) (include_subtypes : bool) : list nat :=
  map id (List.filter (type_matches cls include_subtypes) (instances f)).

Definition has_id (i : nat) (e : entity_instance) : bool := Nat.eqb (id e) i.

(** The instance behind a handle. *)
Definition by_id (f : file) (i : nat) : option entity_instance :=
  find (has_id i) (instances f).

Fixpoint assoc (name : string) (attrs : list (string * value)) : option value :=
  match attrs with
  | [] => None
  | (k, v) :: rest => if String.eqb k name then Some v else assoc name rest
  end.

Fixpoint assoc_set (name : string) (v : value) (attrs : list (string * value))
  : list (string * value) :=
  match attrs with
  | [] => []
  | (k, w) :: rest =>
      if String.eqb k name then (k, v) :: rest else (k, w) :: assoc_set name v rest
  end.

Definition mentions (i : nat) (v : value) : bool := existsb (Nat.eqb i) (refs v).

Definition references (i : nat) (e : entity_instance) : bool :=
  existsb (fun kv => mentions i (snd kv)) (attributes e).

(** [file.get_inverse(instance)]: the instances with an attribute that
    refers to it. *)
Definition get_inverse (f : file) (i : nat) : list nat :=
  map id (List.filter (references i) (instances f)).

(** The id given to the next instance. *)
Definition fresh_id (f : file) : nat := S (list_max (map id (instances f))).

Definition blank (i : nat) (cls : string) : entity_instance :=
  {| id := i; is_a := cls; attributes := map (fun n => (n, PyNone)) (attribute_names cls) |}.

Definition with_attr (name : string) (v : value) (e : entity_instance) : entity_instance :=
  {| id := id e; is_a := is_a e; attributes := assoc_set name v (attributes e) |}.

(** [change] applied to the instance with id [i] only. *)
Definition amend (i : nat) (change : entity_instance -> entity_instance)
    (e : entity_instance) : entity_instance :=
  if has_id i e then change e else e.

Definition update (f : file) (i : nat) (change : entity_instance -> entity_instance) : file :=
  {| schema := schema f; instances := map (amend i change) (instances f) |}.

(** The document with one more instance. *)
Definition add (f : file) (e : entity_instance) : file :=
  {| schema := schema f; instances := instances f ++ [e] |}.

(** A computation on the document: it returns or raises, and leaves the
    document as mutated so far either way. *)
Definition action (A : Type) : Type := file -> result A * file.

Definition ret {A : Type} (a : A) : action A := fun f => (Ok a, f).

Definition throw {A : Type} (e : exn) : action A := fun f => (Raise e, f).

Definition abind {A B : Type} (m : action A) (k : A -> action B) : action B :=
  fun f =>
    match m f with
    | (Ok a, f') => k a f'
    | (Raise e, f') => (Raise e, f')
    end.

Definition lift {A : Type} (r : result A) : action A := fun f => (r, f).

Definition read {A : Type} (q : file -> A) : action A := fun f => (Ok (q f), f).

(** [for x in l: body(x)], stopping at the first exception. *)
Fixpoint for_each {A : Type} (l : list A) (body : A -> action unit) : action unit :=
  match l with
  | [] => ret tt
  | x :: rest => abind (body x) (fun _ => for_each rest body)
  end.

(** [instance.name], read from a document. *)
Definition attribute (f : file) (i : nat) (name : string) : result value :=
  match by_id f i with
  | None => Raise RuntimeError
  | Some e =>
      match assoc name (attributes e) with
      | Some v => Ok v
      | None => Raise AttributeError
      end
  end.

Definition getattr (i : nat) (name : string) : action value :=
  fun f => (attribute f i name, f).

(** [instance.name = v]: the class must declare the attribute, and the
    setter raises its own exception when it does not.  The value is kept as
    assigned (the toolkit's own type validation is not modelled). *)
Definition setattr (i : nat) (name : string) (v : value) : action unit :=
  fun f =>
    match by_id f i with
    | None => (Raise RuntimeError, f)
    | Some e =>
        match assoc name (attributes e) with
        | Some _ => (Ok tt, update f i (with_attr name v))
        | None => (Raise Undeclared, f)
        end
    end.

(** [file.create_entity(cls)]: a new instance with every attribute unset. *)
Definition create_entity (cls : string) : action nat :=
  fun f =>
    let i := fresh_id f in
    (Ok i, add f (blank i cls)).

(** [x[0]] on a list of handles. *)
Definition first (l : list nat) : action nat :=
  match l with
  | [] => throw IndexError
  | x :: _ => ret x
  end.

End Ifc.

Declare Scope action_scope.
Notation "x <- m ;; k" := (Ifc.abind m (fun x => k))
  (at level 100, m at next level, right associativity) : action_scope.
Notation "m ;;; k" := (Ifc.abind m (fun _ => k))
  (at level 100, k at level 200, right associativity) : action_scope.
Delimit Scope action_scope with action.

(* ===================================================================== *)
(** * ifcopenshell.api.georeference.edit_georeferencing *)
(* ===================================================================== *)

Module Georeference.
Import Py Ifc.
Local Open Scope action_scope.

(** The toolkit helpers of the legacy (IFC2X3) path, which live outside the
    source tree and are taken as an interface:
    [file.createIfcText] and its siblings ([create_typed cls v]),
    [ifcopenshell.util.element.get_pset(element, name)] and
    [ifcopenshell.api.pset.edit_pset(file, pset, properties)]. *)
Class PsetApi : Type := {
  create_typed : string -> value -> action value;
  get_pset : file -> nat -> string -> option dict;
  edit_pset : nat -> dict -> action unit
}.

(** [usecase.settings]. *)
Record settings : Type := {
  coordinate_operation : dict;
  projected_crs : dict;
  true_north : value
}.

(** The new value of [DirectionRatios]: the first two ordinates, with a
    trailing [0.0] unless the context is two-dimensional. *)
Definition direction_ratios (true_north dimension : value) : result value :=
  if equals_two dimension then slice_0_2 true_north
  else (head2 <- slice_0_2 true_north ;; add_list head2 [PyFloat 0%float])%result.

(** The first statement of the loop body: give the context a direction of
    its own, a new one when it has none or when the one it has does not have
    exactly one referrer. *)
Definition ensure_own_direction (context : nat) : action unit :=
  old <- getattr context "TrueNorth" ;;
  if truthy old then
    match old with
    | PyEntity d =>
        inverse <- read (fun f => get_inverse f d) ;;
        if negb (Nat.eqb (length inverse) 1) then
          fresh <- create_entity "IfcDirection" ;;
          setattr context "TrueNorth" (PyEntity fresh)
        else ret tt
    | _ => throw TypeError
    end
  else
    fresh <- create_entity "IfcDirection" ;;
    setattr context "TrueNorth" (PyEntity fresh).

(** The rest of the loop body: write the ratios into the direction. *)
Definition write_direction (true_north : value) (context : nat) : action unit :=
  direction <- getattr context "TrueNorth" ;;
  match true_north with
  | PyNone =>
      (* never taken: [edit_georeferencing] replaces None by an empty list *)
      setattr context "TrueNorth" true_north
  | _ =>
      dimension <- getattr context "CoordinateSpaceDimension" ;;
      ratios <- lift (direction_ratios true_north dimension) ;;
      match direction with
      | PyEntity d => setattr d "DirectionRatios" ratios
      | _ => throw AttributeError
      end
  end.

(** One turn of the loop of [set_true_north] on a context. *)
Definition set_context_true_north (true_north : value) (context : nat) : action unit :=
  ensure_own_direction context ;;; write_direction true_north context.

(** [Usecase.set_true_north]. *)
Definition set_true_north (s : settings) : action unit :=
  if negb (truthy (true_north s)) then ret tt
  else
    contexts <- read (fun f => by_type f "IfcGeometricRepresentationContext" false) ;;
    for_each contexts (set_context_true_north (true_north s)).

(** [file.by_id(pset["id"])]. *)
Definition pset_instance (pset : dict) : action nat :=
  match assoc "id" pset with
  | None => throw KeyError
  | Some (PyInt z) =>
      found <- read (fun f => by_id f (Z.to_nat z)) ;;
      match found with
      | Some e => ret (id e)
      | None => throw RuntimeError
      end
  | Some _ => throw TypeError
  end.

Definition crs_value_class (k : string) : string :=
  if String.eqb k "Description" then "IfcText"
  else if String.eqb k "Name" then "IfcLabel"
  else "IfcIdentifier".

Definition conversion_value_class (k : string) : string :=
  if existsb (String.eqb k) ["XAxisAbscissa"; "XAxisOrdinate"; "Scale"] then "IfcReal"
  else "IfcLengthMeasure".

(** The legacy path for one of the two emulating property sets: wrap each
    value (the wrapped value is bound to the loop variable only), then edit
    the property set with the mapping as given. *)
Definition edit_emulated `{PsetApi} (project : nat) (pset_name : string)
    (value_class : string -> string) (properties : dict) : action unit :=
  found <- read (fun f => get_pset f project pset_name) ;;
  match found with
  | Some ((_ :: _) as pset) =>
      instance <- pset_instance pset ;;
      for_each properties
        (fun kv => _ <- create_typed (value_class (fst kv)) (snd kv) ;; ret tt) ;;;
      edit_pset instance properties
  | _ => ret tt
  end.

(** The legacy branch of [execute]: the two emulating property sets of the
    project, when there is a project. *)
Definition edit_property_sets `{PsetApi} (s : settings) : action unit :=
  projects <- read (fun f => by_type f "IfcProject" true) ;;
  match projects with
  | [] => ret tt
  | project :: _ =>
      edit_emulated project "ePSet_ProjectedCRS" crs_value_class (projected_crs s) ;;;
      edit_emulated project "ePSet_MapConversion" conversion_value_class
        (coordinate_operation s)
  end.

(** The modern branch of [execute]: assign the attributes of the first
    coordinate operation and of the first projected CRS. *)
Definition edit_entities (s : settings) : action unit :=
  operations <- read (fun f => by_type f "IfcCoordinateOperation" true) ;;
  operation <- first operations ;;
  crss <- read (fun f => by_type f "IfcProjectedCRS" true) ;;
  crs <- first crss ;;
  for_each (coordinate_operation s) (fun kv => setattr operation (fst kv) (snd kv)) ;;;
  for_each (projected_crs s) (fun kv => setattr crs (fst kv) (snd kv)).

(** [Usecase.execute]. *)
Definition execute `{PsetApi} (s : settings) : action unit :=
  set_true_north s ;;;
  version <- read schema ;;
  if String.eqb version "IFC2X3" then edit_property_sets s else edit_entities s.

(** [x or {}] on an optional dict. *)
Definition or_empty (d : option dict) : dict :=
  match d with
  | Some d => d
  | None => []
  end.

(** [edit_georeferencing(file, coordinate_operation, projected_crs, true_north)]. *)
Definition edit_georeferencing `{PsetApi} (coordinate_operation projected_crs : option dict)
    (true_north : value) : action unit :=
  execute {| coordinate_operation := or_empty coordinate_operation;
             projected_crs := or_empty projected_crs;
             true_north := if truthy true_north then true_north else PyList [] |}.

End Georeference.

(* ===================================================================== *)
(** * The host editor's materials and shader node graphs *)
(* ===================================================================== *)

Module Blender.
Import Py.

(** A link into an input socket; the classifier reads its [from_node]. *)
Record NodeLink (N : Type) : Type := { from_node : N }.
Arguments from_node {N} _.

(** A socket of a node: [name], [default_value], the [links] that arrive
    (input sockets) and [is_linked]. *)
Record NodeSocket (N : Type) : Type := {
  name : string;
  default_value : value;
  links : list (NodeLink N);
  is_linked : bool
}.
Arguments name {N} _.
Arguments default_value {N} _.
Arguments links {N} _.
Arguments is_linked {N} _.

(** A shader node with its [type], the [is_active_output] flag of output
    nodes, and its sockets.  A link holds the node it comes from, so a node
    carries the graph upstream of it. *)
Inductive Node : Type := {
  type : string;
  is_active_output : bool;
  inputs : list (NodeSocket Node);
  outputs : list (NodeSocket Node)
}.

(** [material.diffuse_color]: the viewport colour, four floats. *)
Record Rgba : Type := { red : float; green : float; blue : float; alpha : float }.

(** [material.BIMStyleProperties]: the panel's diffuse colour. *)
Record StyleProperties : Type := { diffuse_color : value }.

(** A material with an active node tree. *)
Record Material : Type := {
  viewport_color : Rgba;
  nodes : list Node;
  BIMStyleProperties : StyleProperties
}.

Definition rgba_value (c : Rgba) : value :=
  PyTuple [PyFloat (red c); PyFloat (green c); PyFloat (blue c); PyFloat (alpha c)].

(** Modelled from the spec: [tool.Blender.get_material_node] is not in the
    source tree.  The spec's step 2 has it locate the active material-output
    node: the first node of the tree of the given type whose
    [is_active_output] flag has the given value, [None] when there is none. *)
Definition get_material_node (obj : Material) (node_type : string) (active : bool)
  : option Node :=
  find (fun n => String.eqb (type n) node_type && Bool.eqb (is_active_output n) active)
       (nodes obj).

End Blender.

(* ===================================================================== *)
(** * blenderbim.tool.style *)
(* ===================================================================== *)

Module Style.
Import Py Ifc Blender.
Local Open Scope result_scope.

(** The record the classifier returns: a Python dict. *)
Abbreviation Attributes := (gmap string value).

(** [color_to_ifc_format], local to the classifier. *)
Definition color_to_ifc_format (color : value) : result value :=
  r <- index color 0 ;;
  g <- index color 1 ;;
  b <- index color 2 ;;
  Ok (PyDict [("Name", PyNone); ("Red", r); ("Green", g); ("Blue", b)]).

(** [node.inputs[name]]. *)
Definition input_named (node : Node) (input_name : string) : result (NodeSocket Node) :=
  match find (fun s => String.eqb (name s) input_name) (inputs node) with
  | Some s => Ok s
  | None => Raise KeyError
  end.

(** [node.inputs[i]] and [node.outputs[i]]. *)
Definition socket_at (sockets : list (NodeSocket Node)) (i : nat) : result (NodeSocket Node) :=
  match nth_error sockets i with
  | Some s => Ok s
  | None => Raise IndexError
  end.

Definition nonempty (s : option string) : option string :=
  match s with
  | Some t => if String.eqb t "" then None else Some t
  | None => None
  end.

(** [get_input_node], local to the classifier: the first node linked into
    the pin, of the given type when one is asked for. *)
Definition get_input_node (node : option Node) (input_name : option string)
    (of_type : option string) (input_index : option nat) : result (option Node) :=
  match node with
  | None => Raise AttributeError
  | Some node =>
      input_pin <- match input_index with
                   | None =>
                       match input_name with
                       | Some n => input_named node n
                       | None => Raise KeyError
                       end
                   | Some i => socket_at (inputs node) i
                   end ;;
      match nonempty of_type with
      | Some t =>
          Ok (option_map from_node
                (find (fun l => String.eqb (type (from_node l)) t) (links input_pin)))
      | None => Ok (option_map from_node (List.head (links input_pin)))
      end
  end.

(** [node.inputs[name].default_value]. *)
Definition input_default (node : Node) (input_name : string) : result value :=
  s <- input_named node input_name ;; Ok (default_value s).

(** [{n.type: n for n in nodes if n.outputs and n.outputs[0].is_linked}]:
    a later node of a type replaces an earlier one. *)
Definition linked_output (n : Node) : bool :=
  match outputs n with
  | [] => false
  | s :: _ => is_linked s
  end.

Definition bsdfs_of (obj : Material) : gmap string Node :=
  fold_left (fun m n => <[type n := n]> m) (List.filter linked_output (nodes obj)) ∅.

Definition physical_or_notdefined (ifc_schema : string) : value :=
  if negb (String.eqb ifc_schema "IFC4X3") then PyStr "NOTDEFINED" else PyStr "PHYSICAL".

(** The statements of the two principled-BSDF branches (the source repeats
    them): the attributes written and the diffuse colour chosen. *)
Definition principled (ifc_schema : string) (attributes : Attributes) (bsdf : Node)
  : result (Attributes * value) :=
  let attributes := <["ReflectanceMethod" := physical_or_notdefined ifc_schema]> attributes in
  diffuse_color <- input_default bsdf "Base Color" ;;
  metallic <- input_default bsdf "Metallic" ;;
  specular <- round3 metallic ;;
  let attributes := <["SpecularColour" := specular]> attributes in
  roughness <- input_default bsdf "Roughness" ;;
  rounded <- round3 roughness ;;
  let attributes :=
    <["SpecularHighlight" := PyDict [("IfcSpecularRoughness", rounded)]]> attributes in
  alpha <- input_default bsdf "Alpha" ;;
  transparency <- one_minus alpha ;;
  Ok (<["Transparency" := transparency]> attributes, diffuse_color).

(** The statements of the glossy, diffuse and glass branches. *)
Definition rough_bsdf (method : string) (attributes : Attributes) (bsdf : Node)
  : result (Attributes * value) :=
  let attributes := <["ReflectanceMethod" := PyStr method]> attributes in
  roughness <- input_default bsdf "Roughness" ;;
  rounded <- round3 roughness ;;
  let attributes :=
    <["SpecularHighlight" := PyDict [("IfcSpecularRoughness", rounded)]]> attributes in
  diffuse_color <- input_default bsdf "Color" ;;
  Ok (attributes, diffuse_color).

(** The statements of the emission branch. *)
Definition emission (attributes : Attributes) (bsdf : Node) : result (Attributes * value) :=
  let attributes := <["ReflectanceMethod" := PyStr "FLAT"]> attributes in
  let attributes := <["SpecularHighlight" := PyNone]> attributes in
  diffuse_color <- input_default bsdf "Color" ;;
  Ok (attributes, diffuse_color).

(** The condition of the inner [if] of the mix-shader branch, with the
    second input it binds: each [and] stops at the first None. *)
Definition flat_pattern (mix_shader : Node) : result (option Node) :=
  fac <- get_input_node (Some mix_shader) (Some "Fac") (Some "LIGHT_PATH") None ;;
  match fac with
  | None => Ok None
  | Some _ =>
      transparent <- get_input_node (Some mix_shader) None (Some "BSDF_TRANSPARENT") (Some 1%nat) ;;
      match transparent with
      | None => Ok None
      | Some _ =>
          second <- get_input_node (Some mix_shader) None None (Some 2%nat) ;;
          match second with
          | None => Ok None
          | Some second_input_node =>
              if String.eqb (type second_input_node) "RGB"
                 || String.eqb (type second_input_node) "TEX_IMAGE"
              then Ok (Some second_input_node) else Ok None
          end
      end
  end.

(** The mix-shader branch. *)
Definition mix_shader_branch (props : StyleProperties) (attributes : Attributes)
    (diffuse_color : value) (mix_shader : Node) : result (Attributes * value) :=
  matched <- flat_pattern mix_shader ;;
  match matched with
  | Some second_input_node =>
      let attributes := <["ReflectanceMethod" := PyStr "FLAT"]> attributes in
      let attributes := <["SpecularHighlight" := PyNone]> attributes in
      if String.eqb (type second_input_node) "RGB" then
        out <- socket_at (outputs second_input_node) 0 ;;
        Ok (attributes, default_value out)
      else if String.eqb (type second_input_node) "TEX_IMAGE" then
        Ok (attributes, Blender.diffuse_color props)
      else Ok (attributes, diffuse_color)
  | None => Ok (attributes, diffuse_color)
  end.

(** The node bound to [bsdf] by the condition of the second branch. *)
Definition principled_surface (surface_output : option Node) : result (option Node) :=
  match surface_output with
  | None => Ok None
  | Some s =>
      if String.eqb (type s) "BSDF_PRINCIPLED" then Ok (Some s)
      else if String.eqb (type s) "ADD_SHADER" then
        get_input_node (Some s) None (Some "BSDF_PRINCIPLED") (Some 1%nat)
      else Ok None
  end.

Definition is_mix_shader (surface_output : option Node) : option Node :=
  match surface_output with
  | Some s => if String.eqb (type s) "MIX_SHADER" then Some s else None
  | None => None
  end.

(** The last two statements: convert the chosen diffuse colour. *)
Definition finish (chosen : Attributes * value) : result Attributes :=
  colour <- color_to_ifc_format (snd chosen) ;;
  Ok (<["DiffuseColour" := colour]> (fst chosen)).

(** [Style.get_surface_rendering_attributes(obj)], for the document schema
    [tool.Ifc.get_schema()].  [report] only prints and is left out. *)
Definition get_surface_rendering_attributes (ifc_schema : string) (obj : Material)
  : result Attributes :=
  let props := BIMStyleProperties obj in
  let transparency := (1 - alpha (viewport_color obj))%float in
  let diffuse_color := rgba_value (viewport_color obj) in
  viewport <- color_to_ifc_format (rgba_value (viewport_color obj)) ;;
  let attributes : Attributes :=
    <["Transparency" := PyFloat transparency]> (<["SurfaceColour" := viewport]> ∅) in
  let bsdfs := bsdfs_of obj in
  let material_output := get_material_node obj "OUTPUT_MATERIAL" true in
  surface_output <- get_input_node material_output (Some "Surface") None None ;;
  match is_mix_shader surface_output with
  | Some mix_shader =>
      chosen <- mix_shader_branch props attributes diffuse_color mix_shader ;;
      finish chosen
  | None =>
      bound <- principled_surface surface_output ;;
      match bound with
      | Some bsdf => chosen <- principled ifc_schema attributes bsdf ;; finish chosen
      | None =>
          match bsdfs !! "BSDF_GLOSSY" with
          | Some bsdf => chosen <- rough_bsdf "METAL" attributes bsdf ;; finish chosen
          | None =>
          match bsdfs !! "BSDF_DIFFUSE" with
          | Some bsdf => chosen <- rough_bsdf "MATT" attributes bsdf ;; finish chosen
          | None =>
          match bsdfs !! "BSDF_GLASS" with
          | Some bsdf => chosen <- rough_bsdf "GLASS" attributes bsdf ;; finish chosen
          | None =>
          match bsdfs !! "EMISSION" with
          | Some bsdf => chosen <- emission attributes bsdf ;; finish chosen
          | None =>
          match bsdfs !! "BSDF_PRINCIPLED" with
          | Some bsdf => chosen <- principled ifc_schema attributes bsdf ;; finish chosen
          | None =>
              let attributes := <["ReflectanceMethod" := PyStr "NOTDEFINED"]> attributes in
              let attributes := <["SpecularHighlight" := PyNone]> attributes in
              Ok (<["DiffuseColour" := viewport]> attributes)
          end end end end end
      end
  end.

(** [xs.pop()]: the last element and the rest. *)
Definition pop {A : Type} (l : list A) : option (list A * A) :=
  match rev l with
  | [] => None
  | x :: r => Some (rev r, x)
  end.

(** [v.name] on a Python object that should be an instance. *)
Definition value_attribute (f : file) (v : value) (name : string) : result value :=
  match v with
  | PyEntity i => attribute f i name
  | _ => Raise AttributeError
  end.

(** [v.is_a(cls)]. *)
Definition value_is_a (f : file) (v : value) (cls : string) : result bool :=
  match v with
  | PyEntity i =>
      match by_id f i with
      | Some e => Ok (is_a_kind e cls)
      | None => Raise RuntimeError
      end
  | _ => Raise AttributeError
  end.

(** [items.extend(v)]. *)
Definition extend (items : list value) (v : value) : result (list value) :=
  match v with
  | PyList l | PyTuple l => Ok (items ++ l)
  | _ => Raise TypeError
  end.

(** The [while inverses:] loop of [get_styled_items]; [None] when [fuel]
    turns do not empty the worklist. *)
Fixpoint styled_items_loop (fuel : nat) (f : file) (inverses : list nat) (items : list value)
  : option (result (list value)) :=
  match pop inverses with
  | None => Some (Ok items)
  | Some (inverses, inverse) =>
      match fuel with
      | O => None
      | S fuel =>
          match value_is_a f (PyEntity inverse) "IfcPresentationStyleAssignment" with
          | Raise e => Some (Raise e)
          | Ok true => styled_items_loop fuel f (inverses ++ get_inverse f inverse) items
          | Ok false =>
              match attribute f inverse "Item" with
              | Raise e => Some (Raise e)
              | Ok item =>
                  if negb (truthy item) then styled_items_loop fuel f inverses items
                  else
                    match value_is_a f item "IfcMappedItem" with
                    | Raise e => Some (Raise e)
                    | Ok true =>
                        match (source <- value_attribute f item "MappingSource" ;;
                               mapped <- value_attribute f source "MappedRepresentation" ;;
                               found <- value_attribute f mapped "Items" ;;
                               extend items found) with
                        | Raise e => Some (Raise e)
                        | Ok items => styled_items_loop fuel f inverses items
                        end
                    | Ok false => styled_items_loop fuel f inverses (items ++ [item])
                    end
              end
          end
      end
  end.

(** [Style.get_styled_items(style)] on the document [tool.Ifc.get()]. *)
Definition get_styled_items (fuel : nat) (ifc_file : file) (style : nat)
  : option (result (list value)) :=
  styled_items_loop fuel ifc_file (get_inverse ifc_file style) [].

End Style.

(* ===================================================================== *)
(** * blenderbim.tool.Style: the style queries *)
(* ===================================================================== *)

Module StyleQueries.
Import Py Ifc Blender Style.
Local Open Scope result_scope.

(** [obj.BIMMaterialProperties] of a Blender material, as far as the
    queries read it: the id of the IFC style the material is linked to,
    0 when it is linked to none. *)
Record MaterialProperties : Type := { ifc_style_id : nat }.

(** What [get_style_elements] is given: a Blender material
    ([isinstance(x, bpy.types.Material)]) or an IFC style. *)
Inductive MaterialOrStyle : Type :=
| BlenderMaterial (obj : MaterialProperties)
| IfcStyle (style : value).

(** [tool.Ifc.get().by_id(i)]. *)
Definition instance_by_id (ifc_file : file) (i : nat) : result value :=
  match by_id ifc_file i with
  | Some e => Ok (PyEntity (id e))
  | None => Raise RuntimeError
  end.

(** [v.is_a()]. *)
Definition value_class (ifc_file : file) (v : value) : result string :=
  match v with
  | PyEntity i =>
      match by_id ifc_file i with
      | Some e => Ok (is_a e)
      | None => Raise RuntimeError
      end
  | _ => Raise AttributeError
  end.

(** [for x in v]: what the loop variable is bound to, in order. *)
Definition iterate (v : value) : result (list value) :=
  match v with
  | PyList l | PyTuple l => Ok l
  | PyStr s => Ok (map (fun c => PyStr (String c EmptyString)) (String.list_ascii_of_string s))
  | PyDict d => Ok (map (fun kv => PyStr (fst kv)) d)
  | _ => Raise TypeError
  end.

(** [bool(obj.BIMMaterialProperties.ifc_style_id)]. *)
Definition linked (obj : MaterialProperties) : bool := negb (Nat.eqb (ifc_style_id obj) 0).

(** [Style.get_style(obj)]: any exception of the lookup is swallowed. *)
Definition get_style (ifc_file : file) (obj : MaterialProperties) : option value :=
  if linked obj then
    match instance_by_id ifc_file (ifc_style_id obj) with
    | Ok style => Some style
    | Raise _ => None
    end
  else None.

(** The loop of [get_style_elements]:
    [style_elements[style.is_a()] = style] for each style in turn. *)
Fixpoint collect_styles (ifc_file : file) (styles : list value)
    (style_elements : gmap string value) : result (gmap string value) :=
  match styles with
  | [] => Ok style_elements
  | style :: rest =>
      cls <- value_class ifc_file style ;;
      collect_styles ifc_file rest (<[cls := style]> style_elements)
  end.

(** [Style.get_style_elements(blender_material_or_style)]. *)
Definition get_style_elements (ifc_file : file) (blender_material_or_style : MaterialOrStyle)
  : result (gmap string value) :=
  let elements_of (style : value) :=
    styles <- value_attribute ifc_file style "Styles" ;;
    styles <- iterate styles ;;
    collect_styles ifc_file styles ∅ in
  match blender_material_or_style with
  | BlenderMaterial obj =>
      if negb (linked obj) then Ok ∅
      else
        style <- instance_by_id ifc_file (ifc_style_id obj) ;;
        elements_of style
  | IfcStyle style => elements_of style
  end.

(** [Style.get_surface_rendering_style], [Style.get_texture_style] and
    [Style.get_external_style]. *)
Definition get_surface_rendering_style (ifc_file : file) (obj : MaterialOrStyle)
  : result (option value) :=
  style_elements <- get_style_elements ifc_file obj ;;
  Ok (style_elements !! "IfcSurfaceStyleRendering").

Definition get_texture_style (ifc_file : file) (obj : MaterialOrStyle) : result (option value) :=
  style_elements <- get_style_elements ifc_file obj ;;
  Ok (style_elements !! "IfcSurfaceStyleWithTextures").

Definition get_external_style (ifc_file : file) (obj : MaterialOrStyle) : result (option value) :=
  style_elements <- get_style_elements ifc_file obj ;;
  Ok (style_elements !! "IfcExternallyDefinedSurfaceStyle").

(** [Style.get_surface_shading_attributes(obj)], for the document schema
    [tool.Ifc.get_schema()]. *)
Definition get_surface_shading_attributes (ifc_schema : string) (obj : Material)
  : result (gmap string value) :=
  let diffuse_color := rgba_value (viewport_color obj) in
  red <- index diffuse_color 0 ;;
  green <- index diffuse_color 1 ;;
  blue <- index diffuse_color 2 ;;
  alpha <- index diffuse_color 3 ;;
  transparency <- one_minus alpha ;;
  let data : gmap string value :=
    <["Transparency" := transparency]>
      (<["SurfaceColour" :=
           PyDict [("Name", PyNone); ("Red", red); ("Green", green); ("Blue", blue)]]> ∅) in
  Ok (if String.eqb ifc_schema "IFC2X3" then delete "Transparency" data else data).

(** [[s for s in styles if test(s)]]: the test is made on every element. *)
Fixpoint comprehension (test : value -> result bool) (styles : list value)
  : result (list value) :=
  match styles with
  | [] => Ok []
  | s :: rest =>
      keep <- test s ;;
      kept <- comprehension test rest ;;
      Ok (if keep then s :: kept else kept)
  end.

(** [Style.get_surface_shading_style(obj)]: the first style whose class is
    IfcSurfaceStyleShading itself. *)
Definition get_surface_shading_style (ifc_file : file) (obj : MaterialProperties)
  : result (option value) :=
  if linked obj then
    style <- instance_by_id ifc_file (ifc_style_id obj) ;;
    styles <- value_attribute ifc_file style "Styles" ;;
    styles <- iterate styles ;;
    items <- comprehension
               (fun s => cls <- value_class ifc_file s ;;
                         Ok (String.eqb cls "IfcSurfaceStyleShading"))
               styles ;;
    Ok (List.head items)
  else Ok None.

(** [Style.get_surface_texture_style(obj)]: the first style that is of kind
    IfcSurfaceStyleWithTextures. *)
Definition get_surface_texture_style (ifc_file : file) (obj : MaterialProperties)
  : result (option value) :=
  if linked obj then
    style <- instance_by_id ifc_file (ifc_style_id obj) ;;
    styles <- value_attribute ifc_file style "Styles" ;;
    styles <- iterate styles ;;
    items <- comprehension (fun s => value_is_a ifc_file s "IfcSurfaceStyleWithTextures")
               styles ;;
    Ok (List.head items)
  else Ok None.

(** [s.endswith(suffix)] on strings. *)
Definition ends_with (s suffix : string) : bool :=
  let n := String.length s in
  let m := String.length suffix in
  (m <=? n)%nat && String.eqb (String.substring (n - m) m s) suffix.

(** [v.endswith(suffix)]. *)
Definition endswith (v : value) (suffix : string) : result bool :=
  match v with
  | PyStr s => Ok (ends_with s suffix)
  | _ => Raise AttributeError
  end.

(** [Style.has_blender_external_style(style_elements)]. *)
Definition has_blender_external_style (ifc_file : file) (style_elements : gmap string value)
  : result bool :=
  match style_elements !! "IfcExternallyDefinedSurfaceStyle" with
  | None => Ok false
  | Some external_style =>
      if truthy external_style then
        location <- value_attribute ifc_file external_style "Location" ;;
        endswith location ".blend"
      else Ok false
  end.

End StyleQueries.

(* ===================================================================== *)
(** * blenderbim.bim.module.sequence.helper *)
(* ===================================================================== *)

Module Sequence.
Import Py QArith_base.
Local Open Scope Z_scope.

(** How a call of this module can fail: Python finds a local variable
    unbound, a timedelta out of range, or an exception of the kinds of
    [Py.exn] is raised (by an attribute access, or by the date utilities). *)
Inductive failure : Type :=
| UnboundLocalError
| OverflowError
| Raised (e : exn).

Inductive outcome (A : Type) : Type :=
| Returns (a : A)
| Fails (e : failure).
Arguments Returns {A} a.
Arguments Fails {A} e.

Definition then_ {A B : Type} (m : outcome A) (k : A -> outcome B) : outcome B :=
  match m with
  | Returns a => k a
  | Fails e => Fails e
  end.

(** [datetime.timedelta]: days, seconds of the day and microseconds of the
    second. *)
Module Timedelta.
Record timedelta : Type := { days : Z; seconds : Z; microseconds : Z }.
End Timedelta.
Abbreviation timedelta := Timedelta.timedelta.

(** The numbers these functions compute with: an [int], or a
    [decimal.Decimal], the type in which an [isodate.Duration] keeps its
    years and months (it converts what it is given).  A Decimal is a finite
    decimal fraction and is held as the rational it denotes; its sums and
    remainders are exact as long as they fit the 28 digits of the decimal
    context. *)
Inductive number : Type :=
| Int (z : Z)
| Decimal (q : Q).

Definition rational (n : number) : Q :=
  match n with
  | Int z => inject_Z z
  | Decimal q => q
  end.

(** The whole part of a rational, rounded toward zero. *)
Definition truncate (q : Q) : Z := Z.quot (Qnum q) (Z.pos (Qden q)).

(** [int(n)]: a Decimal loses its fraction. *)
Definition int (n : number) : Z :=
  match n with
  | Int z => z
  | Decimal q => truncate q
  end.

(** [a + b]: a Decimal as soon as one of the two is. *)
Definition add (a b : number) : number :=
  match a, b with
  | Int x, Int y => Int (x + y)
  | _, _ => Decimal (rational a + rational b)
  end.

(** [a >= b]. *)
Definition ge (a b : number) : bool :=
  match a, b with
  | Int x, Int y => Z.leb y x
  | _, _ => Qle_bool (rational b) (rational a)
  end.

(** What the date utilities give these functions: None, a
    [datetime.timedelta], an [isodate.Duration] (years and months, both
    Decimal, beside a timedelta, to which it hands the lookup of the
    attributes it does not have itself), or an object with none of the
    attributes read here (a date or a time). *)
Inductive duration_object : Type :=
| NoDuration
| Delta (td : timedelta)
| Duration (years months : Q) (tdelta : timedelta)
| OtherObject.

(** [ifcopenshell.util.date.ifc2datetime], which lives outside the source
    tree and is taken as an interface. *)
Class DateUtils : Type := {
  ifc2datetime : string -> outcome duration_object
}.

(** The items of [durations_attributes]: Blender property groups with a
    name and six integer properties. *)
Record ISODuration : Type := {
  name : string;
  years : Z;
  months : Z;
  days : Z;
  hours : Z;
  minutes : Z;
  seconds : Z
}.

(** [divmod(a, b)] on integers. *)
Definition divmod (a b : Z) : Z * Z := (a / b, a mod b).

(** [divmod(a, b)] for an integer [b]: on a Decimal the quotient is rounded
    toward zero and the remainder is what is left, both Decimal. *)
Definition number_divmod (a : number) (b : Z) : number * number :=
  match a with
  | Int x => (Int (x / b), Int (x mod b))
  | Decimal q =>
      let k := truncate (q / inject_Z b) in
      (Decimal (inject_Z k), Decimal (q - inject_Z b * inject_Z k))
  end.

(** [getattr(dt, name, 0)] for the four attributes read. *)
Definition seconds_or_zero (dt : duration_object) : Z :=
  match dt with
  | Delta td | Duration _ _ td => Timedelta.seconds td
  | _ => 0
  end.

Definition days_or_zero (dt : duration_object) : Z :=
  match dt with
  | Delta td | Duration _ _ td => Timedelta.days td
  | _ => 0
  end.

Definition months_or_zero (dt : duration_object) : number :=
  match dt with
  | Duration _ m _ => Decimal m
  | _ => Int 0
  end.

Definition years_or_zero (dt : duration_object) : number :=
  match dt with
  | Duration y _ _ => Decimal y
  | _ => Int 0
  end.

(** The argument of [parse_duration_as_blender_props]: a string
    ([isinstance(dt, str)]) or an object. *)
Inductive duration_argument : Type :=
| Text (s : string)
| Object (dt : duration_object).

(** [parse_duration_as_blender_props(dt, simplify)]. *)
Definition parse_duration_as_blender_props `{DateUtils} (dt : duration_argument)
    (simplify : bool) : outcome (option dict) :=
  if simplify then
    then_ (match dt with
           | Text s => ifc2datetime s
           | Object dt => Returns dt
           end)
      (fun dt =>
         let seconds := seconds_or_zero dt in
         let '(hours, seconds) := divmod seconds 3600 in
         let '(minutes, seconds) := divmod seconds 60 in
         let days := days_or_zero dt in
         let months := int (months_or_zero dt) in
         let years := int (years_or_zero dt) in
         Returns (Some [("years", PyInt years); ("months", PyInt months);
                        ("days", PyInt days); ("hours", PyInt hours);
                        ("minutes", PyInt minutes); ("seconds", PyInt seconds)]))
  else Returns None.

(** [str(z)]. *)
Definition str (z : Z) : string := NilZero.string_of_int (Z.to_int z).

(** ["P{}Y{}M{}DT{}H{}M{}S".format(...)] on integers. *)
Definition duration_string (years months days hours minutes seconds : Z) : string :=
  ("P" ++ str years ++ "Y" ++ str months ++ "M" ++ str days ++ "DT"
   ++ str hours ++ "H" ++ str minutes ++ "M" ++ str seconds ++ "S")%string.

(** The first loop of [simplify_duration]: the last item with the name,
    None when the variable stays unbound. *)
Definition named (durations_attributes : list ISODuration) (prop_name : string)
  : option ISODuration :=
  fold_left (fun duration_props item =>
               if String.eqb (name item) prop_name then Some item else duration_props)
            durations_attributes None.

(** [duration_type == s]. *)
Definition equals_string (v : value) (s : string) : bool :=
  match v with
  | PyStr t => String.eqb t s
  | _ => false
  end.

(** [x if x else 0]. *)
Definition or_zero (x : Z) : Z := if Z.eqb x 0 then 0 else x.

(** [timedelta(days=d, seconds=s)]: normalised, and refused when the days
    exceed 999999999 in magnitude. *)
Definition timedelta_of (days seconds : Z) : outcome timedelta :=
  let '(carry, seconds) := divmod seconds 86400 in
  let days := days + carry in
  if Z.ltb 999999999 (Z.abs days) then Fails OverflowError
  else Returns {| Timedelta.days := days; Timedelta.seconds := seconds;
                  Timedelta.microseconds := 0 |}.

(** The WORKTIME branch of [simplify_duration].  [days_subtotal] and
    [total_days] are floats in the source; they hold whole numbers, which
    binary64 represents exactly below 2^53, so that for the values a
    Blender integer property takes (32 bits) the float division and
    addition are the integer ones written here. *)
Definition worktime (duration_props : ISODuration) : outcome duration_object :=
  let years := if negb (Z.eqb (years duration_props) 0)
               then years duration_props * 365 * 24 * 60 * 60 else 0 in
  let months := if negb (Z.eqb (months duration_props) 0)
                then months duration_props * 30 * 24 * 60 * 60 else 0 in
  let days := if negb (Z.eqb (days duration_props) 0)
              then days duration_props * 24 * 60 * 60 else 0 in
  let days_subtotal := (years + months + days) / (24 * 60 * 60) in
  let hours := if negb (Z.eqb (hours duration_props) 0)
               then hours duration_props * 60 * 60 else 0 in
  let minutes := if negb (Z.eqb (minutes duration_props) 0)
                 then minutes duration_props * 60 else 0 in
  let seconds := or_zero (seconds duration_props) in
  let total_seconds := hours + minutes + seconds in
  let calendar_seconds_per_day := 8 * 60 * 60 in
  let '(extra_days, seconds_left) := divmod total_seconds calendar_seconds_per_day in
  let total_days := days_subtotal + extra_days in
  then_ (timedelta_of total_days seconds_left) (fun td => Returns (Delta td)).

(** [bool(duration_object)]. *)
Definition is_set (duration_object : duration_object) : bool :=
  match duration_object with
  | NoDuration => false
  | Delta td =>
      negb (Z.eqb (Timedelta.days td) 0 && Z.eqb (Timedelta.seconds td) 0
            && Z.eqb (Timedelta.microseconds td) 0)
  | Duration _ _ _ | OtherObject => true
  end.

(** The last part of [simplify_duration]: the string for a duration
    object. *)
Definition simplified (duration_object : duration_object) : outcome string :=
  match duration_object with
  | NoDuration | OtherObject => Fails (Raised AttributeError)
  | Delta td | Duration _ _ td =>
      let total_days := Timedelta.days td in
      let seconds_left := Timedelta.seconds td in
      let '(years, days) := divmod total_days 365 in
      let years := match duration_object with
                   | Duration y _ _ => add (Int years) (Decimal y)
                   | _ => Int years
                   end in
      let '(months, days) := divmod days 30 in
      let months := match duration_object with
                    | Duration _ m _ => add (Int months) (Decimal m)
                    | _ => Int months
                    end in
      let '(years, months) :=
        if ge months (Int 12) then
          let '(extra_years, months) := number_divmod months 12 in
          (add years extra_years, months)
        else (years, months) in
      let '(hours, seconds) := divmod seconds_left 3600 in
      let '(minutes, seconds) := divmod seconds 60 in
      Returns (duration_string (int years) (int months) days hours minutes seconds)
  end.

(** [simplify_duration(durations_attributes, duration_type, prop_name)]. *)
Definition simplify_duration `{DateUtils} (durations_attributes : list ISODuration)
    (duration_type : value) (prop_name : string) : outcome (option string) :=
  match named durations_attributes prop_name with
  | None => Fails UnboundLocalError
  | Some duration_props =>
      then_ (if negb (truthy duration_type) || equals_string duration_type "ELAPSEDTIME" then
               ifc2datetime
                 (duration_string (or_zero (years duration_props))
                    (or_zero (months duration_props)) (or_zero (days duration_props))
                    (or_zero (hours duration_props)) (or_zero (minutes duration_props))
                    (or_zero (seconds duration_props)))
             else if equals_string duration_type "WORKTIME" then worktime duration_props
             else Fails UnboundLocalError)
        (fun duration_object =>
           if is_set duration_object then
             then_ (simplified duration_object) (fun s => Returns (Some s))
           else Returns None)
  end.

End Sequence.

(* ===================================================================== *)
(** * Vocabulary of the georeferencing properties *)
(* ===================================================================== *)

Module GeoreferenceTerms.
Import Py Ifc Georeference.

(** An action keeps [R] when the document it leaves is related to the one
    it started from, whether it returns or raises. *)
Definition keeps (R : file -> file -> Prop) {A : Type} (m : action A) : Prop :=
  forall f, R f (snd (m f)).

(** Ids and classes of the instances, in order. *)
Definition classes (f : file) : list (nat * string) :=
  map (fun e => (id e, is_a e)) (instances f).

(** [grows f g]: same schema, and [g] has the instances of [f] with their
    classes, followed by new [IfcDirection] instances only. *)
Definition grows (f g : file) : Prop :=
  schema g = schema f /\
  exists added, classes g = classes f ++ added /\
                Forall (fun p => snd p = "IfcDirection") added.

(** What [edit_georeferencing] passes to [execute]. *)
Definition settings_of (co pc : option dict) (tn : value) : settings :=
  {| coordinate_operation := or_empty co;
     projected_crs := or_empty pc;
     true_north := if truthy tn then tn else PyList [] |}.

(** ** Well-formed documents *)

Definition context_class : string := "IfcGeometricRepresentationContext".

Definition direction_class : string := "IfcDirection".

(** The root contexts, as [set_true_north] looks them up. *)
Definition contexts (f : file) : list nat := by_type f context_class false.

Fixpoint distinct (l : list nat) : bool :=
  match l with
  | [] => true
  | x :: rest => negb (existsb (Nat.eqb x) rest) && distinct rest
  end.

(** No two instances share an id. *)
Definition unique_ids (f : file) : bool := distinct (map id (instances f)).

Definition resolves (f : file) (i : nat) : bool := existsb (has_id i) (instances f).

(** Every reference held by an attribute leads to an instance. *)
Definition closed_refs (f : file) : bool :=
  forallb (fun e => forallb (fun kv => forallb (resolves f) (refs (snd kv))) (attributes e))
          (instances f).

Definition points_at_direction (f : file) (e : entity_instance) : bool :=
  match assoc "TrueNorth" (attributes e) with
  | Some (PyEntity d) =>
      match by_id f d with
      | Some x => String.eqb (is_a x) direction_class
      | None => false
      end
  | _ => true
  end.

(** The true north of a root context, when it is an instance, is an
    IfcDirection. *)
Definition true_north_typed (f : file) : bool :=
  forallb (fun e => negb (String.eqb (is_a e) context_class) || points_at_direction f e)
          (instances f).

Definition well_formed (f : file) : bool :=
  unique_ids f && closed_refs f && true_north_typed f.

(** The instances a mapping's values refer to exist and are no directions. *)
Definition avoids_directions (f : file) (d : dict) : bool :=
  forallb (fun kv =>
             forallb (fun i => match by_id f i with
                               | Some e => negb (String.eqb (is_a e) direction_class)
                               | None => false
                               end)
                     (refs (snd kv)))
          d.

(** The handle of a root context. *)
Definition is_context (f : file) (c : nat) : Prop :=
  exists ec, by_id f c = Some ec /\ is_a ec = context_class.

(** [untouched f g]: going from [f] to [g], no root context or direction
    was added, removed or edited, no direction that is the true north of a
    context and has that context as only referrer got another referrer, and
    the document stayed well formed. *)
Definition untouched (f g : file) : Prop :=
  (forall i e, by_id f i = Some e ->
               is_a e = context_class \/ is_a e = direction_class -> by_id g i = Some e)
  /\ by_type g context_class false = by_type f context_class false
  /\ by_type g direction_class true = by_type f direction_class true
  /\ (forall c ec d, by_id f c = Some ec -> is_a ec = context_class ->
                     assoc "TrueNorth" (attributes ec) = Some (PyEntity d) ->
                     length (get_inverse f d) = 1 ->
                     get_inverse g d = get_inverse f d)
  /\ well_formed g = true.

(** The frame condition on the property-set helpers: on a well-formed
    document they leave the contexts and the directions alone. *)
Definition frames_true_north (api : PsetApi) : Prop :=
  forall f, well_formed f = true ->
    (forall cls v, untouched f (snd (create_typed cls v f)))
    /\ (forall i props, untouched f (snd (edit_pset i props f))).

(** The document after [context.TrueNorth = create_entity("IfcDirection")]. *)
Definition repointed (f : file) (c : nat) : file :=
  update (add f (blank (fresh_id f) direction_class)) c
         (with_attr "TrueNorth" (PyEntity (fresh_id f))).

(** Well-formedness, as propositions. *)
Record Wf (f : file) : Prop := {
  wf_unique : List.NoDup (map id (instances f));
  wf_closed : forall e x, In e (instances f) -> references x e = true -> resolves f x = true;
  wf_typed : forall e d, In e (instances f) -> is_a e = context_class ->
               assoc "TrueNorth" (attributes e) = Some (PyEntity d) ->
               exists x, by_id f d = Some x /\ is_a x = direction_class
}.

(** Every instance of [f] is in [g] under the same id and class. *)
Definition same_classes (f g : file) : Prop :=
  forall x y, by_id f x = Some y -> exists y', by_id g x = Some y' /\ is_a y' = is_a y.

(** [avoids_directions], as a proposition. *)
Definition Avoids (f : file) (d : dict) : Prop :=
  forall kv x, In kv d -> mentions x (snd kv) = true ->
    exists y, by_id f x = Some y /\ is_a y <> direction_class.

(** Same ids and classes, in the same order. *)
Definition classes_kept (f g : file) : Prop := classes g = classes f.

(** [untouched], for a step that starts from a well-formed document. *)
Definition stays_untouched (f g : file) : Prop := Wf f -> untouched f g.

(** A context is at rest with outcome [o] when a turn of the loop on it
    would change nothing and end in [o]: it has a direction of its own, and
    either the write cannot be made or the ratios are already in place. *)
Definition at_rest (true_north : value) (f : file) (c : nat) (o : result unit) : Prop :=
  exists ec, by_id f c = Some ec /\
    match assoc "TrueNorth" (attributes ec) with
    | None => o = Raise AttributeError
    | Some (PyEntity d) =>
        length (get_inverse f d) = 1 /\
        match assoc "CoordinateSpaceDimension" (attributes ec) with
        | None => o = Raise AttributeError
        | Some dimension =>
            match direction_ratios true_north dimension with
            | Raise e => o = Raise e
            | Ok ratios =>
                match by_id f d with
                | None => o = Raise RuntimeError
                | Some ed =>
                    match assoc "DirectionRatios" (attributes ed) with
                    | None => o = Raise Undeclared
                    | Some current => current = ratios /\ o = Ok tt
                    end
                end
            end
        end
    | Some old => truthy old = true /\ o = Raise TypeError
    end.

(** [adds_directions n f g]: [g] has the schema and the instances of [f],
    with their ids and classes in the same order, followed by at most [n]
    new instances, all of them IfcDirection. *)
Definition adds_directions (n : nat) (f g : file) : Prop :=
  schema g = schema f /\
  exists added, classes g = classes f ++ added
                /\ Forall (fun p => snd p = direction_class) added
                /\ length added <= n.

End GeoreferenceTerms.

(* ===================================================================== *)
(** * Vocabulary of the style properties *)
(* ===================================================================== *)

Module StyleTerms.
Import Py Blender Style.

(** [color_to_ifc_format] of the viewport colour. *)
Definition ifc_colour (c : Rgba) : value :=
  PyDict [("Name", PyNone); ("Red", PyFloat (red c)); ("Green", PyFloat (green c));
          ("Blue", PyFloat (blue c))].

(** The record of the last [else] branch of the classifier. *)
Definition default_attributes (c : Rgba) : gmap string value :=
  <["DiffuseColour" := ifc_colour c]>
    (<["SpecularHighlight" := PyNone]>
       (<["ReflectanceMethod" := PyStr "NOTDEFINED"]>
          (<["Transparency" := PyFloat (1 - alpha c)%float]>
             (<["SurfaceColour" := ifc_colour c]> ∅)))).

(** The types of the nodes the [bsdfs] dict is built from. *)
Definition scanned_types (obj : Material) : list string :=
  map type (List.filter linked_output (nodes obj)).

Definition known_bsdfs : list string :=
  ["BSDF_GLOSSY"; "BSDF_DIFFUSE"; "BSDF_GLASS"; "EMISSION"; "BSDF_PRINCIPLED"].

(** No node with a linked first output is of a type the scan knows. *)
Definition no_known_bsdf (obj : Material) : bool :=
  forallb (fun t => negb (existsb (String.eqb t) (scanned_types obj))) known_bsdfs.

(** A colour value: a sequence of at least three components. *)
Definition is_colour (v : value) : bool :=
  match v with
  | PyList l | PyTuple l => Nat.leb 3 (length l)
  | _ => false
  end.

Definition any_value (v : value) : bool := true.

Definition has_input (n : Node) (input_name : string) (ok : value -> bool) : bool :=
  match find (fun s => String.eqb (name s) input_name) (inputs n) with
  | Some s => ok (default_value s)
  | None => false
  end.

(** The sockets the host editor declares for the node types the classifier
    reads from. *)
Definition sockets_declared (n : Node) : bool :=
  if String.eqb (type n) "OUTPUT_MATERIAL" then has_input n "Surface" any_value
  else if String.eqb (type n) "MIX_SHADER"
    then has_input n "Fac" any_value && Nat.leb 3 (length (inputs n))
  else if String.eqb (type n) "ADD_SHADER" then Nat.leb 2 (length (inputs n))
  else if String.eqb (type n) "BSDF_PRINCIPLED"
    then has_input n "Base Color" is_colour && has_input n "Metallic" is_number
         && has_input n "Roughness" is_number && has_input n "Alpha" is_number
  else if String.eqb (type n) "BSDF_GLOSSY" || String.eqb (type n) "BSDF_DIFFUSE"
          || String.eqb (type n) "BSDF_GLASS"
    then has_input n "Roughness" is_number && has_input n "Color" is_colour
  else if String.eqb (type n) "EMISSION" then has_input n "Color" is_colour
  else if String.eqb (type n) "RGB"
    then match outputs n with
         | s :: _ => is_colour (default_value s)
         | [] => false
         end
  else true.

(** A node and every node upstream of it have their declared sockets. *)
Fixpoint well_socketed (n : Node) : bool :=
  sockets_declared n
  && forallb (fun s => forallb (fun l => well_socketed (from_node l)) (links s)) (inputs n).

(** A material as the host editor builds it. *)
Definition well_formed_material (obj : Material) : bool :=
  forallb well_socketed (nodes obj) && is_colour (diffuse_color (BIMStyleProperties obj)).

(** ** The style queries and the styled-items loop *)

Import Ifc StyleQueries.

(** What the classifier starts from: the viewport colour and its alpha. *)
Definition initial_attributes (c : Rgba) : gmap string value :=
  <["Transparency" := PyFloat (1 - alpha c)%float]> (<["SurfaceColour" := ifc_colour c]> ∅).

(** The styles of a list whose class is [cls] itself. *)
Definition of_class (ifc_file : file) (cls : string) (styles : list value) : list value :=
  List.filter (fun s => match value_class ifc_file s with
                        | Ok c => String.eqb c cls
                        | Raise _ => false
                        end) styles.

(** The style a material or style argument stands for. *)
Definition style_of (ifc_file : file) (x : MaterialOrStyle) (style : value) : Prop :=
  match x with
  | BlenderMaterial obj =>
      linked obj = true /\ instance_by_id ifc_file (ifc_style_id obj) = Ok style
  | IfcStyle s => s = style
  end.

(** [inverse.is_a("IfcPresentationStyleAssignment")] answers True. *)
Definition is_assignment (ifc_file : file) (x : nat) : bool :=
  match value_is_a ifc_file (PyEntity x) "IfcPresentationStyleAssignment" with
  | Ok true => true
  | _ => false
  end.

(** The turns of the loop of [get_styled_items] a worklist accounts for:
    one for each entry, and one more for each referrer of an entry that is
    a style assignment. *)
Definition turns (ifc_file : file) (inverses : list nat) : nat :=
  list_sum (map (fun x => if is_assignment ifc_file x
                          then S (length (get_inverse ifc_file x)) else 1) inverses).

(** No style assignment is referred to by a style assignment. *)
Definition flat_assignments (ifc_file : file) : bool :=
  forallb (fun a => forallb (fun x => negb (is_assignment ifc_file x))
                            (get_inverse ifc_file a))
          (by_type ifc_file "IfcPresentationStyleAssignment" true).

(** A styled item that holds a geometry item of its own. *)
Definition styles_item (ifc_file : file) (x : nat) (item : value) : Prop :=
  value_is_a ifc_file (PyEntity x) "IfcPresentationStyleAssignment" = Ok false
  /\ attribute ifc_file x "Item" = Ok item
  /\ truthy item = true
  /\ value_is_a ifc_file item "IfcMappedItem" = Ok false.

End StyleTerms.

(** * Vocabulary of the duration properties *)

Module SequenceTerms.
Import Py Sequence QArith_base.
Local Open Scope Z_scope.

(** [z] is [q] without its fraction: the whole number next to [q] on the
    side of zero. *)
Definition whole_part (q : Q) (z : Z) : Prop :=
  ((0 <= q -> inject_Z z <= q /\ q < inject_Z z + 1)
   /\ (q <= 0 -> inject_Z z - 1 < q /\ q <= inject_Z z))%Q.

(** A value a 32-bit Blender integer property can take. *)
Definition int32 (z : Z) : bool := Z.leb (- 2 ^ 31) z && Z.ltb z (2 ^ 31).

Definition in_range (duration_props : ISODuration) : bool :=
  int32 (years duration_props) && int32 (months duration_props)
  && int32 (days duration_props) && int32 (hours duration_props)
  && int32 (minutes duration_props) && int32 (seconds duration_props).

(** The seconds of work entered as hours, minutes and seconds. *)
Definition work_seconds (duration_props : ISODuration) : Z :=
  hours duration_props * 3600 + minutes duration_props * 60 + seconds duration_props.

(** The days of a WORKTIME duration, a year being 365 days, a month 30
    and a day eight hours of work. *)
Definition work_days (duration_props : ISODuration) : Z :=
  years duration_props * 365 + months duration_props * 30 + days duration_props
  + work_seconds duration_props / 28800.

End SequenceTerms.

(* ===================================================================== *)
(** * Sample documents and materials *)
(* ===================================================================== *)

Module Samples.
Import Py Ifc Georeference Blender.

(** A toolkit state in which no element carries a property set. *)
#[export] Instance no_psets : PsetApi := {|
  create_typed := fun _ v => ret v;
  get_pset := fun _ _ _ => None;
  edit_pset := fun _ _ => ret tt
|}.

(** A root geometric representation context. *)
Definition context (i : nat) (dimension true_north : value) : entity_instance :=
  {| id := i;
     is_a := "IfcGeometricRepresentationContext";
     attributes := [("ContextIdentifier", PyNone); ("ContextType", PyStr "Model");
                    ("CoordinateSpaceDimension", dimension); ("Precision", PyNone);
                    ("WorldCoordinateSystem", PyNone); ("TrueNorth", true_north)] |}.

Definition direction (i : nat) (ratios : value) : entity_instance :=
  {| id := i; is_a := "IfcDirection"; attributes := [("DirectionRatios", ratios)] |}.

(** A legacy document with one 3-D context and no project. *)
Definition legacy_no_project : file :=
  {| schema := "IFC2X3"; instances := [context 1 (PyInt 3) PyNone] |}.

(** A modern document with neither a coordinate operation nor a CRS. *)
Definition modern_bare : file :=
  {| schema := "IFC4"; instances := [context 1 (PyInt 3) PyNone] |}.

Definition north : value := PyList [PyFloat 0; PyFloat 1].

Definition north_tuple : value := PyTuple [PyFloat 0; PyFloat 1].

Definition instance (i : nat) (cls : string) (attrs : list (string * value))
  : entity_instance :=
  {| id := i; is_a := cls; attributes := attrs |}.

(** A modern georeferenced document: a 3-D and a 2-D root context sharing
    one true-north direction, a map conversion and a projected CRS. *)
Definition map_conversion (i source target : nat) : entity_instance :=
  instance i "IfcMapConversion"
    [("SourceCRS", PyEntity source); ("TargetCRS", PyEntity target);
     ("Eastings", PyFloat 0); ("Northings", PyFloat 0); ("OrthogonalHeight", PyFloat 0);
     ("XAxisAbscissa", PyNone); ("XAxisOrdinate", PyNone); ("Scale", PyNone)].

Definition crs (i : nat) : entity_instance :=
  instance i "IfcProjectedCRS"
    [("Name", PyStr "EPSG:7856"); ("Description", PyNone); ("GeodeticDatum", PyNone);
     ("VerticalDatum", PyNone); ("MapProjection", PyNone); ("MapZone", PyNone);
     ("MapUnit", PyNone)].

Definition georeferenced : file :=
  {| schema := "IFC4";
     instances := [context 1 (PyInt 3) (PyEntity 3); context 2 (PyInt 2) (PyEntity 3);
                   direction 3 (PyList [PyFloat 1; PyFloat 0; PyFloat 0]);
                   map_conversion 4 1 5; crs 5] |}.

Definition false_origin : dict := [("Eastings", PyFloat 335087.17); ("Northings", PyFloat 6251635.41)].

Definition crs_name : dict := [("Name", PyStr "EPSG:7856")].

(** A surface style wrapped by a style assignment, attached by a styled
    item to a mapped item whose mapped representation holds two solids. *)
Definition styled_document : file :=
  {| schema := "IFC2X3";
     instances :=
       [instance 1 "IfcSurfaceStyle"
          [("Name", PyStr "Concrete"); ("Side", PyStr "BOTH"); ("Styles", PyTuple [])];
        instance 2 "IfcPresentationStyleAssignment" [("Styles", PyTuple [PyEntity 1])];
        instance 3 "IfcStyledItem"
          [("Item", PyEntity 4); ("Styles", PyTuple [PyEntity 2]); ("Name", PyNone)];
        instance 4 "IfcMappedItem" [("MappingSource", PyEntity 5); ("MappingTarget", PyNone)];
        instance 5 "IfcRepresentationMap"
          [("MappingOrigin", PyNone); ("MappedRepresentation", PyEntity 6)];
        instance 6 "IfcShapeRepresentation"
          [("ContextOfItems", PyNone); ("RepresentationIdentifier", PyStr "Body");
           ("RepresentationType", PyStr "SweptSolid");
           ("Items", PyTuple [PyEntity 7; PyEntity 8])];
        instance 7 "IfcExtrudedAreaSolid"
          [("SweptArea", PyNone); ("Position", PyNone); ("ExtrudedDirection", PyNone);
           ("Depth", PyFloat 3)];
        instance 8 "IfcExtrudedAreaSolid"
          [("SweptArea", PyNone); ("Position", PyNone); ("ExtrudedDirection", PyNone);
           ("Depth", PyFloat 1)]] |}.

(** Sockets, nodes and materials. *)
Definition pin (n : string) (v : value) (from : list Node) : NodeSocket Node :=
  {| name := n;
     default_value := v;
     links := map (fun x => {| from_node := x |}) from;
     is_linked := match from with [] => false | _ => true end |}.

Definition out (n : string) (v : value) (linked : bool) : NodeSocket Node :=
  {| name := n; default_value := v; links := []; is_linked := linked |}.

Definition colour (r g b a : float) : value :=
  PyTuple [PyFloat r; PyFloat g; PyFloat b; PyFloat a].

Definition principled_node (metallic roughness alpha : float) : Node :=
  {| type := "BSDF_PRINCIPLED";
     is_active_output := false;
     inputs := [pin "Base Color" (colour 0.75 0.5 0.25 1) [];
                pin "Metallic" (PyFloat metallic) [];
                pin "Roughness" (PyFloat roughness) [];
                pin "Alpha" (PyFloat alpha) []];
     outputs := [out "BSDF" PyNone true] |}.

Definition output_node (surface : list Node) : Node :=
  {| type := "OUTPUT_MATERIAL";
     is_active_output := true;
     inputs := [pin "Surface" PyNone surface; pin "Volume" PyNone [];
                pin "Displacement" PyNone []];
     outputs := [] |}.

(** A mix shader with nothing linked into it. *)
Definition bare_mix_shader : Node :=
  {| type := "MIX_SHADER";
     is_active_output := false;
     inputs := [pin "Fac" (PyFloat 0.5) []; pin "Shader" PyNone []; pin "Shader" PyNone []];
     outputs := [out "Shader" PyNone true] |}.

Definition grey : Rgba := {| red := 0.5; green := 0.5; blue := 0.5; alpha := 1 |}.

Definition material (graph : list Node) : Material :=
  {| viewport_color := grey;
     nodes := graph;
     BIMStyleProperties := {| diffuse_color := PyTuple [PyFloat 1; PyFloat 1; PyFloat 1] |} |}.

(** A principled BSDF wired to the active output. *)
Definition principled_material : Material :=
  let bsdf := principled_node 0.5001 0.2004 0.8 in
  material [bsdf; output_node [bsdf]].

(** A mix shader that is not the flat pattern, wired to the active output. *)
Definition mix_material : Material := material [bare_mix_shader; output_node [bare_mix_shader]].

(** Only the active output node, with nothing linked. *)
Definition unlinked_material : Material := material [output_node []].

(** The empty node graph. *)
Definition empty_material : Material := material [].

(** A principled BSDF and no output node. *)
Definition headless_material : Material := material [principled_node 0 0.5 1].

(** The flat pattern: a mix shader driven by a light path, mixing a
    transparent BSDF with an RGB node. *)
Definition light_path : Node :=
  {| type := "LIGHT_PATH";
     is_active_output := false;
     inputs := [];
     outputs := [out "Is Camera Ray" PyNone true] |}.

Definition transparent_bsdf : Node :=
  {| type := "BSDF_TRANSPARENT";
     is_active_output := false;
     inputs := [pin "Color" (colour 1 1 1 1) []];
     outputs := [out "BSDF" PyNone true] |}.

Definition rgb_node : Node :=
  {| type := "RGB";
     is_active_output := false;
     inputs := [];
     outputs := [out "Color" (colour 0.25 0.5 0.75 1) true] |}.

Definition flat_mix_shader : Node :=
  {| type := "MIX_SHADER";
     is_active_output := false;
     inputs := [pin "Fac" (PyFloat 0.5) [light_path]; pin "Shader" PyNone [transparent_bsdf];
                pin "Shader" PyNone [rgb_node]];
     outputs := [out "Shader" PyNone true] |}.

Definition flat_material : Material :=
  material [light_path; transparent_bsdf; rgb_node; flat_mix_shader;
            output_node [flat_mix_shader]].

(** A modern document whose only root context is two-dimensional. *)
Definition plan_only : file :=
  {| schema := "IFC4";
     instances := [context 1 (PyInt 2) PyNone; map_conversion 2 1 3; crs 3] |}.

(** A mapping with a misspelt attribute name between two good ones. *)
Definition misspelt_origin : dict :=
  [("Eastings", PyFloat 1)] ++ ("Easting", PyFloat 2) :: [("Northings", PyFloat 3)].

Definition solid (i : nat) : entity_instance :=
  instance i "IfcExtrudedAreaSolid"
    [("SweptArea", PyNone); ("Position", PyNone); ("ExtrudedDirection", PyNone);
     ("Depth", PyFloat 3)].

(** A surface style made of two shading styles, a rendering style and an
    external style kept in a blend file, with two styled items that give
    it to a solid each. *)
Definition presentation_document : file :=
  {| schema := "IFC4";
     instances :=
       [instance 1 "IfcSurfaceStyle"
          [("Name", PyStr "Concrete"); ("Side", PyStr "BOTH");
           ("Styles", PyTuple [PyEntity 2; PyEntity 3; PyEntity 4; PyEntity 5])];
        instance 2 "IfcSurfaceStyleShading"
          [("SurfaceColour", PyNone); ("Transparency", PyFloat 0)];
        instance 3 "IfcSurfaceStyleRendering"
          [("SurfaceColour", PyNone); ("Transparency", PyFloat 0);
           ("ReflectanceMethod", PyStr "NOTDEFINED")];
        instance 4 "IfcSurfaceStyleShading"
          [("SurfaceColour", PyNone); ("Transparency", PyFloat 0.5)];
        instance 5 "IfcExternallyDefinedSurfaceStyle"
          [("Location", PyStr "library.blend"); ("Identification", PyStr "Material/Concrete");
           ("Name", PyStr "Concrete")];
        instance 6 "IfcStyledItem"
          [("Item", PyEntity 8); ("Styles", PyTuple [PyEntity 1]); ("Name", PyNone)];
        instance 7 "IfcStyledItem"
          [("Item", PyEntity 9); ("Styles", PyTuple [PyEntity 1]); ("Name", PyNone)];
        solid 8; solid 9] |}.

(** A Blender material linked to the style of [presentation_document]. *)
Definition linked_material : StyleQueries.MaterialProperties :=
  {| StyleQueries.ifc_style_id := 1 |}.

(** Date utilities that know no duration. *)
#[export] Instance no_date_utils : Sequence.DateUtils := {|
  Sequence.ifc2datetime := fun _ => Sequence.Returns Sequence.NoDuration
|}.

(** 360 days and nine and a half hours of work. *)
Definition schedule_duration : Sequence.ISODuration :=
  {| Sequence.name := "ScheduleDuration";
     Sequence.years := 0; Sequence.months := 0; Sequence.days := 360;
     Sequence.hours := 9; Sequence.minutes := 30; Sequence.seconds := 0 |}.

(** A legacy document with a 3-D context and a project. *)
Definition legacy_with_project : file :=
  {| schema := "IFC2X3";
     instances := [context 1 (PyInt 3) PyNone;
                   instance 2 "IfcProject" [("GlobalId", PyStr "0"); ("Name", PyStr "Site")]] |}.

(** A toolkit state in which every property set looked up is a dict with a
    name and no id. *)
Definition nameless_psets : PsetApi := {|
  create_typed := fun _ v => ret v;
  get_pset := fun _ _ _ => Some [("Name", PyStr "EPSG:7856")];
  edit_pset := fun _ _ => ret tt
|}.

(** A toolkit state in which every element carries one property set,
    Pset_ProjectCommon, and no other. *)
Definition common_psets : PsetApi := {|
  create_typed := fun _ v => ret v;
  get_pset := fun _ _ pset_name =>
                if String.eqb pset_name "Pset_ProjectCommon"
                then Some [("id", PyInt 7); ("Phase", PyStr "Design")]
                else None;
  edit_pset := fun _ _ => ret tt
|}.

End Samples.

(* ===================================================================== *)
(** * Properties of the georeferencing editor *)
(* ===================================================================== *)

Module GeoreferenceSpec.
Import Py Ifc Georeference GeoreferenceTerms.
Local Open Scope action_scope.

(** ** Reasoning about actions *)

Section Keeps.
Context (R : file -> file -> Prop).
#[local] Abbreviation keeps := (keeps R).
Hypothesis R_refl : forall f, R f f.
Hypothesis R_trans : forall f g h, R f g -> R g h -> R f h.

Lemma keeps_ret {A} (a : A) : keeps (ret a).
Proof. intros f. apply R_refl. Qed.

Lemma keeps_throw {A} e : keeps (@throw A e).
Proof. intros f. apply R_refl. Qed.

Lemma keeps_read {A} (q : file -> A) : keeps (read q).
Proof. intros f. apply R_refl. Qed.

Lemma keeps_lift {A} (r : result A) : keeps (lift r).
Proof. intros f. apply R_refl. Qed.

Lemma keeps_getattr i n : keeps (getattr i n).
Proof. intros f. apply R_refl. Qed.

Lemma keeps_first l : keeps (first l).
Proof. destruct l; [apply keeps_throw | apply keeps_ret]. Qed.

Lemma keeps_abind {A B} (m : action A) (k : A -> action B) :
  keeps m -> (forall a, keeps (k a)) -> keeps (abind m k).
Proof.
  intros Hm Hk f. unfold abind. specialize (Hm f).
  destruct (m f) as [[a|e] f1]; simpl in *; [|exact Hm].
  eapply R_trans; [exact Hm | apply Hk].
Qed.

Lemma keeps_for_each {A} (l : list A) (body : A -> action unit) :
  (forall x, keeps (body x)) -> keeps (for_each l body).
Proof.
  intros Hb. induction l as [|x l IH]; simpl.
  - apply keeps_ret.
  - apply keeps_abind; [apply Hb | intros _; exact IH].
Qed.

End Keeps.

(** ** The true-north step only adds directions *)

Lemma grows_refl f : grows f f.
Proof. split; [reflexivity|]. exists []. rewrite app_nil_r. split; [reflexivity | constructor]. Qed.

Lemma grows_trans f g h : grows f g -> grows g h -> grows f h.
Proof.
  intros [Hs1 (a1 & Hc1 & Ha1)] [Hs2 (a2 & Hc2 & Ha2)]. split; [congruence|].
  exists (a1 ++ a2). rewrite Hc2, Hc1, <- app_assoc. split; [reflexivity|].
  apply Forall_app; split; assumption.
Qed.

Lemma classes_update f i n v : classes (update f i (with_attr n v)) = classes f.
Proof.
  unfold classes, update; simpl. rewrite map_map. apply map_ext.
  intros e. unfold amend. destruct (has_id i e); reflexivity.
Qed.

Lemma grows_setattr i n v : keeps grows (setattr i n v).
Proof.
  intros f. unfold setattr. destruct (by_id f i) as [e|]; simpl; [|apply grows_refl].
  destruct (assoc n (attributes e)); simpl; [|apply grows_refl].
  split; [reflexivity|]. exists []. rewrite classes_update, app_nil_r.
  split; [reflexivity | constructor].
Qed.

Lemma grows_create_direction : keeps grows (create_entity "IfcDirection").
Proof.
  intros f. split; [reflexivity|]. simpl. exists [(fresh_id f, "IfcDirection")].
  unfold classes; simpl. rewrite map_app. split; [reflexivity|].
  constructor; [reflexivity | constructor].
Qed.

Ltac keeps_grows :=
  repeat first
    [ apply (keeps_abind grows grows_trans); [|intros ?]
    | apply (keeps_for_each grows grows_refl grows_trans); intros ?
    | apply (keeps_ret grows grows_refl)
    | apply (keeps_throw grows grows_refl)
    | apply (keeps_read grows grows_refl)
    | apply (keeps_lift grows grows_refl)
    | apply (keeps_getattr grows grows_refl)
    | apply grows_setattr
    | apply grows_create_direction ].

Lemma grows_set_context_true_north tn c : keeps grows (set_context_true_north tn c).
Proof.
  unfold set_context_true_north, ensure_own_direction, write_direction. keeps_grows.
  - destruct (truthy a); [destruct a|]; keeps_grows.
    destruct (negb _); keeps_grows.
  - destruct tn; keeps_grows; destruct a0; keeps_grows.
Qed.

Lemma grows_set_true_north s : keeps grows (set_true_north s).
Proof.
  unfold set_true_north. destruct (negb _).
  - apply (keeps_ret grows grows_refl).
  - apply (keeps_abind grows grows_trans); [apply (keeps_read grows grows_refl)|].
    intros cs. apply (keeps_for_each grows grows_refl grows_trans).
    intros c. apply grows_set_context_true_north.
Qed.

Lemma by_type_classes f cls sub :
  by_type f cls sub = map fst (List.filter (fun p => class_matches cls sub (snd p)) (classes f)).
Proof.
  unfold by_type, classes, type_matches. induction (instances f) as [|e l IH]; simpl; [reflexivity|].
  destruct (class_matches cls sub (is_a e)); simpl; rewrite IH; reflexivity.
Qed.

(** Lookups by a type that directions do not belong to are not affected. *)
Lemma by_type_grows f g cls sub :
  grows f g -> class_matches cls sub "IfcDirection" = false ->
  by_type g cls sub = by_type f cls sub.
Proof.
  intros [_ (added & Hc & Ha)] Hno. rewrite !by_type_classes, Hc, List.filter_app.
  assert (List.filter (fun p => class_matches cls sub (snd p)) added = []) as ->.
  { clear Hc. induction Ha as [|p l Hp _ IH]; simpl; [reflexivity|]. rewrite Hp, Hno. exact IH. }
  rewrite app_nil_r. reflexivity.
Qed.

(** ** The two schema paths *)

Lemma set_true_north_only_reads_true_north s s' :
  true_north s = true_north s' -> set_true_north s = set_true_north s'.
Proof. intros E. unfold set_true_north. rewrite E. reflexivity. Qed.

Lemma set_true_north_skipped s f :
  truthy (true_north s) = false -> set_true_north s f = (Ok tt, f).
Proof. intros E. unfold set_true_north. rewrite E. reflexivity. Qed.

Lemma settings_of_falsy co pc tn :
  truthy tn = false -> truthy (true_north (settings_of co pc tn)) = false.
Proof. intros E. simpl. rewrite E. reflexivity. Qed.

(** C1 (amended).  On a legacy (IFC2X3) document with no IfcProject,
    [edit_georeferencing] does exactly what the true-north step does: the
    result does not depend on the two mappings or on the property-set
    helpers, and the document is returned unchanged when [true_north] is
    empty or absent. *)
Theorem legacy_without_project_only_sets_true_north `{PsetApi}
    (f : file) (co pc : option dict) (tn : value) :
  schema f = "IFC2X3" ->
  by_type f "IfcProject" true = [] ->
  edit_georeferencing co pc tn f = set_true_north (settings_of None None tn) f
  /\ (truthy tn = false -> edit_georeferencing co pc tn f = (Ok tt, f)).
Proof.
  intros Hschema Hproject.
  assert (edit_georeferencing co pc tn f = set_true_north (settings_of None None tn) f) as E.
  { unfold edit_georeferencing. fold (settings_of co pc tn). unfold execute, abind.
    rewrite (set_true_north_only_reads_true_north (settings_of co pc tn) (settings_of None None tn))
      by reflexivity.
    pose proof (grows_set_true_north (settings_of None None tn) f) as G.
    destruct (set_true_north (settings_of None None tn) f) as [[[]|e] g]; [|reflexivity].
    simpl in G. unfold read. destruct G as [Gs Gc].
    assert (grows f g) as G by (split; assumption).
    rewrite Gs, Hschema. simpl. unfold edit_property_sets, abind, read.
    rewrite (by_type_grows f g "IfcProject" true G eq_refl), Hproject. reflexivity. }
  split; [exact E|]. intros Hfalsy. rewrite E.
  apply set_true_north_skipped, settings_of_falsy, Hfalsy.
Qed.

Lemma legacy_without_project_witness :
  edit_georeferencing (H := Samples.no_psets) None None Samples.north Samples.legacy_no_project
    = set_true_north (settings_of None None Samples.north) Samples.legacy_no_project
  /\ (truthy Samples.north = false ->
      edit_georeferencing (H := Samples.no_psets) None None Samples.north Samples.legacy_no_project
        = (Ok tt, Samples.legacy_no_project)).
Proof.
  apply (legacy_without_project_only_sets_true_north (H := Samples.no_psets)
           Samples.legacy_no_project None None Samples.north); reflexivity.
Defined.

(** C1 (as stated) fails: on a legacy document with a context and no
    IfcProject, a non-empty [true_north] creates an IfcDirection and points
    the context at it. *)
Lemma legacy_without_project_is_not_a_noop :
  schema Samples.legacy_no_project = "IFC2X3"
  /\ by_type Samples.legacy_no_project "IfcProject" true = []
  /\ edit_georeferencing (H := Samples.no_psets) None None Samples.north Samples.legacy_no_project
     = (Ok tt,
        {| schema := "IFC2X3";
           instances :=
             [Samples.context 1 (PyInt 3) (PyEntity 2);
              Samples.direction 2 (PyList [PyFloat 0; PyFloat 1; PyFloat 0])] |})
  /\ snd (edit_georeferencing (H := Samples.no_psets) None None Samples.north Samples.legacy_no_project)
     <> Samples.legacy_no_project.
Proof.
  repeat split; try reflexivity.
  intros E. apply (f_equal (fun f => length (instances f))) in E. discriminate E.
Qed.

(** C10.  On a document of a modern schema that lacks a coordinate
    operation or a projected CRS, [edit_georeferencing] raises, whatever the
    mappings hold; when the true-north step is skipped the exception is the
    IndexError of the first-element lookup and the document is untouched. *)
Theorem modern_schema_requires_both_entities `{PsetApi}
    (f : file) (co pc : option dict) (tn : value) :
  schema f <> "IFC2X3" ->
  by_type f "IfcCoordinateOperation" true = [] \/ by_type f "IfcProjectedCRS" true = [] ->
  (exists e, fst (edit_georeferencing co pc tn f) = Raise e)
  /\ (truthy tn = false -> edit_georeferencing co pc tn f = (Raise IndexError, f)).
Proof.
  intros Hschema Hmissing.
  assert (forall g, grows f g ->
            (version <- read schema ;;
             if String.eqb version "IFC2X3" then edit_property_sets (settings_of co pc tn)
             else edit_entities (settings_of co pc tn)) g = (Raise IndexError, g)) as Hrest.
  { intros g G. unfold abind, read.
    destruct G as [Gs Gc]. assert (grows f g) as G by (split; assumption).
    rewrite Gs. apply String.eqb_neq in Hschema. rewrite Hschema.
    unfold edit_entities, abind, read.
    rewrite (by_type_grows f g "IfcCoordinateOperation" true G eq_refl).
    destruct (by_type f "IfcCoordinateOperation" true) as [|op ops]; [reflexivity|].
    destruct Hmissing as [Hop|Hcrs]; [discriminate Hop|]. simpl.
    rewrite (by_type_grows f g "IfcProjectedCRS" true G eq_refl), Hcrs. reflexivity. }
  split.
  - unfold edit_georeferencing. fold (settings_of co pc tn). unfold execute.
    unfold abind at 1.
    pose proof (grows_set_true_north (settings_of co pc tn) f) as G.
    destruct (set_true_north (settings_of co pc tn) f) as [[[]|e] g]; simpl in G.
    + exists IndexError. rewrite (Hrest g G). reflexivity.
    + exists e. reflexivity.
  - intros Hfalsy. unfold edit_georeferencing. fold (settings_of co pc tn).
    unfold execute. unfold abind at 1.
    rewrite (set_true_north_skipped _ f (settings_of_falsy co pc tn Hfalsy)).
    exact (Hrest f (grows_refl f)).
Qed.

Lemma modern_schema_requires_both_entities_witness :
  (exists e, fst (edit_georeferencing (H := Samples.no_psets) (Some []) (Some []) PyNone Samples.modern_bare) = Raise e)
  /\ (truthy PyNone = false ->
      edit_georeferencing (H := Samples.no_psets) (Some []) (Some []) PyNone Samples.modern_bare
        = (Raise IndexError, Samples.modern_bare)).
Proof.
  apply (modern_schema_requires_both_entities (H := Samples.no_psets) Samples.modern_bare (Some []) (Some []) PyNone).
  - discriminate.
  - left. reflexivity.
Defined.

(** ** Lookups in a list of instances *)

Lemma find_has_id l i e : find (has_id i) l = Some e -> In e l /\ id e = i.
Proof.
  intros H. apply find_some in H. destruct H as [Hin Hid].
  split; [exact Hin | apply Nat.eqb_eq, Hid].
Qed.

Lemma distinct_NoDup l : distinct l = true -> List.NoDup l.
Proof.
  induction l as [|x l IH]; simpl; intros H; [constructor|].
  apply andb_prop in H. destruct H as [Hx Hl]. constructor; [|apply IH, Hl].
  intros Hin. apply negb_true_iff in Hx.
  assert (existsb (Nat.eqb x) l = true) as E.
  { apply existsb_exists. exists x. split; [exact Hin | apply Nat.eqb_refl]. }
  congruence.
Qed.

Lemma NoDup_distinct l : List.NoDup l -> distinct l = true.
Proof.
  induction 1 as [|x l Hx _ IH]; simpl; [reflexivity|].
  rewrite IH, andb_true_r. apply negb_true_iff.
  destruct (existsb (Nat.eqb x) l) eqn:E; [|reflexivity].
  apply existsb_exists in E. destruct E as (y & Hy & Exy).
  apply Nat.eqb_eq in Exy. subst y. contradiction.
Qed.

Lemma find_unique l e :
  List.NoDup (map id l) -> In e l -> find (has_id (id e)) l = Some e.
Proof.
  induction l as [|x l IH]; simpl; intros Hnd Hin; [contradiction|].
  inversion Hnd as [|? ? Hx Hl]; subst.
  destruct Hin as [->|Hin].
  - unfold has_id. rewrite Nat.eqb_refl. reflexivity.
  - unfold has_id at 1. destruct (Nat.eqb (id x) (id e)) eqn:E.
    + apply Nat.eqb_eq in E. exfalso. apply Hx. rewrite E. apply in_map, Hin.
    + apply IH; assumption.
Qed.

Lemma find_app_has_id l l' i :
  find (has_id i) (l ++ l') =
  match find (has_id i) l with
  | Some e => Some e
  | None => find (has_id i) l'
  end.
Proof.
  induction l as [|x l IH]; simpl; [reflexivity|].
  destruct (has_id i x); [reflexivity | exact IH].
Qed.

(** ** Updating one instance *)

#[local] Abbreviation touch i n v := (amend i (with_attr n v)).

Lemma update_instances f i n v :
  instances (update f i (with_attr n v)) = map (touch i n v) (instances f).
Proof. reflexivity. Qed.

Lemma id_touch i n v e : id (touch i n v e) = id e.
Proof. unfold amend. destruct (has_id i e); reflexivity. Qed.

Lemma is_a_touch i n v e : is_a (touch i n v e) = is_a e.
Proof. unfold amend. destruct (has_id i e); reflexivity. Qed.

Lemma map_id_touch i n v l : map id (map (touch i n v) l) = map id l.
Proof. rewrite map_map. apply map_ext. intros e. apply id_touch. Qed.

Lemma find_touch l i n v j :
  find (has_id j) (map (touch i n v) l) = option_map (touch i n v) (find (has_id j) l).
Proof.
  induction l as [|x l IH]; simpl; [reflexivity|].
  unfold has_id at 1. rewrite id_touch. fold (has_id j x).
  destruct (has_id j x); [reflexivity | exact IH].
Qed.

Lemma by_id_update f i n v j :
  by_id (update f i (with_attr n v)) j = option_map (touch i n v) (by_id f j).
Proof. unfold by_id. rewrite update_instances. apply find_touch. Qed.

Lemma by_id_update_other f i n v j e :
  i <> j -> by_id f j = Some e -> by_id (update f i (with_attr n v)) j = Some e.
Proof.
  intros Hne H. rewrite by_id_update, H. simpl. unfold amend.
  apply find_has_id in H. destruct H as [_ Hid]. unfold has_id.
  rewrite Hid. destruct (Nat.eqb j i) eqn:E; [|reflexivity].
  apply Nat.eqb_eq in E. congruence.
Qed.

Lemma by_id_update_none f i n v j :
  by_id f j = None -> by_id (update f i (with_attr n v)) j = None.
Proof. intros H. rewrite by_id_update, H. reflexivity. Qed.

Lemma by_id_update_same f i n v e :
  by_id f i = Some e -> by_id (update f i (with_attr n v)) i = Some (with_attr n v e).
Proof.
  intros H. rewrite by_id_update, H. simpl. unfold amend.
  apply find_has_id in H. destruct H as [_ Hid]. unfold has_id.
  rewrite Hid, Nat.eqb_refl. reflexivity.
Qed.

(** ** Attribute lists *)

Lemma assoc_set_same n v attrs w :
  assoc n attrs = Some w -> assoc n (assoc_set n v attrs) = Some v.
Proof.
  induction attrs as [|[k x] attrs IH]; simpl; [discriminate|].
  destruct (String.eqb k n) eqn:E; simpl; rewrite E; [reflexivity | exact IH].
Qed.

Lemma assoc_set_other n v attrs m :
  m <> n -> assoc m (assoc_set n v attrs) = assoc m attrs.
Proof.
  intros Hne. induction attrs as [|[k x] attrs IH]; simpl; [reflexivity|].
  destruct (String.eqb k n) eqn:E; simpl.
  - apply String.eqb_eq in E. subst k.
    destruct (String.eqb n m) eqn:E'; [apply String.eqb_eq in E'; congruence | reflexivity].
  - destruct (String.eqb k m); [reflexivity | exact IH].
Qed.

Lemma assoc_set_id n v attrs : assoc n attrs = Some v -> assoc_set n v attrs = attrs.
Proof.
  induction attrs as [|[k x] attrs IH]; simpl; [reflexivity|].
  destruct (String.eqb k n) eqn:E.
  - intros H. injection H as ->. reflexivity.
  - intros H. rewrite IH by exact H. reflexivity.
Qed.

(** ** References *)

Lemma mentions_no_refs x v : refs v = [] -> mentions x v = false.
Proof. unfold mentions. intros ->. reflexivity. Qed.

Lemma exists_assoc_set (P : value -> bool) n v attrs :
  existsb (fun kv => P (snd kv)) (assoc_set n v attrs) = true ->
  P v = true \/ existsb (fun kv => P (snd kv)) attrs = true.
Proof.
  induction attrs as [|[k w] attrs IH]; simpl; [discriminate|].
  destruct (String.eqb k n); simpl; intros H; apply orb_prop in H.
  - destruct H as [H|H]; [left; exact H | right; rewrite H; apply orb_true_r].
  - destruct H as [H|H]; [right; rewrite H; reflexivity|].
    destruct (IH H) as [H'|H']; [left; exact H' | right; rewrite H'; apply orb_true_r].
Qed.

Lemma exists_assoc_set_hit (P : value -> bool) n v attrs w :
  assoc n attrs = Some w -> P v = true ->
  existsb (fun kv => P (snd kv)) (assoc_set n v attrs) = true.
Proof.
  induction attrs as [|[k x] attrs IH]; simpl; [discriminate|].
  destruct (String.eqb k n); simpl; intros H Hv.
  - rewrite Hv. reflexivity.
  - rewrite (IH H Hv). apply orb_true_r.
Qed.

Lemma references_with_attr x n v e :
  references x (with_attr n v e) = true -> mentions x v = true \/ references x e = true.
Proof. unfold references. simpl. apply exists_assoc_set. Qed.

Lemma references_with_attr_quiet x n v e :
  mentions x v = false -> references x e = false -> references x (with_attr n v e) = false.
Proof.
  intros Hv He. destruct (references x (with_attr n v e)) eqn:E; [|reflexivity].
  destruct (references_with_attr _ _ _ _ E); congruence.
Qed.

Lemma mentions_entity x d : mentions x (PyEntity d) = Nat.eqb x d.
Proof. unfold mentions. simpl. apply orb_false_r. Qed.

Lemma references_attr n e d :
  assoc n (attributes e) = Some (PyEntity d) -> references d e = true.
Proof.
  unfold references. induction (attributes e) as [|[k w] attrs IH]; simpl; [discriminate|].
  destruct (String.eqb k n).
  - intros H. injection H as ->. rewrite mentions_entity, Nat.eqb_refl. reflexivity.
  - intros H. rewrite (IH H). apply orb_true_r.
Qed.

(** ** Resolution and fresh ids *)

Lemma resolves_by_id f i : resolves f i = true <-> exists e, by_id f i = Some e.
Proof.
  unfold resolves, by_id. split.
  - intros H. apply existsb_exists in H. destruct H as (e & Hin & He).
    destruct (find (has_id i) (instances f)) as [x|] eqn:E; [eauto|].
    pose proof (find_none _ _ E e Hin). congruence.
  - intros (e & H). apply find_some in H. apply existsb_exists. eauto.
Qed.

Lemma id_below_fresh f e : In e (instances f) -> id e < fresh_id f.
Proof.
  intros Hin. unfold fresh_id.
  assert (id e <= list_max (map id (instances f))); [|lia].
  pose proof (proj1 (list_max_le (map id (instances f)) _) (le_n _)) as H.
  rewrite List.Forall_forall in H. apply H. apply in_map, Hin.
Qed.

Lemma by_id_fresh f : by_id f (fresh_id f) = None.
Proof.
  destruct (by_id f (fresh_id f)) as [e|] eqn:E; [|reflexivity].
  apply find_has_id in E. destruct E as [Hin Hid].
  pose proof (id_below_fresh f e Hin). lia.
Qed.

Lemma by_id_below_fresh f i e : by_id f i = Some e -> i <> fresh_id f.
Proof. intros H E. subst i. rewrite by_id_fresh in H. discriminate H. Qed.

(** ** Adding an instance *)

Lemma by_id_add f e j :
  by_id (add f e) j =
  match by_id f j with
  | Some x => Some x
  | None => if has_id j e then Some e else None
  end.
Proof.
  unfold by_id, add. simpl. rewrite find_app_has_id.
  destruct (find (has_id j) (instances f)); [reflexivity|]. simpl.
  destruct (has_id j e); reflexivity.
Qed.

Lemma by_id_add_old f e j x : by_id f j = Some x -> by_id (add f e) j = Some x.
Proof. intros H. rewrite by_id_add, H. reflexivity. Qed.

Lemma get_inverse_add f e x :
  references x e = false -> get_inverse (add f e) x = get_inverse f x.
Proof.
  intros H. unfold get_inverse, add. simpl. rewrite List.filter_app. simpl.
  rewrite H. rewrite app_nil_r. reflexivity.
Qed.

(** ** Referrers under an update *)

Lemma get_inverse_update_quiet f i n v x :
  (forall e, In e (instances f) -> has_id i e = true -> references x e = false) ->
  mentions x v = false ->
  get_inverse (update f i (with_attr n v)) x = get_inverse f x.
Proof.
  intros Hquiet Hv. unfold get_inverse. rewrite update_instances.
  induction (instances f) as [|e l IH]; simpl; [reflexivity|].
  assert (references x (amend i (with_attr n v) e) = references x e) as ->.
  { unfold amend. destruct (has_id i e) eqn:E; [|reflexivity].
    rewrite (Hquiet e (or_introl eq_refl) E).
    apply references_with_attr_quiet; [exact Hv|]. apply Hquiet; [left; reflexivity | exact E]. }
  specialize (IH (fun e' He' => Hquiet e' (or_intror He'))).
  destruct (references x e); simpl; rewrite ?id_touch, IH; reflexivity.
Qed.

(** Two distinct referrers make at least two. *)
Lemma two_referrers f x e e' :
  In e (instances f) -> In e' (instances f) -> id e <> id e' ->
  references x e = true -> references x e' = true ->
  2 <= length (get_inverse f x).
Proof.
  unfold get_inverse. rewrite length_map.
  induction (instances f) as [|y l IH]; simpl; intros He He' Hne Hr Hr'; [contradiction|].
  assert (forall z, In z l -> references x z = true ->
                    1 <= length (List.filter (references x) l)) as Hone.
  { intros z Hz Hrz. assert (In z (List.filter (references x) l)) as Hin
      by (apply List.filter_In; split; assumption).
    destruct (List.filter (references x) l); [contradiction | simpl; lia]. }
  destruct He as [->|He], He' as [->|He'].
  - congruence.
  - rewrite Hr. simpl. pose proof (Hone e' He' Hr'). lia.
  - rewrite Hr'. simpl. pose proof (Hone e He Hr). lia.
  - pose proof (IH He He' Hne Hr Hr'). destruct (references x y); simpl; lia.
Qed.

(** The single referrer of a once-referred instance. *)
Lemma sole_referrer f x e e' :
  length (get_inverse f x) = 1 ->
  In e (instances f) -> references x e = true ->
  In e' (instances f) -> references x e' = true -> id e = id e'.
Proof.
  intros Hone He Hr He' Hr'. destruct (Nat.eq_dec (id e) (id e')) as [E|E]; [exact E|].
  pose proof (two_referrers f x e e' He He' E Hr Hr'). lia.
Qed.

(** ** Direction vectors *)

Lemma numbers_no_refs l : forallb is_number l = true -> flat_map refs l = [].
Proof.
  induction l as [|x l IH]; simpl; [reflexivity|]. intros H.
  apply andb_prop in H. destruct H as [Hx Hl]. rewrite (IH Hl).
  destruct x; try discriminate Hx; reflexivity.
Qed.

Lemma numbers_firstn k l : forallb is_number l = true -> forallb is_number (firstn k l) = true.
Proof.
  revert k. induction l as [|x l IH]; intros [|k]; simpl; try reflexivity.
  intros H. apply andb_prop in H. destruct H as [Hx Hl]. rewrite Hx, (IH k Hl). reflexivity.
Qed.

Lemma vector_ratios_no_refs tn dimension v :
  is_vector tn = true -> direction_ratios tn dimension = Ok v -> refs v = [].
Proof.
  unfold direction_ratios. intros Hv.
  destruct tn; try discriminate Hv; simpl in Hv; simpl;
    destruct (equals_two dimension); simpl; intros H; try discriminate H;
    injection H as <-; simpl.
  - apply numbers_no_refs, numbers_firstn, Hv.
  - rewrite flat_map_app. rewrite (numbers_no_refs _ (numbers_firstn 2 _ Hv)). reflexivity.
  - apply numbers_no_refs, numbers_firstn, Hv.
Qed.

(** ** Well-formedness, propositionally *)

Lemma closed_refs_spec f :
  closed_refs f = true <->
  (forall e x, In e (instances f) -> references x e = true -> resolves f x = true).
Proof.
  unfold closed_refs, references, mentions. split.
  - intros H e x He Hr. rewrite forallb_forall in H. specialize (H e He).
    rewrite forallb_forall in H. apply existsb_exists in Hr. destruct Hr as (kv & Hkv & Hx).
    specialize (H kv Hkv). rewrite forallb_forall in H.
    apply existsb_exists in Hx. destruct Hx as (y & Hy & Exy). apply Nat.eqb_eq in Exy. subst y.
    apply H, Hy.
  - intros H. apply forallb_forall. intros e He. apply forallb_forall. intros kv Hkv.
    apply forallb_forall. intros x Hx. apply (H e x He).
    apply existsb_exists. exists kv. split; [exact Hkv|].
    apply existsb_exists. exists x. split; [exact Hx | apply Nat.eqb_refl].
Qed.

Lemma true_north_typed_spec f :
  true_north_typed f = true <->
  (forall e d, In e (instances f) -> is_a e = context_class ->
     assoc "TrueNorth" (attributes e) = Some (PyEntity d) ->
     exists x, by_id f d = Some x /\ is_a x = direction_class).
Proof.
  unfold true_north_typed, points_at_direction. split.
  - intros H e d He Hc Htn. rewrite forallb_forall in H. specialize (H e He).
    rewrite Hc, String.eqb_refl, Htn in H. simpl in H.
    destruct (by_id f d) as [x|]; [|discriminate H].
    exists x. split; [reflexivity | apply String.eqb_eq, H].
  - intros H. apply forallb_forall. intros e He.
    destruct (String.eqb (is_a e) context_class) eqn:Ec; [|reflexivity]. simpl.
    apply String.eqb_eq in Ec.
    destruct (assoc "TrueNorth" (attributes e)) as [[]|] eqn:Etn; try reflexivity.
    destruct (H e _ He Ec Etn) as (x & -> & Hx). apply String.eqb_eq, Hx.
Qed.

Lemma well_formed_Wf f : well_formed f = true <-> Wf f.
Proof.
  unfold well_formed, unique_ids. split.
  - intros H. apply andb_prop in H. destruct H as [H Ht]. apply andb_prop in H.
    destruct H as [Hu Hc]. constructor.
    + apply distinct_NoDup, Hu.
    + apply closed_refs_spec, Hc.
    + apply true_north_typed_spec, Ht.
  - intros [Hu Hc Ht]. rewrite (NoDup_distinct _ Hu).
    rewrite (proj2 (closed_refs_spec f) Hc), (proj2 (true_north_typed_spec f) Ht). reflexivity.
Qed.

Lemma resolves_update f i n v x : resolves (update f i (with_attr n v)) x = resolves f x.
Proof.
  unfold resolves. rewrite update_instances. induction (instances f) as [|e l IH]; simpl; [reflexivity|].
  rewrite IH. unfold has_id at 1. rewrite id_touch. reflexivity.
Qed.

Lemma resolves_add f e x : resolves f x = true -> resolves (add f e) x = true.
Proof. unfold resolves, add. simpl. rewrite existsb_app. intros ->. reflexivity. Qed.

Lemma assoc_set_absent n v attrs : assoc n attrs = None -> assoc_set n v attrs = attrs.
Proof.
  induction attrs as [|[k x] attrs IH]; simpl; [reflexivity|].
  destruct (String.eqb k n); [discriminate|]. intros H. rewrite (IH H). reflexivity.
Qed.

Lemma by_id_in f e : List.NoDup (map id (instances f)) -> In e (instances f) -> by_id f (id e) = Some e.
Proof. apply find_unique. Qed.

Lemma Wf_update f i n v :
  Wf f ->
  (forall x, mentions x v = true -> resolves f x = true) ->
  (n = "TrueNorth" -> forall e d, by_id f i = Some e -> is_a e = context_class ->
     v = PyEntity d -> exists x, by_id f d = Some x /\ is_a x = direction_class) ->
  Wf (update f i (with_attr n v)).
Proof.
  intros [Hu Hc Ht] Hv Htn. constructor.
  - rewrite update_instances, map_id_touch. exact Hu.
  - intros e' x He' Hr. rewrite resolves_update. rewrite update_instances in He'.
    apply in_map_iff in He'. destruct He' as (e & <- & He). unfold amend in Hr.
    destruct (has_id i e); [|exact (Hc e x He Hr)].
    destruct (references_with_attr _ _ _ _ Hr) as [H|H]; [exact (Hv x H) | exact (Hc e x He H)].
  - intros e' d He' Hcls Hattr. rewrite update_instances in He'.
    apply in_map_iff in He'. destruct He' as (e & <- & He).
    rewrite is_a_touch in Hcls.
    assert (exists x, by_id f d = Some x /\ is_a x = direction_class) as (x & Hx & Hxc).
    { unfold amend in Hattr. destruct (has_id i e) eqn:Ei; [|exact (Ht e d He Hcls Hattr)].
      simpl in Hattr. destruct (String.eqb n "TrueNorth") eqn:En.
      - apply String.eqb_eq in En.
        destruct (assoc n (attributes e)) as [w|] eqn:Ew.
        + subst n. rewrite (assoc_set_same _ _ _ _ Ew) in Hattr. injection Hattr as ->.
          apply (Htn eq_refl e d); [|exact Hcls | reflexivity].
          apply Nat.eqb_eq in Ei. rewrite <- Ei. apply by_id_in; assumption.
        + rewrite (assoc_set_absent _ _ _ Ew) in Hattr. exact (Ht e d He Hcls Hattr).
      - apply String.eqb_neq in En. rewrite assoc_set_other in Hattr by congruence.
        exact (Ht e d He Hcls Hattr). }
    exists (amend i (with_attr n v) x). rewrite by_id_update, Hx. split; [reflexivity|].
    rewrite is_a_touch. exact Hxc.
Qed.

Lemma blank_direction_attributes i :
  attributes (blank i direction_class) = [("DirectionRatios", PyNone)].
Proof. reflexivity. Qed.

Lemma references_blank_direction x i : references x (blank i direction_class) = false.
Proof. reflexivity. Qed.

Lemma Wf_add_direction f : Wf f -> Wf (add f (blank (fresh_id f) direction_class)).
Proof.
  intros [Hu Hc Ht]. constructor.
  - unfold add. simpl. rewrite map_app. simpl. apply List.NoDup_app; [exact Hu| |].
    + constructor; [intros [] | constructor].
    + intros x Hx. apply in_map_iff in Hx. destruct Hx as (e & <- & He).
      intros [E|[]]. pose proof (id_below_fresh f e He). lia.
  - intros e x He Hr. unfold add in He. simpl in He. apply in_app_or in He.
    destruct He as [He|[<-|[]]].
    + apply resolves_add. exact (Hc e x He Hr).
    + rewrite references_blank_direction in Hr. discriminate Hr.
  - intros e d He Hcls Hattr. unfold add in He. simpl in He. apply in_app_or in He.
    destruct He as [He|[<-|[]]].
    + destruct (Ht e d He Hcls Hattr) as (x & Hx & Hxc). exists x.
      split; [apply by_id_add_old, Hx | exact Hxc].
    + discriminate Hcls.
Qed.

(** ** Evaluating the loop body *)

Lemma setattr_eval f i n v e w :
  by_id f i = Some e -> assoc n (attributes e) = Some w ->
  setattr i n v f = (Ok tt, update f i (with_attr n v)).
Proof. intros He Hw. unfold setattr. rewrite He, Hw. reflexivity. Qed.

Lemma ensure_eval f c ec :
  by_id f c = Some ec ->
  ensure_own_direction c f =
  match assoc "TrueNorth" (attributes ec) with
  | None => (Raise AttributeError, f)
  | Some old =>
      if truthy old then
        match old with
        | PyEntity d =>
            if Nat.eqb (length (get_inverse f d)) 1 then (Ok tt, f) else (Ok tt, repointed f c)
        | _ => (Raise TypeError, f)
        end
      else (Ok tt, repointed f c)
  end.
Proof.
  intros Hc. unfold ensure_own_direction, abind, getattr, attribute. rewrite Hc.
  destruct (assoc "TrueNorth" (attributes ec)) as [old|] eqn:Eold; [|reflexivity].
  assert ((fresh <- create_entity "IfcDirection" ;;
           setattr c "TrueNorth" (PyEntity fresh))%action f = (Ok tt, repointed f c)) as Hnew.
  { unfold abind, create_entity.
    apply (setattr_eval _ c _ _ ec old); [apply by_id_add_old, Hc | exact Eold]. }
  destruct (truthy old) eqn:Et; [|exact Hnew].
  destruct old as [| | | | | | | |d]; try reflexivity. unfold read.
  destruct (Nat.eqb (length (get_inverse f d)) 1); [reflexivity | exact Hnew].
Qed.

Lemma vector_cases tn :
  is_vector tn = true -> exists l, forallb is_number l = true /\ (tn = PyList l \/ tn = PyTuple l).
Proof. destruct tn; try discriminate; intros H; exists items; split; auto. Qed.

Lemma write_eval tn g c ec d :
  is_vector tn = true ->
  by_id g c = Some ec -> assoc "TrueNorth" (attributes ec) = Some (PyEntity d) ->
  write_direction tn c g =
  match assoc "CoordinateSpaceDimension" (attributes ec) with
  | None => (Raise AttributeError, g)
  | Some dimension =>
      match direction_ratios tn dimension with
      | Raise e => (Raise e, g)
      | Ok ratios =>
          match by_id g d with
          | None => (Raise RuntimeError, g)
          | Some ed =>
              match assoc "DirectionRatios" (attributes ed) with
              | None => (Raise Undeclared, g)
              | Some _ => (Ok tt, update g d (with_attr "DirectionRatios" ratios))
              end
          end
      end
  end.
Proof.
  intros Hv Hc Htn. destruct (vector_cases tn Hv) as (l & _ & [->| ->]);
    unfold write_direction, abind, getattr, attribute; rewrite Hc, Htn;
    (destruct (assoc "CoordinateSpaceDimension" (attributes ec)) as [dimension|]; [|reflexivity]);
    unfold lift; (destruct (direction_ratios _ dimension) as [ratios|e]; [|reflexivity]);
    unfold setattr; reflexivity.
Qed.

Lemma with_attr_id n v e : assoc n (attributes e) = Some v -> with_attr n v e = e.
Proof. intros H. destruct e as [i c attrs]. unfold with_attr. simpl in *. rewrite (assoc_set_id _ _ _ H). reflexivity. Qed.

Lemma update_noop f i n v e :
  List.NoDup (map id (instances f)) -> by_id f i = Some e ->
  assoc n (attributes e) = Some v -> update f i (with_attr n v) = f.
Proof.
  intros Hu He Hv. destruct f as [sch l]. unfold update. simpl in *. f_equal.
  rewrite <- (map_id l) at 2. apply map_ext_in. intros e' He'. unfold amend.
  destruct (has_id i e') eqn:E; [|reflexivity].
  apply Nat.eqb_eq in E. pose proof (find_unique l e' Hu He') as H.
  rewrite E in H. unfold by_id in He. simpl in He. rewrite He in H. injection H as <-.
  apply with_attr_id, Hv.
Qed.

(** A turn on a context at rest changes nothing. *)
Lemma at_rest_fixed tn f c o :
  List.NoDup (map id (instances f)) -> is_vector tn = true ->
  at_rest tn f c o -> set_context_true_north tn c f = (o, f).
Proof.
  intros Hu Hv (ec & Hc & Hrest). unfold set_context_true_north, abind.
  rewrite (ensure_eval f c ec Hc).
  destruct (assoc "TrueNorth" (attributes ec)) as [old|] eqn:Eold; [|subst o; reflexivity].
  destruct old as [| | | | | | | |d]; try (destruct Hrest as [-> ->]; reflexivity).
  destruct Hrest as [Hone Hrest]. simpl. rewrite Hone. simpl.
  rewrite (write_eval tn f c ec d Hv Hc Eold).
  destruct (assoc "CoordinateSpaceDimension" (attributes ec)) as [dimension|]; [|subst o; reflexivity].
  destruct (direction_ratios tn dimension) as [ratios|e]; [|subst o; reflexivity].
  destruct (by_id f d) as [ed|] eqn:Ed; [|subst o; reflexivity].
  destruct (assoc "DirectionRatios" (attributes ed)) as [current|] eqn:Ecur; [|subst o; reflexivity].
  destruct Hrest as [-> ->]. rewrite (update_noop f d _ _ ed Hu Ed Ecur). reflexivity.
Qed.

Lemma at_rest_local tn f g c o :
  at_rest tn f c o ->
  by_id g c = by_id f c ->
  (forall ec d, by_id f c = Some ec -> assoc "TrueNorth" (attributes ec) = Some (PyEntity d) ->
     length (get_inverse f d) = 1 ->
     length (get_inverse g d) = 1 /\ by_id g d = by_id f d) ->
  at_rest tn g c o.
Proof.
  intros (ec & Hc & Hrest) Hsame Hdir. exists ec. split; [congruence|].
  destruct (assoc "TrueNorth" (attributes ec)) as [old|] eqn:Eold; [|exact Hrest].
  destruct old as [| | | | | | | |d]; try exact Hrest. destruct Hrest as [Hone Hrest].
  destruct (Hdir ec d Hc Eold Hone) as [Hone' Hd]. split; [exact Hone'|].
  rewrite Hd. exact Hrest.
Qed.

(** Amending the one instance that then passes a filter. *)
Lemma filter_amend_none (P : entity_instance -> bool) c ch l :
  (forall e, In e l -> has_id c e = false) -> (forall e, In e l -> P e = false) ->
  List.filter P (map (amend c ch) l) = [].
Proof.
  induction l as [|z l IH]; simpl; intros Hid HP; [reflexivity|].
  assert (amend c ch z = z) as ->
    by (unfold amend; rewrite (Hid z (or_introl eq_refl)); reflexivity).
  rewrite (HP z (or_introl eq_refl)).
  apply IH; intros e He; [apply Hid | apply HP]; right; exact He.
Qed.

Lemma filter_amend_one (P : entity_instance -> bool) c ch l ec :
  List.NoDup (map id l) -> In ec l -> id ec = c ->
  (forall e, In e l -> P e = false) -> P (ch ec) = true ->
  List.filter P (map (amend c ch) l) = [ch ec].
Proof.
  intros Hu Hin Hid HP Hch. subst c.
  induction l as [|y l IH]; simpl; [contradiction|].
  inversion Hu as [|? ? Hy Hl]; subst.
  destruct Hin as [->|Hin].
  - assert (amend (id ec) ch ec = ch ec) as ->
      by (unfold amend, has_id; rewrite Nat.eqb_refl; reflexivity).
    rewrite Hch. f_equal. apply filter_amend_none.
    + intros e He. unfold has_id. apply Nat.eqb_neq. intros E. apply Hy. rewrite <- E.
      apply in_map, He.
    + intros e He. apply HP. right. exact He.
  - assert (has_id (id ec) y = false) as Hz.
    { unfold has_id. apply Nat.eqb_neq. intros E. apply Hy. rewrite E. apply in_map, Hin. }
    assert (amend (id ec) ch y = y) as -> by (unfold amend; rewrite Hz; reflexivity).
    rewrite (HP y (or_introl eq_refl)).
    apply IH; [exact Hl | exact Hin |]. intros e He. apply HP. right. exact He.
Qed.

(** ** The document after a new direction *)

Section Repointed.
Context (f : file) (c : nat) (ec : entity_instance) (old : value).
Hypothesis Hwf : Wf f.
Hypothesis Hc : by_id f c = Some ec.
Hypothesis Hold : assoc "TrueNorth" (attributes ec) = Some old.

#[local] Arguments fresh_id : simpl never.
Lemma fresh_is_not_context : c <> (fresh_id f).
Proof. exact (by_id_below_fresh f c ec Hc). Qed.

Lemma Wf_repointed : Wf (repointed f c).
Proof.
  unfold repointed. apply Wf_update.
  - apply Wf_add_direction, Hwf.
  - intros x Hx. rewrite mentions_entity in Hx. apply Nat.eqb_eq in Hx. subst x.
    apply resolves_by_id. exists (blank (fresh_id f) direction_class).
    rewrite by_id_add, by_id_fresh. unfold has_id. cbn [id blank]. rewrite Nat.eqb_refl. reflexivity.
  - intros _ e d He Hcls Hv. injection Hv as <-. exists (blank (fresh_id f) direction_class).
    split; [|reflexivity].
    rewrite by_id_add, by_id_fresh. unfold has_id. cbn [id blank]. rewrite Nat.eqb_refl. reflexivity.
Qed.

Lemma by_id_repointed_context :
  by_id (repointed f c) c = Some (with_attr "TrueNorth" (PyEntity (fresh_id f)) ec).
Proof. unfold repointed. apply by_id_update_same, by_id_add_old, Hc. Qed.

Lemma by_id_repointed_fresh :
  by_id (repointed f c) (fresh_id f) = Some (blank (fresh_id f) direction_class).
Proof.
  unfold repointed. apply by_id_update_other; [apply fresh_is_not_context|].
  rewrite by_id_add, by_id_fresh. unfold has_id. cbn [id blank]. rewrite Nat.eqb_refl. reflexivity.
Qed.

Lemma by_id_repointed_other j :
  j <> c -> j <> (fresh_id f) -> by_id (repointed f c) j = by_id f j.
Proof.
  intros Hj Hnew1. unfold repointed. rewrite by_id_update, by_id_add.
  destruct (by_id f j) as [e|] eqn:E.
  - simpl. unfold amend. apply find_has_id in E. destruct E as [_ Hid].
    unfold has_id. rewrite Hid. destruct (Nat.eqb j c) eqn:Ec; [|reflexivity].
    apply Nat.eqb_eq in Ec. contradiction.
  - unfold has_id. cbn [id blank]. destruct (Nat.eqb (fresh_id f) j) eqn:Ef; [|reflexivity].
    apply Nat.eqb_eq in Ef. congruence.
Qed.

Lemma references_unresolved e x :
  In e (instances f) -> resolves f x = false -> references x e = false.
Proof.
  intros He Hx. destruct (references x e) eqn:E; [|reflexivity].
  rewrite (wf_closed f Hwf e x He E) in Hx. discriminate Hx.
Qed.

Lemma fresh_unresolved : resolves f (fresh_id f) = false.
Proof.
  destruct (resolves f (fresh_id f)) eqn:E; [|reflexivity].
  apply resolves_by_id in E. destruct E as (e & He).
  rewrite by_id_fresh in He. discriminate He.
Qed.

Lemma sole_instance e : In e (instances f) -> has_id c e = true -> e = ec.
Proof.
  intros He Hid. apply Nat.eqb_eq in Hid.
  pose proof (by_id_in f e (wf_unique f Hwf) He) as H. rewrite Hid, Hc in H. congruence.
Qed.

(** The new direction has the context as its one referrer. *)
Lemma get_inverse_repointed_fresh : get_inverse (repointed f c) (fresh_id f) = [c].
Proof.
  unfold repointed. unfold get_inverse. rewrite update_instances. unfold add.
  cbn [instances]. rewrite map_app, List.filter_app. cbn [map List.filter].
  assert (amend c (with_attr "TrueNorth" (PyEntity (fresh_id f)))
            (blank (fresh_id f) direction_class)
          = blank (fresh_id f) direction_class) as ->.
  { unfold amend, has_id. cbn [id blank]. destruct (Nat.eqb (fresh_id f) c) eqn:E; [|reflexivity].
    apply Nat.eqb_eq in E. pose proof fresh_is_not_context. congruence. }
  rewrite references_blank_direction, app_nil_r.
  pose proof (find_has_id _ _ _ Hc) as [Hin Hid].
  rewrite (filter_amend_one _ c _ _ ec (wf_unique f Hwf) Hin Hid).
  - cbn [map with_attr id]. rewrite Hid. reflexivity.
  - intros e He. apply references_unresolved; [exact He | apply fresh_unresolved].
  - unfold references. cbn [attributes with_attr].
    apply (exists_assoc_set_hit _ _ _ _ old Hold).
    rewrite mentions_entity. apply Nat.eqb_refl.
Qed.

(** Referrers of an instance the context does not refer to are kept. *)
Lemma get_inverse_repointed_other x :
  x <> (fresh_id f) -> references x ec = false ->
  get_inverse (repointed f c) x = get_inverse f x.
Proof.
  intros Hx Hec. unfold repointed. rewrite get_inverse_update_quiet.
  - apply get_inverse_add. apply references_blank_direction.
  - intros e He Hid. unfold add in He. simpl in He. apply in_app_or in He.
    destruct He as [He|[<-|[]]]; [|apply references_blank_direction].
    rewrite (sole_instance e He Hid). exact Hec.
  - rewrite mentions_entity. apply Nat.eqb_neq. exact Hx.
Qed.

End Repointed.

(** ** The document after the ratios are written *)

Section Written.
Context (g : file) (d : nat) (ed : entity_instance) (v : value).
Hypothesis Hwf : Wf g.
Hypothesis Hd : by_id g d = Some ed.
Hypothesis Hv : refs v = [].

Lemma Wf_written : Wf (update g d (with_attr "DirectionRatios" v)).
Proof.
  apply Wf_update; [exact Hwf | |discriminate].
  intros x Hx. rewrite (mentions_no_refs x v Hv) in Hx. discriminate Hx.
Qed.

Lemma by_id_written_other j :
  j <> d -> by_id (update g d (with_attr "DirectionRatios" v)) j = by_id g j.
Proof.
  intros Hj. destruct (by_id g j) as [e|] eqn:E.
  - apply by_id_update_other; [congruence | exact E].
  - apply by_id_update_none, E.
Qed.

Lemma get_inverse_written x :
  references x ed = false ->
  get_inverse (update g d (with_attr "DirectionRatios" v)) x = get_inverse g x.
Proof.
  intros Hx. apply get_inverse_update_quiet; [|apply mentions_no_refs, Hv].
  intros e He Hid. apply Nat.eqb_eq in Hid.
  pose proof (by_id_in g e (wf_unique g Hwf) He) as H. rewrite Hid, Hd in H.
  injection H as <-. exact Hx.
Qed.

End Written.

Lemma context_is_no_direction e : is_a e = context_class -> is_a e = direction_class -> False.
Proof. intros H1 H2. rewrite H1 in H2. discriminate H2. Qed.

(** ** Contexts at rest stay at rest *)

Lemma rest_after_repoint tn f c ec old c' ec' o' :
  Wf f -> by_id f c = Some ec -> is_a ec = context_class ->
  assoc "TrueNorth" (attributes ec) = Some old ->
  c' <> c -> by_id f c' = Some ec' -> is_a ec' = context_class ->
  at_rest tn f c' o' -> at_rest tn (repointed f c) c' o'.
Proof.
  intros Hwf Hc Hcls Hold Hne Hc' Hcls' Hrest.
  pose proof (find_has_id _ _ _ Hc) as [Hin Hid].
  pose proof (find_has_id _ _ _ Hc') as [Hin' Hid'].
  apply (at_rest_local tn f _ c' o' Hrest).
  - apply by_id_repointed_other; [exact Hne | exact (by_id_below_fresh f c' ec' Hc')].
  - intros ec'' d' Hc'' Htn Hone. rewrite Hc' in Hc''. injection Hc'' as <-.
    pose proof (references_attr _ _ _ Htn) as Href.
    destruct (wf_typed f Hwf ec' d' Hin' Hcls' Htn) as (x & Hx & Hxcls).
    assert (references d' ec = false) as Hquiet.
    { destruct (references d' ec) eqn:E; [|reflexivity].
      pose proof (sole_referrer f d' ec ec' Hone Hin E Hin' Href). congruence. }
    rewrite (get_inverse_repointed_other f c ec Hwf Hc d'
               (by_id_below_fresh f d' x Hx) Hquiet).
    split; [exact Hone|]. apply by_id_repointed_other; [|exact (by_id_below_fresh f d' x Hx)].
    intros E. rewrite E, Hc in Hx. injection Hx as E'. rewrite <- E' in Hxcls.
    exact (context_is_no_direction ec Hcls Hxcls).
Qed.

Lemma rest_after_write tn g c ec d ed v c' ec' o' :
  Wf g -> by_id g c = Some ec ->
  assoc "TrueNorth" (attributes ec) = Some (PyEntity d) ->
  length (get_inverse g d) = 1 ->
  by_id g d = Some ed -> is_a ed = direction_class -> refs v = [] ->
  c' <> c -> by_id g c' = Some ec' -> is_a ec' = context_class ->
  at_rest tn g c' o' -> at_rest tn (update g d (with_attr "DirectionRatios" v)) c' o'.
Proof.
  intros Hwf Hc Htn Hone Hd Hdcls Hv Hne Hc' Hcls' Hrest.
  pose proof (find_has_id _ _ _ Hc) as [Hin Hid].
  pose proof (find_has_id _ _ _ Hc') as [Hin' Hid'].
  pose proof (find_has_id _ _ _ Hd) as [Hind Hidd].
  assert (c' <> d) as Hcd.
  { intros E. rewrite <- E, Hc' in Hd. injection Hd as E'. rewrite <- E' in Hdcls.
    exact (context_is_no_direction ec' Hcls' Hdcls). }
  apply (at_rest_local tn g _ c' o' Hrest).
  - apply by_id_written_other. exact Hcd.
  - intros ec'' d' Hc'' Htn' Hone'. rewrite Hc' in Hc''. injection Hc'' as <-.
    pose proof (references_attr _ _ _ Htn') as Href'.
    pose proof (references_attr _ _ _ Htn) as Href.
    assert (d' <> d) as Hdd.
    { intros E. rewrite E in Href'.
      pose proof (sole_referrer g d ec ec' Hone Hin Href Hin' Href'). congruence. }
    assert (references d' ed = false) as Hquiet.
    { destruct (references d' ed) eqn:E; [|reflexivity].
      pose proof (sole_referrer g d' ed ec' Hone' Hind E Hin' Href'). congruence. }
    rewrite (get_inverse_written g d ed v Hwf Hd Hv d' Hquiet).
    split; [exact Hone' | apply by_id_written_other; exact Hdd].
Qed.

(** ** What a turn of the loop does *)

Lemma write_spec tn g1 c ec d ed o g :
  Wf g1 -> is_vector tn = true ->
  by_id g1 c = Some ec -> is_a ec = context_class ->
  assoc "TrueNorth" (attributes ec) = Some (PyEntity d) ->
  length (get_inverse g1 d) = 1 ->
  by_id g1 d = Some ed -> is_a ed = direction_class ->
  write_direction tn c g1 = (o, g) ->
  Wf g
  /\ at_rest tn g c o
  /\ (forall c' ec' o', c' <> c -> by_id g1 c' = Some ec' -> is_a ec' = context_class ->
        at_rest tn g1 c' o' -> at_rest tn g c' o')
  /\ (forall j, j <> d -> by_id g j = by_id g1 j)
  /\ by_id g c = Some ec.
Proof.
  intros Hwf Hv Hc Hcls Htn Hone Hd Hdcls Hrun.
  rewrite (write_eval tn g1 c ec d Hv Hc Htn) in Hrun.
  assert (forall e, (Raise e : result unit, g1) = (o, g) ->
            match assoc "CoordinateSpaceDimension" (attributes ec) with
            | None => o = Raise AttributeError
            | Some dimension =>
                match direction_ratios tn dimension with
                | Raise e => o = Raise e
                | Ok ratios =>
                    match by_id g1 d with
                    | None => o = Raise RuntimeError
                    | Some ed =>
                        match assoc "DirectionRatios" (attributes ed) with
                        | None => o = Raise Undeclared
                        | Some current => current = ratios /\ o = Ok tt
                        end
                    end
                end
            end ->
            Wf g /\ at_rest tn g c o
            /\ (forall c' ec' o', c' <> c -> by_id g1 c' = Some ec' ->
                  is_a ec' = context_class -> at_rest tn g1 c' o' -> at_rest tn g c' o')
            /\ (forall j, j <> d -> by_id g j = by_id g1 j)
            /\ by_id g c = Some ec) as Hfail.
  { intros e E Hm. injection E as <- <-. split; [exact Hwf|]. split.
    - exists ec. split; [exact Hc|]. rewrite Htn. split; [exact Hone | exact Hm].
    - split; [intros; assumption|]. split; [reflexivity | exact Hc]. }
  destruct (assoc "CoordinateSpaceDimension" (attributes ec)) as [dimension|] eqn:Edim;
    [|apply (Hfail _ Hrun); injection Hrun as <- _; reflexivity].
  destruct (direction_ratios tn dimension) as [ratios|e] eqn:Eratios;
    [|apply (Hfail _ Hrun); injection Hrun as <- _; reflexivity].
  rewrite Hd in Hrun, Hfail.
  destruct (assoc "DirectionRatios" (attributes ed)) as [current|] eqn:Ecur;
    [|apply (Hfail _ Hrun); injection Hrun as <- _; reflexivity].
  clear Hfail. injection Hrun as <- <-.
  pose proof (vector_ratios_no_refs tn dimension ratios Hv Eratios) as Hrefs.
  pose proof (find_has_id _ _ _ Hc) as [Hin Hid].
  pose proof (find_has_id _ _ _ Hd) as [Hind Hidd].
  assert (c <> d) as Hcd.
  { intros E. rewrite <- E, Hc in Hd. injection Hd as E'. rewrite <- E' in Hdcls.
    exact (context_is_no_direction ec Hcls Hdcls). }
  split; [exact (Wf_written g1 d ratios Hwf Hrefs)|]. split; [|split; [|split]].
  - exists ec. split; [rewrite by_id_written_other by exact Hcd; exact Hc|].
    rewrite Htn. split.
    + rewrite (get_inverse_written g1 d ed ratios Hwf Hd Hrefs); [exact Hone|].
      destruct (references d ed) eqn:E; [|reflexivity].
      pose proof (references_attr _ _ _ Htn) as Href.
      pose proof (sole_referrer g1 d ec ed Hone Hin Href Hind E). congruence.
    + rewrite Edim, Eratios. rewrite (by_id_update_same g1 d _ _ ed Hd).
      cbn [attributes with_attr]. rewrite (assoc_set_same _ _ _ _ Ecur). split; reflexivity.
  - intros c' ec' o' Hne Hc' Hcls' Hrest.
    exact (rest_after_write tn g1 c ec d ed ratios c' ec' o'
             Hwf Hc Htn Hone Hd Hdcls Hrefs Hne Hc' Hcls' Hrest).
  - intros j Hj. apply by_id_written_other. exact Hj.
  - rewrite by_id_written_other by exact Hcd. exact Hc.
Qed.

Lemma step_spec tn f c ec o g :
  Wf f -> is_vector tn = true ->
  by_id f c = Some ec -> is_a ec = context_class ->
  set_context_true_north tn c f = (o, g) ->
  Wf g
  /\ at_rest tn g c o
  /\ (forall c' ec' o', c' <> c -> by_id f c' = Some ec' -> is_a ec' = context_class ->
        at_rest tn f c' o' -> at_rest tn g c' o')
  /\ (forall j e, j <> c -> by_id f j = Some e -> is_a e <> direction_class ->
        by_id g j = Some e)
  /\ (forall d ed, by_id f d = Some ed -> is_a ed = direction_class ->
        attribute f c "TrueNorth" <> Ok (PyEntity d) \/ length (get_inverse f d) <> 1 ->
        by_id g d = Some ed)
  /\ is_context g c.
Proof.
  intros Hwf Hv Hc Hcls Hrun.
  pose proof (find_has_id _ _ _ Hc) as [Hin Hid].
  unfold set_context_true_north, abind in Hrun. rewrite (ensure_eval f c ec Hc) in Hrun.
  assert (forall e, (Raise e : result unit, f) = (o, g) ->
            at_rest tn f c (Raise e) ->
            Wf g /\ at_rest tn g c o
            /\ (forall c' ec' o', c' <> c -> by_id f c' = Some ec' ->
                  is_a ec' = context_class -> at_rest tn f c' o' -> at_rest tn g c' o')
            /\ (forall j e, j <> c -> by_id f j = Some e -> is_a e <> direction_class ->
                  by_id g j = Some e)
            /\ (forall d ed, by_id f d = Some ed -> is_a ed = direction_class ->
                  attribute f c "TrueNorth" <> Ok (PyEntity d) \/ length (get_inverse f d) <> 1 ->
                  by_id g d = Some ed)
            /\ is_context g c) as Hfail.
  { intros e E Hrest. injection E as <- <-.
    split; [exact Hwf|]. split; [exact Hrest|]. split; [intros; assumption|].
    split; [intros; assumption|]. split; [intros; assumption|].
    exists ec. split; assumption. }
  (* a new direction *)
  assert (forall old, assoc "TrueNorth" (attributes ec) = Some old ->
            (old = PyEntity (fresh_id f) -> False) ->
            (forall d, old = PyEntity d -> length (get_inverse f d) <> 1) ->
            write_direction tn c (repointed f c) = (o, g) ->
            Wf g /\ at_rest tn g c o
            /\ (forall c' ec' o', c' <> c -> by_id f c' = Some ec' ->
                  is_a ec' = context_class -> at_rest tn f c' o' -> at_rest tn g c' o')
            /\ (forall j e, j <> c -> by_id f j = Some e -> is_a e <> direction_class ->
                  by_id g j = Some e)
            /\ (forall d ed, by_id f d = Some ed -> is_a ed = direction_class ->
                  attribute f c "TrueNorth" <> Ok (PyEntity d) \/ length (get_inverse f d) <> 1 ->
                  by_id g d = Some ed)
            /\ is_context g c) as Hnew.
  { intros old Hold _ _ Hwrite.
    pose proof (Wf_repointed f c Hwf) as Hwf1.
    pose proof (by_id_repointed_context f c ec Hc) as Hc1.
    pose proof (by_id_repointed_fresh f c ec Hc) as Hd1.
    assert (assoc "TrueNorth" (attributes (with_attr "TrueNorth" (PyEntity (fresh_id f)) ec))
            = Some (PyEntity (fresh_id f))) as Htn1
      by (cbn [attributes with_attr]; apply (assoc_set_same _ _ _ _ Hold)).
    assert (length (get_inverse (repointed f c) (fresh_id f)) = 1) as Hone1
      by (rewrite (get_inverse_repointed_fresh f c ec old Hwf Hc Hold); reflexivity).
    destruct (write_spec tn _ c _ (fresh_id f) _ o g Hwf1 Hv Hc1 Hcls Htn1 Hone1 Hd1 eq_refl Hwrite)
      as (Hwfg & Hrest & Hothers & Hframe & Hsame).
    split; [exact Hwfg|]. split; [exact Hrest|]. split; [|split; [|split]].
    - intros c' ec' o' Hne Hc' Hcls' Hrest'.
      apply (Hothers c' ec' o' Hne); [|exact Hcls'|].
      + rewrite by_id_repointed_other; [exact Hc' | exact Hne | exact (by_id_below_fresh f c' ec' Hc')].
      + exact (rest_after_repoint tn f c ec old c' ec' o' Hwf Hc Hcls Hold Hne Hc' Hcls' Hrest').
    - intros j e Hj He _. rewrite Hframe by exact (by_id_below_fresh f j e He).
      rewrite by_id_repointed_other; [exact He | exact Hj | exact (by_id_below_fresh f j e He)].
    - intros d ed Hd Hdcls _. rewrite Hframe by exact (by_id_below_fresh f d ed Hd).
      rewrite by_id_repointed_other; [exact Hd | | exact (by_id_below_fresh f d ed Hd)].
      intros E. rewrite E, Hc in Hd. injection Hd as E'. rewrite <- E' in Hdcls.
      exact (context_is_no_direction ec Hcls Hdcls).
    - eexists. split; [exact Hsame | exact Hcls]. }
  destruct (assoc "TrueNorth" (attributes ec)) as [old|] eqn:Eold.
  2: { apply (Hfail _ Hrun). exists ec. split; [exact Hc|]. rewrite Eold. reflexivity. }
  destruct (truthy old) eqn:Etruthy.
  2: { apply (Hnew old eq_refl); [intros ->; discriminate Etruthy
                                  | intros d ->; discriminate Etruthy | exact Hrun]. }
  destruct old as [| | | | | | | |d0];
    try (apply (Hfail _ Hrun); exists ec; split; [exact Hc|]; rewrite Eold; split;
         [exact Etruthy | reflexivity]).
  destruct (Nat.eqb (length (get_inverse f d0)) 1) eqn:Eone.
  2: { apply Nat.eqb_neq in Eone.
       destruct (wf_typed f Hwf ec d0 Hin Hcls Eold) as (x & Hx & _).
       apply (Hnew (PyEntity d0) eq_refl); [|intros d E; injection E as <-; exact Eone | exact Hrun].
       intros E. injection E as E. exact (by_id_below_fresh f d0 x Hx E). }
  apply Nat.eqb_eq in Eone.
  destruct (wf_typed f Hwf ec d0 Hin Hcls Eold) as (ed0 & Hd0 & Hd0cls).
  destruct (write_spec tn f c ec d0 ed0 o g Hwf Hv Hc Hcls Eold Eone Hd0 Hd0cls Hrun)
    as (Hwfg & Hrest & Hothers & Hframe & Hsame).
  split; [exact Hwfg|]. split; [exact Hrest|]. split; [exact Hothers|]. split; [|split].
  - intros j e Hj He Hne. rewrite Hframe; [exact He|].
    intros E. rewrite E, Hd0 in He. injection He as E'. rewrite <- E' in Hne. contradiction.
  - intros d ed Hd Hdcls Hshared. rewrite Hframe; [exact Hd|].
    intros E. rewrite E in Hshared, Hd. destruct Hshared as [H|H]; [|contradiction].
    apply H. unfold attribute. rewrite Hc, Eold. reflexivity.
  - exists ec. split; [exact Hsame | exact Hcls].
Qed.

(** ** The loop over the contexts *)

Lemma loop_spec tn cs : forall f o g,
  Wf f -> is_vector tn = true -> List.NoDup cs ->
  (forall c, In c cs -> is_context f c) ->
  for_each cs (set_context_true_north tn) f = (o, g) ->
  Wf g
  /\ for_each cs (set_context_true_north tn) g = (o, g)
  /\ (forall c' ec' o', ~ In c' cs -> by_id f c' = Some ec' -> is_a ec' = context_class ->
        at_rest tn f c' o' -> at_rest tn g c' o')
  /\ (forall j e, ~ In j cs -> by_id f j = Some e -> is_a e <> direction_class ->
        by_id g j = Some e)
  /\ (o = Ok tt -> forall c, In c cs -> at_rest tn g c (Ok tt))
  /\ (forall c, In c cs -> is_context g c).
Proof.
  induction cs as [|c cs IH]; intros f o g Hwf Hv Hnd Hctx Hrun.
  - injection Hrun as <- <-. split; [exact Hwf|]. split; [reflexivity|].
    split; [intros; assumption|]. split; [intros; assumption|].
    split; [intros _ c [] | intros c []].
  - inversion Hnd as [|? ? Hc_fresh Hnd']; subst.
    destruct (Hctx c (or_introl eq_refl)) as (ec & Hc & Hcls).
    cbn [for_each] in Hrun. unfold abind in Hrun.
    destruct (set_context_true_north tn c f) as [o1 g1] eqn:Estep.
    destruct (step_spec tn f c ec o1 g1 Hwf Hv Hc Hcls Estep)
      as (Hwf1 & Hrest1 & Hothers1 & Hframe1 & _ & Hctx1).
    assert (forall c', In c' cs -> is_context g1 c') as Hctxs1.
    { intros c' Hc'. destruct (Hctx c' (or_intror Hc')) as (ec' & Hec' & Hcls').
      exists ec'. split; [|exact Hcls'].
      apply Hframe1; [intros E; subst c'; contradiction | exact Hec' |].
      intros E. exact (context_is_no_direction ec' Hcls' E). }
    destruct o1 as [[]|e].
    + destruct (IH g1 o g Hwf1 Hv Hnd' Hctxs1 Hrun)
        as (Hwfg & Hagain & Hothers & Hframe & Hall & Hctxg).
      destruct Hctx1 as (ec1 & Hc1 & Hcls1).
      pose proof (Hothers c ec1 (Ok tt) Hc_fresh Hc1 Hcls1 Hrest1) as Hrestg.
      split; [exact Hwfg|]. split; [|split; [|split; [|split]]].
      * cbn [for_each]. unfold abind.
        rewrite (at_rest_fixed tn g c (Ok tt) (wf_unique g Hwfg) Hv Hrestg). exact Hagain.
      * intros c' ec' o' Hnin Hc' Hcls' Hrest'.
        assert (c' <> c) as Hne by (intros E; apply Hnin; left; congruence).
        assert (~ In c' cs) as Hnin' by (intros H; apply Hnin; right; exact H).
        pose proof (Hothers1 c' ec' o' Hne Hc' Hcls' Hrest') as Hrest1'.
        apply (Hothers c' ec' o' Hnin'); [|exact Hcls' | exact Hrest1'].
        apply Hframe1; [exact Hne | exact Hc' |].
        intros E. exact (context_is_no_direction ec' Hcls' E).
      * intros j e Hnin Hj Hne.
        apply Hframe; [intros H; apply Hnin; right; exact H | | exact Hne].
        apply Hframe1; [intros E; apply Hnin; left; congruence | exact Hj | exact Hne].
      * intros Ho c' [<-|Hc']; [exact Hrestg | exact (Hall Ho c' Hc')].
      * intros c' [<-|Hc']; [|exact (Hctxg c' Hc')].
        destruct Hrestg as (ecg & Hcg & _). exists ecg. split; [exact Hcg|].
        pose proof (Hframe c ec1 Hc_fresh Hc1
                      (fun E => context_is_no_direction ec1 Hcls1 E)) as H.
        rewrite H in Hcg. injection Hcg as <-. exact Hcls1.
    + injection Hrun as <- <-.
      split; [exact Hwf1|]. split; [|split; [|split; [|split]]].
      * cbn [for_each]. unfold abind.
        rewrite (at_rest_fixed tn g1 c (Raise e) (wf_unique g1 Hwf1) Hv Hrest1). reflexivity.
      * intros c' ec' o' Hnin Hc' Hcls' Hrest'.
        apply (Hothers1 c' ec' o'); [intros E; apply Hnin; left; congruence | assumption..].
      * intros j x Hnin Hj Hne.
        apply Hframe1; [intros E; apply Hnin; left; congruence | exact Hj | exact Hne].
      * discriminate.
      * intros c' [<-|Hc']; [exact Hctx1 | exact (Hctxs1 c' Hc')].
Qed.

(** ** The true-north step as a whole *)

Lemma context_of_by_type f c :
  List.NoDup (map id (instances f)) -> In c (contexts f) -> is_context f c.
Proof.
  intros Hu Hc. unfold contexts, by_type in Hc. apply in_map_iff in Hc.
  destruct Hc as (e & <- & He). apply List.filter_In in He. destruct He as [He Hm].
  exists e. split; [apply by_id_in; assumption|].
  unfold type_matches, class_matches in Hm. apply String.eqb_eq, Hm.
Qed.

Lemma NoDup_map_filter (p : entity_instance -> bool) l :
  List.NoDup (map id l) -> List.NoDup (map id (List.filter p l)).
Proof.
  induction l as [|x l IH]; simpl; intros H; [constructor|].
  inversion H as [|? ? Hx Hl]; subst. destruct (p x); simpl; [|apply IH, Hl].
  constructor; [|apply IH, Hl]. intros Hin. apply Hx.
  apply in_map_iff in Hin. destruct Hin as (y & Hy & Hin). apply List.filter_In in Hin.
  rewrite <- Hy. apply in_map. apply Hin.
Qed.

Lemma NoDup_contexts f : List.NoDup (map id (instances f)) -> List.NoDup (contexts f).
Proof. apply NoDup_map_filter. Qed.

Lemma loop_at_rest tn cs h :
  List.NoDup (map id (instances h)) -> is_vector tn = true ->
  (forall c, In c cs -> at_rest tn h c (Ok tt)) ->
  for_each cs (set_context_true_north tn) h = (Ok tt, h).
Proof.
  intros Hu Hv. induction cs as [|c cs IH]; intros Hall; [reflexivity|].
  cbn [for_each]. unfold abind.
  rewrite (at_rest_fixed tn h c (Ok tt) Hu Hv (Hall c (or_introl eq_refl))).
  apply IH. intros c' Hc'. apply Hall. right. exact Hc'.
Qed.

Lemma set_true_north_spec s f o g :
  Wf f -> is_vector (true_north s) = true ->
  set_true_north s f = (o, g) ->
  Wf g
  /\ set_true_north s g = (o, g)
  /\ contexts g = contexts f
  /\ grows f g
  /\ (forall j e, by_id f j = Some e -> is_a e <> context_class -> is_a e <> direction_class ->
        by_id g j = Some e)
  /\ (truthy (true_north s) = true -> o = Ok tt ->
        forall c, In c (contexts f) -> at_rest (true_north s) g c (Ok tt)).
Proof.
  intros Hwf Hv Hrun.
  pose proof (grows_set_true_north s f) as Hgrows. rewrite Hrun in Hgrows. simpl in Hgrows.
  assert (contexts g = contexts f) as Hctx by (apply (by_type_grows f g); [exact Hgrows | reflexivity]).
  unfold set_true_north in *. destruct (truthy (true_north s)) eqn:Et; simpl in *.
  - unfold abind, read in *.
    change (by_type f "IfcGeometricRepresentationContext" false) with (contexts f) in Hrun.
    change (by_type g "IfcGeometricRepresentationContext" false) with (contexts g).
    rewrite Hctx.
    destruct (loop_spec (true_north s) (contexts f) f o g Hwf Hv
                (NoDup_contexts f (wf_unique f Hwf))
                (fun c => context_of_by_type f c (wf_unique f Hwf)) Hrun)
      as (Hwfg & Hagain & _ & Hframe & Hall & _).
    split; [exact Hwfg|]. split; [exact Hagain|]. split; [reflexivity|].
    split; [exact Hgrows|]. split; [|intros _; exact Hall].
    intros j e Hj Hne1 Hne2. apply Hframe; [|exact Hj | exact Hne2].
    intros Hin. destruct (context_of_by_type f j (wf_unique f Hwf) Hin) as (e' & He' & Hcls').
    rewrite Hj in He'. injection He' as <-. contradiction.
  - injection Hrun as <- <-. split; [exact Hwf|]. split; [reflexivity|]. split; [reflexivity|].
    split; [exact Hgrows|]. split; [intros; assumption | discriminate].
Qed.

(** ** Leaving the contexts and directions alone *)

Lemma untouched_refl f : Wf f -> untouched f f.
Proof.
  intros Hwf. repeat split; try reflexivity; [intros; assumption|].
  apply well_formed_Wf, Hwf.
Qed.

Lemma untouched_trans f g h : untouched f g -> untouched g h -> untouched f h.
Proof.
  intros (H1 & H2 & H3 & H4 & H5) (K1 & K2 & K3 & K4 & K5).
  split; [|split; [|split; [|split]]].
  - intros i e Hi Hcls. apply K1; [apply H1; assumption | exact Hcls].
  - congruence.
  - congruence.
  - intros c ec d Hc Hcls Htn Hone.
    pose proof (H4 c ec d Hc Hcls Htn Hone) as E. rewrite <- E.
    apply (K4 c ec d); [apply H1; [exact Hc | left; exact Hcls] | exact Hcls | exact Htn |].
    rewrite E. exact Hone.
  - exact K5.
Qed.

Lemma untouched_at_rest tn f g c o :
  Wf f -> untouched f g -> is_context f c -> at_rest tn f c o -> at_rest tn g c o.
Proof.
  intros Hwf (H1 & _ & _ & H4 & _) (ec & Hc & Hcls) Hrest.
  pose proof (find_has_id _ _ _ Hc) as [Hin _].
  apply (at_rest_local tn f g c o Hrest).
  - rewrite Hc. apply H1; [exact Hc | left; exact Hcls].
  - intros ec' d Hc' Htn Hone. rewrite Hc in Hc'. injection Hc' as <-.
    destruct (wf_typed f Hwf ec d Hin Hcls Htn) as (x & Hx & Hxcls).
    rewrite (H4 c ec d Hc Hcls Htn Hone). split; [exact Hone|].
    rewrite Hx. apply H1; [exact Hx | right; exact Hxcls].
Qed.

Lemma untouched_context f g c : untouched f g -> is_context f c -> is_context g c.
Proof.
  intros (H1 & _) (ec & Hc & Hcls). exists ec. split; [|exact Hcls].
  apply H1; [exact Hc | left; exact Hcls].
Qed.

(** ** Lookups by type *)

Lemma in_by_type f cls sub i :
  List.NoDup (map id (instances f)) -> In i (by_type f cls sub) ->
  exists e, by_id f i = Some e /\ class_matches cls sub (is_a e) = true.
Proof.
  intros Hu Hi. unfold by_type in Hi. apply in_map_iff in Hi.
  destruct Hi as (e & <- & He). apply List.filter_In in He. destruct He as [He Hm].
  exists e. split; [apply by_id_in; assumption | exact Hm].
Qed.

Lemma avoids_spec f d : avoids_directions f d = true -> Avoids f d.
Proof.
  unfold avoids_directions, Avoids, mentions. intros H kv x Hkv Hx.
  rewrite forallb_forall in H. specialize (H kv Hkv). rewrite forallb_forall in H.
  apply existsb_exists in Hx. destruct Hx as (y & Hy & Exy). apply Nat.eqb_eq in Exy. subst y.
  specialize (H x Hy). destruct (by_id f x) as [e|]; [|discriminate H].
  exists e. split; [reflexivity|]. intros E. unfold direction_class in *.
  rewrite E in H. discriminate H.
Qed.

Lemma same_classes_refl f : same_classes f f.
Proof. intros x y H. exists y. split; [exact H | reflexivity]. Qed.

Lemma same_classes_trans f g h : same_classes f g -> same_classes g h -> same_classes f h.
Proof.
  intros H K x y Hy. destruct (H x y Hy) as (y' & Hy' & E).
  destruct (K x y' Hy') as (y'' & Hy'' & E'). exists y''. split; [exact Hy'' | congruence].
Qed.

Lemma same_classes_update f i n v : same_classes f (update f i (with_attr n v)).
Proof.
  intros x y Hy. exists (amend i (with_attr n v) y). rewrite by_id_update, Hy.
  split; [reflexivity | apply is_a_touch].
Qed.

Lemma same_classes_grows f g :
  grows f g -> List.NoDup (map id (instances g)) -> same_classes f g.
Proof.
  intros [_ (added & Hc & _)] Hu x y Hy. apply find_has_id in Hy. destruct Hy as [Hin Hid].
  assert (In (x, is_a y) (classes g)) as H.
  { rewrite Hc. apply in_or_app. left. unfold classes. apply in_map_iff.
    exists y. split; [rewrite Hid; reflexivity | exact Hin]. }
  unfold classes in H. apply in_map_iff in H. destruct H as (y' & E & Hin').
  injection E as E1 E2. exists y'. split; [|exact E2].
  rewrite <- E1. apply by_id_in; assumption.
Qed.

Lemma Avoids_same_classes f g d : same_classes f g -> Avoids f d -> Avoids g d.
Proof.
  intros H Ha kv x Hkv Hx. destruct (Ha kv x Hkv Hx) as (y & Hy & Hne).
  destruct (H x y Hy) as (y' & Hy' & E). exists y'. split; [exact Hy' | congruence].
Qed.

(** ** Assignments outside the contexts and directions *)

Lemma setattr_outside g i e n v :
  Wf g -> by_id g i = Some e ->
  is_a e <> context_class -> is_a e <> direction_class ->
  (forall x, mentions x v = true -> exists y, by_id g x = Some y /\ is_a y <> direction_class) ->
  untouched g (update g i (with_attr n v)).
Proof.
  intros Hwf Hi Hnc Hnd Hq.
  pose proof (find_has_id _ _ _ Hi) as [Hin Hid].
  split; [|split; [|split; [|split]]].
  - intros j ej Hj Hcls. apply by_id_update_other; [|exact Hj].
    intros E. rewrite E, Hj in Hi. injection Hi as ->. destruct Hcls; contradiction.
  - rewrite !by_type_classes, classes_update. reflexivity.
  - rewrite !by_type_classes, classes_update. reflexivity.
  - intros c ec d Hc Hcls Htn Hone.
    pose proof (find_has_id _ _ _ Hc) as [Hinc Hidc].
    apply get_inverse_update_quiet.
    + intros e' He' Hid'. apply Nat.eqb_eq in Hid'.
      pose proof (by_id_in g e' (wf_unique g Hwf) He') as H. rewrite Hid', Hi in H.
      injection H as <-. destruct (references d e) eqn:E; [|reflexivity].
      pose proof (sole_referrer g d e ec Hone Hin E Hinc (references_attr _ _ _ Htn)) as Eid.
      rewrite Hid, Hidc in Eid. rewrite Eid, Hc in Hi. injection Hi as ->. contradiction.
    + destruct (mentions d v) eqn:E; [|reflexivity].
      destruct (Hq d E) as (y & Hy & Hne).
      destruct (wf_typed g Hwf ec d Hinc Hcls Htn) as (x & Hx & Hxcls).
      rewrite Hy in Hx. injection Hx as ->. contradiction.
  - apply well_formed_Wf, Wf_update; [exact Hwf | |].
    + intros x Hx. apply resolves_by_id. destruct (Hq x Hx) as (y & Hy & _). eauto.
    + intros _ e' d He' Hcls'. rewrite Hi in He'. injection He' as <-. contradiction.
Qed.

Lemma untouched_Wf f g : untouched f g -> Wf g.
Proof. intros (_ & _ & _ & _ & H). apply well_formed_Wf, H. Qed.

Lemma setattrs_untouched i : forall d g e o h,
  Wf g -> by_id g i = Some e ->
  is_a e <> context_class -> is_a e <> direction_class -> Avoids g d ->
  for_each d (fun kv => setattr i (fst kv) (snd kv)) g = (o, h) ->
  untouched g h /\ same_classes g h.
Proof.
  induction d as [|kv d IH]; intros g e o h Hwf Hi Hnc Hnd Ha Hrun.
  - injection Hrun as <- <-. split; [apply untouched_refl, Hwf | apply same_classes_refl].
  - cbn [for_each] in Hrun. unfold abind in Hrun. unfold setattr at 1 in Hrun.
    rewrite Hi in Hrun.
    destruct (assoc (fst kv) (attributes e)) as [w|] eqn:Ew.
    2: { injection Hrun as <- <-. split; [apply untouched_refl, Hwf | apply same_classes_refl]. }
    pose proof (setattr_outside g i e (fst kv) (snd kv) Hwf Hi Hnc Hnd
                  (fun x Hx => Ha kv x (or_introl eq_refl) Hx)) as Hstep.
    pose proof (same_classes_update g i (fst kv) (snd kv)) as Hsame.
    destruct (IH _ (with_attr (fst kv) (snd kv) e) o h (untouched_Wf _ _ Hstep)
                (by_id_update_same g i _ _ e Hi) Hnc Hnd) as [Hrest Hsame'].
    + apply (Avoids_same_classes g); [exact Hsame|].
      intros kv' x Hkv' Hx. exact (Ha kv' x (or_intror Hkv') Hx).
    + exact Hrun.
    + split; [exact (untouched_trans _ _ _ Hstep Hrest) | exact (same_classes_trans _ _ _ Hsame Hsame')].
Qed.

(** Coordinate operations and projected CRS are neither contexts nor
    directions, and nothing is both. *)
Lemma operation_is_outside c :
  subclass c "IfcCoordinateOperation" = true ->
  c <> context_class /\ c <> direction_class /\ subclass c "IfcProjectedCRS" = false.
Proof.
  intros H. split; [|split].
  - intros E. rewrite E in H. discriminate H.
  - intros E. rewrite E in H. discriminate H.
  - unfold subclass, supertypes in *.
    repeat match goal with
    | |- context [String.eqb c ?s] =>
        let E := fresh "E" in destruct (String.eqb c s) eqn:E;
        [apply String.eqb_eq in E; subst c; try reflexivity; try discriminate H|]
    end; try reflexivity; try discriminate H.
Qed.

Lemma crs_is_outside c :
  subclass c "IfcProjectedCRS" = true -> c <> context_class /\ c <> direction_class.
Proof.
  intros H. split; intros E; rewrite E in H; discriminate H.
Qed.

(** ** The modern branch *)

Lemma edit_entities_eval s g :
  edit_entities s g =
  match by_type g "IfcCoordinateOperation" true with
  | [] => (Raise IndexError, g)
  | operation :: _ =>
      match by_type g "IfcProjectedCRS" true with
      | [] => (Raise IndexError, g)
      | crs :: _ =>
          (for_each (coordinate_operation s) (fun kv => setattr operation (fst kv) (snd kv)) ;;;
           for_each (projected_crs s) (fun kv => setattr crs (fst kv) (snd kv))) g
      end
  end.
Proof.
  unfold edit_entities, abind, read.
  destruct (by_type g "IfcCoordinateOperation" true) as [|operation ?]; [reflexivity|]. simpl.
  destruct (by_type g "IfcProjectedCRS" true) as [|crs ?]; reflexivity.
Qed.

Lemma edit_entities_untouched s g o h :
  Wf g -> Avoids g (coordinate_operation s) -> Avoids g (projected_crs s) ->
  edit_entities s g = (o, h) -> untouched g h.
Proof.
  intros Hwf Hco Hpc Hrun. rewrite edit_entities_eval in Hrun.
  destruct (by_type g "IfcCoordinateOperation" true) as [|operation ops] eqn:Eops.
  { injection Hrun as <- <-. apply untouched_refl, Hwf. }
  destruct (by_type g "IfcProjectedCRS" true) as [|crs crss] eqn:Ecrss.
  { injection Hrun as <- <-. apply untouched_refl, Hwf. }
  destruct (in_by_type g "IfcCoordinateOperation" true operation (wf_unique g Hwf))
    as (eo & Heo & Hko); [rewrite Eops; left; reflexivity|].
  destruct (in_by_type g "IfcProjectedCRS" true crs (wf_unique g Hwf))
    as (ecrs & Hecrs & Hkc); [rewrite Ecrss; left; reflexivity|].
  simpl in Hko, Hkc.
  destruct (operation_is_outside _ Hko) as (Ho1 & Ho2 & _).
  destruct (crs_is_outside _ Hkc) as (Hc1 & Hc2).
  unfold abind in Hrun.
  destruct (for_each (coordinate_operation s) _ g) as [o1 g1] eqn:E1.
  destruct (setattrs_untouched operation _ g eo o1 g1 Hwf Heo Ho1 Ho2 Hco E1) as [Hu1 Hs1].
  destruct o1 as [[]|e]; [|injection Hrun as <- <-; exact Hu1].
  destruct (Hs1 crs ecrs Hecrs) as (ecrs' & Hecrs' & Ecls).
  rewrite <- Ecls in Hc1, Hc2.
  destruct (setattrs_untouched crs _ g1 ecrs' o h (untouched_Wf _ _ Hu1) Hecrs' Hc1 Hc2
              (Avoids_same_classes g g1 _ Hs1 Hpc) Hrun) as [Hu2 _].
  exact (untouched_trans _ _ _ Hu1 Hu2).
Qed.

Lemma classes_kept_setattr i n v : keeps classes_kept (setattr i n v).
Proof.
  intros f. unfold setattr, classes_kept. destruct (by_id f i) as [e|]; simpl; [|reflexivity].
  destruct (assoc n (attributes e)); simpl; [apply classes_update | reflexivity].
Qed.

Lemma classes_kept_trans f g h : classes_kept f g -> classes_kept g h -> classes_kept f h.
Proof. unfold classes_kept. congruence. Qed.

Lemma classes_kept_edit_entities s : keeps classes_kept (edit_entities s).
Proof.
  assert (forall f, classes_kept f f) as Hrefl by reflexivity.
  unfold edit_entities.
  repeat first
    [ apply (keeps_abind classes_kept classes_kept_trans); [|intros ?]
    | apply (keeps_for_each classes_kept Hrefl classes_kept_trans); intros ?
    | apply (keeps_read classes_kept Hrefl)
    | apply (keeps_first classes_kept Hrefl)
    | apply classes_kept_setattr ].
Qed.

(** ** The legacy branch *)

Lemma stays_untouched_refl f : stays_untouched f f.
Proof. intros Hwf. apply untouched_refl, Hwf. Qed.

Lemma stays_untouched_trans f g h :
  stays_untouched f g -> stays_untouched g h -> stays_untouched f h.
Proof.
  intros H K Hwf. pose proof (H Hwf) as Hg.
  exact (untouched_trans _ _ _ Hg (K (untouched_Wf _ _ Hg))).
Qed.

Lemma stays_untouched_edit_property_sets `{api : PsetApi} s :
  frames_true_north api -> keeps stays_untouched (edit_property_sets s).
Proof.
  intros Hframe.
  assert (forall cls v, keeps stays_untouched (create_typed cls v)) as Hcreate.
  { intros cls v f Hwf. apply (Hframe f (proj2 (well_formed_Wf f) Hwf)). }
  assert (forall i props, keeps stays_untouched (edit_pset i props)) as Hedit.
  { intros i props f Hwf. apply (Hframe f (proj2 (well_formed_Wf f) Hwf)). }
  assert (forall project name cls props,
             keeps stays_untouched (edit_emulated project name cls props)) as Hemulated.
  { intros project name cls props. unfold edit_emulated.
    apply (keeps_abind _ stays_untouched_trans);
      [apply (keeps_read _ stays_untouched_refl)|].
    intros [[|kv pset]|]; cbn beta iota; try apply (keeps_ret _ stays_untouched_refl).
    apply (keeps_abind _ stays_untouched_trans).
    - unfold pset_instance. destruct (assoc "id" (kv :: pset)) as [[]|];
        try apply (keeps_throw _ stays_untouched_refl).
      apply (keeps_abind _ stays_untouched_trans);
        [apply (keeps_read _ stays_untouched_refl)|].
      intros [e|]; [apply (keeps_ret _ stays_untouched_refl)
                   | apply (keeps_throw _ stays_untouched_refl)].
    - intros instance. apply (keeps_abind _ stays_untouched_trans); [|intros _; apply Hedit].
      apply (keeps_for_each _ stays_untouched_refl stays_untouched_trans). intros kv'.
      apply (keeps_abind _ stays_untouched_trans); [apply Hcreate|].
      intros _. apply (keeps_ret _ stays_untouched_refl). }
  unfold edit_property_sets.
  apply (keeps_abind _ stays_untouched_trans); [apply (keeps_read _ stays_untouched_refl)|].
  intros [|project ?]; [apply (keeps_ret _ stays_untouched_refl)|].
  apply (keeps_abind _ stays_untouched_trans); [apply Hemulated | intros _; apply Hemulated].
Qed.

(** ** The call as a whole *)

Lemma execute_eval `{PsetApi} s f :
  execute s f =
  match set_true_north s f with
  | (Ok _, g) =>
      (if String.eqb (schema g) "IFC2X3" then edit_property_sets s else edit_entities s) g
  | (Raise e, g) => (Raise e, g)
  end.
Proof.
  unfold execute, abind, read. destruct (set_true_north s f) as [[[]|e] g]; reflexivity.
Qed.

Lemma is_vector_settings co pc tn :
  is_vector tn = true \/ truthy tn = false ->
  is_vector (true_north (settings_of co pc tn)) = true.
Proof. simpl. intros [H|H]; destruct (truthy tn); try discriminate H; try reflexivity; exact H. Qed.

Lemma true_north_settings co pc tn :
  truthy tn = true -> true_north (settings_of co pc tn) = tn.
Proof. simpl. intros ->. reflexivity. Qed.

Lemma by_type_repointed f c :
  by_type (repointed f c) direction_class true = by_type f direction_class true ++ [fresh_id f].
Proof.
  unfold repointed. rewrite !by_type_classes, classes_update. unfold classes, add. simpl.
  rewrite map_app, List.filter_app, map_app. reflexivity.
Qed.

Lemma by_type_untouched_directions f g :
  untouched f g -> by_type g direction_class true = by_type f direction_class true.
Proof. intros (_ & _ & H & _). exact H. Qed.

(** After a call, the true-north step has nothing left to do. *)
Lemma first_call_settles `{api : PsetApi} f co pc tn :
  Wf f -> frames_true_north api ->
  is_vector tn = true -> truthy tn = true ->
  Avoids f (or_empty co) -> Avoids f (or_empty pc) ->
  let f1 := snd (edit_georeferencing co pc tn f) in
  Wf f1 /\ exists o, forall s, true_north s = tn -> set_true_north s f1 = (o, f1).
Proof.
  intros Hwf Hframe Hv Ht Hco Hpc. unfold edit_georeferencing. fold (settings_of co pc tn).
  rewrite execute_eval.
  pose proof (true_north_settings co pc tn Ht) as Etn.
  destruct (set_true_north (settings_of co pc tn) f) as [o g] eqn:Erun.
  assert (is_vector (true_north (settings_of co pc tn)) = true) as Hv' by (rewrite Etn; exact Hv).
  destruct (set_true_north_spec _ f o g Hwf Hv' Erun)
    as (Hwfg & Hagain & Hctx & Hgrows & _ & Hrest).
  destruct o as [[]|e].
  2: { cbn zeta. cbn [snd]. split; [exact Hwfg|]. exists (Raise e).
       intros s Es.
       rewrite (set_true_north_only_reads_true_north s (settings_of co pc tn)) by congruence.
       exact Hagain. }
  cbn zeta.
  set (rest := if String.eqb (schema g) "IFC2X3" then edit_property_sets (settings_of co pc tn)
               else edit_entities (settings_of co pc tn)).
  assert (untouched g (snd (rest g))) as Hu.
  { subst rest. destruct (String.eqb (schema g) "IFC2X3").
    - apply (stays_untouched_edit_property_sets _ Hframe g Hwfg).
    - pose proof (same_classes_grows f g Hgrows (wf_unique g Hwfg)) as Hsame.
      destruct (edit_entities (settings_of co pc tn) g) as [o h] eqn:Eedit.
      apply (edit_entities_untouched (settings_of co pc tn) g o h Hwfg); [| |exact Eedit].
      + exact (Avoids_same_classes f g _ Hsame Hco).
      + exact (Avoids_same_classes f g _ Hsame Hpc). }
  split; [exact (untouched_Wf _ _ Hu)|]. exists (Ok tt). intros s Es.
  unfold set_true_north. rewrite Es, Ht. cbn [negb]. unfold abind, read.
  change (by_type (snd (rest g)) "IfcGeometricRepresentationContext" false)
    with (by_type (snd (rest g)) context_class false).
  destruct Hu as (Hu1 & Hu2 & Hu3 & Hu4 & Hu5). rewrite Hu2.
  assert (untouched g (snd (rest g))) as Hu by (repeat split; assumption).
  apply loop_at_rest; [apply (wf_unique _ (untouched_Wf _ _ Hu)) | exact Hv |].
  intros c Hc. apply (untouched_at_rest tn g _ c (Ok tt) Hwfg Hu).
  - apply context_of_by_type; [apply (wf_unique g Hwfg) | exact Hc].
  - rewrite <- Etn. apply (Hrest ltac:(rewrite Etn; exact Ht) eq_refl).
    rewrite <- Hctx. exact Hc.
Qed.

(** No direction is created by the branch that follows the true-north step. *)
Lemma rest_creates_no_direction `{api : PsetApi} s f :
  Wf f -> frames_true_north api ->
  by_type (snd ((if String.eqb (schema f) "IFC2X3" then edit_property_sets s
                 else edit_entities s) f)) direction_class true
  = by_type f direction_class true.
Proof.
  intros Hwf Hframe. destruct (String.eqb (schema f) "IFC2X3").
  - apply by_type_untouched_directions.
    apply (stays_untouched_edit_property_sets _ Hframe f Hwf).
  - rewrite !by_type_classes. rewrite (classes_kept_edit_entities s f). reflexivity.
Qed.

Lemma no_psets_frames : frames_true_north Samples.no_psets.
Proof.
  intros f Hwf. apply well_formed_Wf in Hwf.
  split; intros; simpl; apply untouched_refl, Hwf.
Qed.

(** C5.  On a well-formed document, with property-set helpers that leave
    contexts and directions alone and mappings whose values are no
    directions, a second call of [edit_georeferencing] with the same
    non-empty true-north vector creates no direction: the directions of the
    document are the same before and after it, and its true-north step
    leaves the document as it is.  The first statement of the loop body
    gives a context a new direction exactly when the one it has does not
    have exactly one referrer, and a turn of the loop never changes a
    direction whose number of referrers is not one. *)
Theorem second_call_creates_no_direction `{api : PsetApi}
    (f : file) (co pc co' pc' : option dict) (tn : value) :
  well_formed f = true -> frames_true_north api ->
  is_vector tn = true -> truthy tn = true ->
  avoids_directions f (or_empty co) = true -> avoids_directions f (or_empty pc) = true ->
  let f1 := snd (edit_georeferencing co pc tn f) in
  let f2 := snd (edit_georeferencing co' pc' tn f1) in
  by_type f2 direction_class true = by_type f1 direction_class true
  /\ snd (set_true_north (settings_of co' pc' tn) f1) = f1
  /\ (forall g c ec d,
        by_id g c = Some ec -> assoc "TrueNorth" (attributes ec) = Some (PyEntity d) ->
        ensure_own_direction c g
        = (Ok tt, if Nat.eqb (length (get_inverse g d)) 1 then g else repointed g c)
        /\ by_type (repointed g c) direction_class true
           = by_type g direction_class true ++ [fresh_id g])
  /\ (forall g c ec o g' d ed,
        well_formed g = true -> by_id g c = Some ec -> is_a ec = context_class ->
        set_context_true_north tn c g = (o, g') ->
        by_id g d = Some ed -> is_a ed = direction_class ->
        length (get_inverse g d) <> 1 -> by_id g' d = Some ed).
Proof.
  intros Hwf Hframe Hv Ht Hco Hpc f1 f2. apply well_formed_Wf in Hwf.
  destruct (first_call_settles f co pc tn Hwf Hframe Hv Ht (avoids_spec _ _ Hco)
              (avoids_spec _ _ Hpc)) as [Hwf1 (o & Hsettled)].
  fold f1 in Hwf1, Hsettled.
  pose proof (Hsettled (settings_of co' pc' tn) (true_north_settings co' pc' tn Ht)) as Hagain.
  split; [|split; [|split]].
  - subst f2. unfold edit_georeferencing at 1. fold (settings_of co' pc' tn).
    rewrite execute_eval, Hagain. destruct o as [[]|e]; [|reflexivity].
    apply rest_creates_no_direction; assumption.
  - rewrite Hagain. reflexivity.
  - intros g c ec d Hc Htn. split; [|apply by_type_repointed].
    rewrite (ensure_eval g c ec Hc), Htn. cbn [truthy].
    destruct (Nat.eqb (length (get_inverse g d)) 1); reflexivity.
  - intros g c ec o' g' d ed Hwfg Hc Hcls Hrun Hd Hdcls Hshared.
    apply well_formed_Wf in Hwfg.
    destruct (step_spec tn g c ec o' g' Hwfg Hv Hc Hcls Hrun) as (_ & _ & _ & _ & Hkeep & _).
    apply (Hkeep d ed Hd Hdcls). right. exact Hshared.
Qed.

Lemma second_call_creates_no_direction_witness :
  let f1 := snd (edit_georeferencing (H := Samples.no_psets) (Some Samples.false_origin)
                   (Some Samples.crs_name) Samples.north Samples.georeferenced) in
  let f2 := snd (edit_georeferencing (H := Samples.no_psets) None None Samples.north f1) in
  by_type Samples.georeferenced direction_class true = [3]
  /\ by_type f1 direction_class true = [3; 6]
  /\ by_type f2 direction_class true = by_type f1 direction_class true.
Proof.
  split; [reflexivity|]. split; [reflexivity|].
  apply (second_call_creates_no_direction (api := Samples.no_psets) Samples.georeferenced
           (Some Samples.false_origin) (Some Samples.crs_name) None None Samples.north);
    first [reflexivity | apply no_psets_frames].
Defined.

(** ** Partial updates *)

Lemma by_id_update_ne f i n v j :
  j <> i -> by_id (update f i (with_attr n v)) j = by_id f j.
Proof.
  intros Hj. destruct (by_id f j) as [e|] eqn:E.
  - apply by_id_update_other; [congruence | exact E].
  - apply by_id_update_none, E.
Qed.

Lemma attribute_by_id f g i name :
  by_id g i = by_id f i -> attribute g i name = attribute f i name.
Proof. unfold attribute. intros ->. reflexivity. Qed.

Lemma attribute_update_other f i n v name :
  name <> n -> attribute (update f i (with_attr n v)) i name = attribute f i name.
Proof.
  intros Hne. unfold attribute. destruct (by_id f i) as [e|] eqn:E.
  - rewrite (by_id_update_same f i n v e E). cbn [attributes with_attr].
    rewrite assoc_set_other by exact Hne. reflexivity.
  - rewrite (by_id_update_none f i n v i E). reflexivity.
Qed.

(** Assigning the items of a mapping to an instance changes that instance
    only, and only the attributes the mapping names. *)
Lemma setattrs_frame i : forall d g o h,
  for_each d (fun kv => setattr i (fst kv) (snd kv)) g = (o, h) ->
  (forall j, j <> i -> by_id h j = by_id g j)
  /\ (forall name, ~ In name (keys d) -> attribute h i name = attribute g i name).
Proof.
  induction d as [|kv d IH]; intros g o h Hrun.
  - injection Hrun as <- <-. split; reflexivity.
  - cbn [for_each] in Hrun. unfold abind in Hrun. unfold setattr at 1 in Hrun.
    destruct (by_id g i) as [e|] eqn:Ei; [|injection Hrun as <- <-; split; reflexivity].
    destruct (assoc (fst kv) (attributes e)) as [w|];
      [|injection Hrun as <- <-; split; reflexivity].
    destruct (IH _ o h Hrun) as [Hothers Hnames]. split.
    + intros j Hj. rewrite (Hothers j Hj). apply by_id_update_ne, Hj.
    + intros name Hname. rewrite Hnames by (intros H; apply Hname; right; exact H).
      apply attribute_update_other. intros E. apply Hname. left. symmetry. exact E.
Qed.

Lemma crs_is_no_operation c :
  subclass c "IfcProjectedCRS" = true -> subclass c "IfcCoordinateOperation" = false.
Proof.
  intros H. destruct (subclass c "IfcCoordinateOperation") eqn:E; [|reflexivity].
  destruct (operation_is_outside c E) as (_ & _ & H'). congruence.
Qed.

(** The modern branch on a document with unique ids: an instance that is
    not of the kind a mapping is assigned to keeps all its attributes, and
    one of that kind keeps those the mapping does not name. *)
Lemma edit_entities_frame s g j e :
  List.NoDup (map id (instances g)) -> by_id g j = Some e ->
  let h := snd (edit_entities s g) in
  (is_a_kind e "IfcCoordinateOperation" = false -> is_a_kind e "IfcProjectedCRS" = false ->
   by_id h j = Some e)
  /\ (forall name, is_a_kind e "IfcCoordinateOperation" = true ->
        ~ In name (keys (coordinate_operation s)) -> attribute h j name = attribute g j name)
  /\ (forall name, is_a_kind e "IfcProjectedCRS" = true ->
        ~ In name (keys (projected_crs s)) -> attribute h j name = attribute g j name).
Proof.
  intros Hu Hj h. subst h. rewrite edit_entities_eval.
  destruct (by_type g "IfcCoordinateOperation" true) as [|operation ops] eqn:Eops.
  { cbn [snd]. split; [intros; exact Hj | split; reflexivity]. }
  destruct (by_type g "IfcProjectedCRS" true) as [|crs crss] eqn:Ecrss.
  { cbn [snd]. split; [intros; exact Hj | split; reflexivity]. }
  destruct (in_by_type g "IfcCoordinateOperation" true operation Hu)
    as (eo & Heo & Hko); [rewrite Eops; left; reflexivity|].
  destruct (in_by_type g "IfcProjectedCRS" true crs Hu)
    as (ecrs & Hecrs & Hkc); [rewrite Ecrss; left; reflexivity|].
  simpl in Hko, Hkc. unfold is_a_kind.
  assert (subclass (is_a e) "IfcCoordinateOperation" = false -> j <> operation) as Hjo.
  { intros H E. rewrite E, Heo in Hj. injection Hj as ->. congruence. }
  assert (subclass (is_a e) "IfcProjectedCRS" = false -> j <> crs) as Hjc.
  { intros H E. rewrite E, Hecrs in Hj. injection Hj as ->. congruence. }
  unfold abind.
  destruct (for_each (coordinate_operation s) _ g) as [o1 g1] eqn:E1.
  destruct (setattrs_frame operation _ g o1 g1 E1) as [Hothers1 Hnames1].
  destruct o1 as [[]|x]; cbn [snd].
  - destruct (for_each (projected_crs s) _ g1) as [o2 g2] eqn:E2.
    destruct (setattrs_frame crs _ g1 o2 g2 E2) as [Hothers2 Hnames2]. cbn [snd].
    split; [|split].
    + intros Hno Hnc. rewrite (Hothers2 j (Hjc Hnc)), (Hothers1 j (Hjo Hno)). exact Hj.
    + intros name Hk Hname.
      rewrite (attribute_by_id g1 g2 j name (Hothers2 j (Hjc (proj2 (proj2 (operation_is_outside _ Hk)))))).
      destruct (Nat.eq_dec j operation) as [->|Hne]; [exact (Hnames1 name Hname)|].
      apply attribute_by_id, Hothers1, Hne.
    + intros name Hk Hname.
      rewrite <- (attribute_by_id g g1 j name (Hothers1 j (Hjo (crs_is_no_operation _ Hk)))).
      destruct (Nat.eq_dec j crs) as [->|Hne]; [exact (Hnames2 name Hname)|].
      apply attribute_by_id, Hothers2, Hne.
  - split; [|split].
    + intros Hno _. rewrite (Hothers1 j (Hjo Hno)). exact Hj.
    + intros name Hk Hname.
      destruct (Nat.eq_dec j operation) as [->|Hne]; [exact (Hnames1 name Hname)|].
      apply attribute_by_id, Hothers1, Hne.
    + intros name Hk _. apply attribute_by_id, Hothers1, Hjo, crs_is_no_operation, Hk.
Qed.

Lemma direction_is_outside e :
  is_a e = direction_class ->
  is_a_kind e "IfcCoordinateOperation" = false /\ is_a_kind e "IfcProjectedCRS" = false.
Proof. unfold is_a_kind. intros ->. split; reflexivity. Qed.

(** C7.  On a well-formed document whose true north is a vector of numbers
    or empty or absent: on the modern path an attribute of a coordinate
    operation or of a projected CRS that the corresponding mapping does not
    name reads the same after the call as before; and when [true_north] is
    empty or absent the true-north step returns the document as it is, no
    direction is added or removed and every direction instance is the same
    after the call (on the legacy path, given property-set helpers that
    leave contexts and directions alone). *)
Theorem partial_update `{api : PsetApi}
    (f : file) (co pc : option dict) (tn : value) :
  well_formed f = true -> (schema f = "IFC2X3" -> frames_true_north api) ->
  is_vector tn = true \/ truthy tn = false ->
  let f1 := snd (edit_georeferencing co pc tn f) in
  (schema f <> "IFC2X3" ->
   forall j e name, by_id f j = Some e ->
     (is_a_kind e "IfcCoordinateOperation" = true -> ~ In name (keys (or_empty co)) ->
      attribute f1 j name = attribute f j name)
     /\ (is_a_kind e "IfcProjectedCRS" = true -> ~ In name (keys (or_empty pc)) ->
         attribute f1 j name = attribute f j name))
  /\ (truthy tn = false ->
      set_true_north (settings_of co pc tn) f = (Ok tt, f)
      /\ by_type f1 direction_class true = by_type f direction_class true
      /\ forall d ed, by_id f d = Some ed -> is_a ed = direction_class -> by_id f1 d = Some ed).
Proof.
  intros Hwf Hframe Hv f1. apply well_formed_Wf in Hwf. subst f1.
  unfold edit_georeferencing. fold (settings_of co pc tn). rewrite execute_eval. split.
  - intros Hmodern j e name Hj.
    destruct (set_true_north (settings_of co pc tn) f) as [o g] eqn:Erun.
    destruct (set_true_north_spec _ f o g Hwf (is_vector_settings co pc tn Hv) Erun)
      as (Hwfg & _ & _ & Hgrows & Hkeep & _).
    assert (is_a_kind e "IfcCoordinateOperation" = true \/ is_a_kind e "IfcProjectedCRS" = true ->
            by_id g j = Some e) as Hg.
    { intros Hk. apply (Hkeep j e Hj).
      - destruct Hk as [Hk|Hk]; [apply (operation_is_outside _ Hk) | apply (crs_is_outside _ Hk)].
      - destruct Hk as [Hk|Hk]; [apply (operation_is_outside _ Hk) | apply (crs_is_outside _ Hk)]. }
    assert (String.eqb (schema g) "IFC2X3" = false) as Es.
    { destruct Hgrows as [-> _]. apply String.eqb_neq, Hmodern. }
    split.
    + intros Hk Hname. specialize (Hg (or_introl Hk)).
      rewrite <- (attribute_by_id f g j name) by congruence.
      destruct o as [[]|x]; [|reflexivity]. rewrite Es.
      destruct (edit_entities_frame (settings_of co pc tn) g j e (wf_unique g Hwfg) Hg)
        as (_ & Hop & _).
      exact (Hop name Hk Hname).
    + intros Hk Hname. specialize (Hg (or_intror Hk)).
      rewrite <- (attribute_by_id f g j name) by congruence.
      destruct o as [[]|x]; [|reflexivity]. rewrite Es.
      destruct (edit_entities_frame (settings_of co pc tn) g j e (wf_unique g Hwfg) Hg)
        as (_ & _ & Hcrs).
      exact (Hcrs name Hk Hname).
  - intros Hfalsy.
    rewrite (set_true_north_skipped _ f (settings_of_falsy co pc tn Hfalsy)).
    split; [reflexivity|].
    destruct (String.eqb (schema f) "IFC2X3") eqn:Es.
    + apply String.eqb_eq in Es.
      pose proof (stays_untouched_edit_property_sets (settings_of co pc tn) (Hframe Es) f Hwf)
        as (Hu1 & _ & Hu3 & _).
      split; [exact Hu3|]. intros d ed Hd Hcls. apply (Hu1 d ed Hd). right. exact Hcls.
    + split.
      * rewrite !by_type_classes. rewrite (classes_kept_edit_entities _ f). reflexivity.
      * intros d ed Hd Hcls. destruct (direction_is_outside ed Hcls) as [Hno Hnc].
        destruct (edit_entities_frame (settings_of co pc tn) f d ed (wf_unique f Hwf) Hd)
          as (Hsame & _).
        exact (Hsame Hno Hnc).
Qed.

Lemma partial_update_witness :
  let f1 := snd (edit_georeferencing (H := Samples.no_psets) (Some Samples.false_origin) None
                   PyNone Samples.georeferenced) in
  attribute f1 4 "Eastings" = Ok (PyFloat 335087.17)
  /\ attribute f1 4 "Scale" = attribute Samples.georeferenced 4 "Scale"
  /\ attribute f1 5 "Name" = attribute Samples.georeferenced 5 "Name"
  /\ by_id f1 3 = by_id Samples.georeferenced 3.
Proof.
  pose proof (partial_update (api := Samples.no_psets) Samples.georeferenced
                (Some Samples.false_origin) None PyNone eq_refl
                (fun _ => no_psets_frames) (or_intror eq_refl)) as [Hnames Hskip].
  cbv zeta in Hnames, Hskip.
  assert (schema Samples.georeferenced <> "IFC2X3") as Hmodern by discriminate.
  split; [reflexivity|]. split; [|split].
  - refine (proj1 (Hnames Hmodern 4 (Samples.map_conversion 4 1 5) "Scale" eq_refl) eq_refl _).
    intros [E|[E|[]]]; discriminate E.
  - refine (proj2 (Hnames Hmodern 5 (Samples.crs 5) "Name" eq_refl) eq_refl _).
    intros [].
  - refine (proj2 (proj2 (Hskip eq_refl)) 3 _ eq_refl eq_refl).
Defined.

(** ** A tuple as true north *)

Lemma tuple_is_not_padded l dimension :
  equals_two dimension = false -> direction_ratios (PyTuple l) dimension = Raise TypeError.
Proof. unfold direction_ratios. intros ->. reflexivity. Qed.

Lemma write_tuple_raises l g c ec d dimension :
  by_id g c = Some ec -> assoc "TrueNorth" (attributes ec) = Some (PyEntity d) ->
  assoc "CoordinateSpaceDimension" (attributes ec) = Some dimension ->
  equals_two dimension = false ->
  write_direction (PyTuple l) c g = (Raise TypeError, g).
Proof.
  intros Hc Htn Hdim Hne. unfold write_direction, abind, getattr, attribute.
  rewrite Hc, Htn, Hdim. unfold lift. rewrite (tuple_is_not_padded l dimension Hne).
  reflexivity.
Qed.

(** C6 (as stated) fails for the documented argument type.  When the first
    root context of the document has a coordinate-space dimension other
    than 2, a call with a non-empty tuple as [true_north] raises TypeError:
    the code adds the list [[0.0]] to the tuple slice, so the ratios are
    never padded and never written. *)
Theorem tuple_true_north_raises_on_3d_context `{api : PsetApi}
    (f : file) (co pc : option dict) (x : value) (l : list value)
    (c : nat) (rest : list nat) (ec : entity_instance) (old dimension : value) :
  by_type f "IfcGeometricRepresentationContext" false = c :: rest ->
  by_id f c = Some ec ->
  assoc "TrueNorth" (attributes ec) = Some old ->
  assoc "CoordinateSpaceDimension" (attributes ec) = Some dimension ->
  equals_two dimension = false ->
  fst (edit_georeferencing co pc (PyTuple (x :: l)) f) = Raise TypeError.
Proof.
  intros Hcs Hc Hold Hdim Hne. unfold edit_georeferencing. cbn [truthy].
  unfold execute. unfold abind at 1. unfold set_true_north. cbn [true_north truthy negb].
  unfold abind at 1, read. rewrite Hcs. cbn [for_each]. unfold abind at 1.
  assert (fst (set_context_true_north (PyTuple (x :: l)) c f) = Raise TypeError) as Hstep.
  { unfold set_context_true_north, abind. rewrite (ensure_eval f c ec Hc), Hold.
    assert (fst (write_direction (PyTuple (x :: l)) c (repointed f c)) = Raise TypeError) as Hnew.
    { rewrite (write_tuple_raises (x :: l) _ c _ (fresh_id f) dimension
                 (by_id_repointed_context f c ec Hc)); [reflexivity | | | exact Hne].
      - cbn [attributes with_attr]. apply (assoc_set_same _ _ _ _ Hold).
      - cbn [attributes with_attr]. rewrite assoc_set_other by discriminate. exact Hdim. }
    destruct (truthy old) eqn:Et.
    - destruct old as [| | | | | | | |d]; try reflexivity.
      destruct (Nat.eqb (length (get_inverse f d)) 1); [|exact Hnew].
      rewrite (write_tuple_raises (x :: l) f c ec d dimension Hc Hold Hdim Hne). reflexivity.
    - exact Hnew. }
  destruct (set_context_true_north (PyTuple (x :: l)) c f) as [o g].
  simpl in Hstep. subst o. reflexivity.
Qed.

Lemma tuple_true_north_raises_witness :
  let r := edit_georeferencing (H := Samples.no_psets) None None Samples.north_tuple
             Samples.georeferenced in
  fst r = Raise TypeError
  /\ attribute (snd r) 1 "TrueNorth" = Ok (PyEntity 6)
  /\ attribute (snd r) 6 "DirectionRatios" = Ok PyNone
  /\ attribute (snd r) 2 "TrueNorth" = Ok (PyEntity 3).
Proof.
  split; [|repeat split; reflexivity].
  apply (tuple_true_north_raises_on_3d_context (api := Samples.no_psets) Samples.georeferenced
           None None (PyFloat 0) [PyFloat 1] 1 [2] (Samples.context 1 (PyInt 3) (PyEntity 3))
           (PyEntity 3) (PyInt 3)); reflexivity.
Defined.

(** ** A list as true north *)

(** With a list of two numbers as true north, a true-north step that
    returns leaves every root context with a direction whose ratios are the
    two numbers, followed by [0.0] unless the dimension of the context
    equals 2. *)
Theorem list_true_north_sets_padded_ratios (s : settings) (f g : file) (a b : value) :
  well_formed f = true ->
  true_north s = PyList [a; b] -> is_number a = true -> is_number b = true ->
  set_true_north s f = (Ok tt, g) ->
  forall c, In c (contexts f) ->
    exists ec d ed dimension,
      by_id g c = Some ec
      /\ assoc "TrueNorth" (attributes ec) = Some (PyEntity d)
      /\ assoc "CoordinateSpaceDimension" (attributes ec) = Some dimension
      /\ by_id g d = Some ed
      /\ assoc "DirectionRatios" (attributes ed)
         = Some (if equals_two dimension then PyList [a; b] else PyList [a; b; PyFloat 0]).
Proof.
  intros Hwf Etn Ha Hb Hrun c Hc. apply well_formed_Wf in Hwf.
  assert (is_vector (true_north s) = true) as Hv by (rewrite Etn; simpl; rewrite Ha, Hb; reflexivity).
  assert (truthy (true_north s) = true) as Ht by (rewrite Etn; reflexivity).
  destruct (set_true_north_spec s f (Ok tt) g Hwf Hv Hrun) as (_ & _ & _ & _ & _ & Hrest).
  destruct (Hrest Ht eq_refl c Hc) as (ec & Hec & Hm). exists ec.
  destruct (assoc "TrueNorth" (attributes ec)) as [old|]; [|discriminate Hm].
  destruct old as [| | | | | | | |d]; try (destruct Hm as [_ Hm]; discriminate Hm).
  destruct Hm as [_ Hm]. exists d.
  destruct (assoc "CoordinateSpaceDimension" (attributes ec)) as [dimension|]; [|discriminate Hm].
  rewrite Etn in Hm.
  assert (direction_ratios (PyList [a; b]) dimension
          = Ok (if equals_two dimension then PyList [a; b] else PyList [a; b; PyFloat 0])) as E.
  { unfold direction_ratios. destruct (equals_two dimension); reflexivity. }
  rewrite E in Hm. clear E.
  destruct (by_id g d) as [ed|]; [|discriminate Hm]. exists ed, dimension.
  destruct (assoc "DirectionRatios" (attributes ed)) as [current|]; [|discriminate Hm].
  destruct Hm as [-> _].
  split; [exact Hec|]. split; [reflexivity|]. split; [reflexivity|]. split; reflexivity.
Qed.

Lemma list_true_north_witness :
  let g := snd (set_true_north (settings_of None None Samples.north) Samples.georeferenced) in
  attribute g 6 "DirectionRatios" = Ok (PyList [PyFloat 0; PyFloat 1; PyFloat 0])
  /\ attribute g 3 "DirectionRatios" = Ok (PyList [PyFloat 0; PyFloat 1])
  /\ exists ec d ed dimension,
      by_id g 1 = Some ec
      /\ assoc "TrueNorth" (attributes ec) = Some (PyEntity d)
      /\ assoc "CoordinateSpaceDimension" (attributes ec) = Some dimension
      /\ by_id g d = Some ed
      /\ assoc "DirectionRatios" (attributes ed)
         = Some (if equals_two dimension then PyList [PyFloat 0; PyFloat 1]
                 else PyList [PyFloat 0; PyFloat 1; PyFloat 0]).
Proof.
  split; [reflexivity|]. split; [reflexivity|].
  apply (list_true_north_sets_padded_ratios (settings_of None None Samples.north)
           Samples.georeferenced _ (PyFloat 0) (PyFloat 1));
    first [reflexivity | left; reflexivity].
Defined.

(** ** Only directions are added *)

Lemma adds_directions_refl n f : adds_directions n f f.
Proof.
  split; [reflexivity|]. exists []. rewrite app_nil_r.
  split; [reflexivity|]. split; [constructor | simpl; lia].
Qed.

Lemma adds_directions_trans n m f g h :
  adds_directions n f g -> adds_directions m g h -> adds_directions (n + m) f h.
Proof.
  intros [Hs1 (a1 & Hc1 & Ha1 & Hn1)] [Hs2 (a2 & Hc2 & Ha2 & Hn2)]. split; [congruence|].
  exists (a1 ++ a2). rewrite Hc2, Hc1, <- app_assoc. split; [reflexivity|].
  split; [apply Forall_app; split; assumption | rewrite length_app; lia].
Qed.

Lemma adds_directions_le n m f g : n <= m -> adds_directions n f g -> adds_directions m f g.
Proof.
  intros Hle [Hs (a & Hc & Ha & Hn)]. split; [exact Hs|]. exists a.
  split; [exact Hc|]. split; [exact Ha | lia].
Qed.

Lemma adds_directions_kept n f g :
  schema g = schema f -> classes_kept f g -> adds_directions n f g.
Proof.
  intros Hs Hc. split; [exact Hs|]. exists []. rewrite app_nil_r.
  split; [exact Hc|]. split; [constructor | simpl; lia].
Qed.

(** Same schema and same ids and classes. *)
Lemma setattr_kept i n v f :
  schema (snd (setattr i n v f)) = schema f /\ classes_kept f (snd (setattr i n v f)).
Proof.
  unfold setattr, classes_kept. destruct (by_id f i) as [e|]; [|split; reflexivity].
  destruct (assoc n (attributes e)); [|split; reflexivity].
  split; [reflexivity | apply classes_update].
Qed.

Lemma repointed_adds f c : adds_directions 1 f (repointed f c).
Proof.
  split; [reflexivity|]. exists [(fresh_id f, direction_class)].
  unfold repointed. rewrite classes_update. unfold classes, add. simpl. rewrite map_app.
  split; [reflexivity|]. split; [repeat constructor | simpl; lia].
Qed.

Lemma ensure_own_direction_adds c f :
  adds_directions 1 f (snd (ensure_own_direction c f)).
Proof.
  destruct (by_id f c) as [ec|] eqn:Hc.
  - rewrite (ensure_eval f c ec Hc).
    destruct (assoc "TrueNorth" (attributes ec)) as [old|]; [|apply adds_directions_refl].
    destruct (truthy old); [|apply repointed_adds].
    destruct old; try apply adds_directions_refl.
    destruct (Nat.eqb _ 1); [apply adds_directions_refl | apply repointed_adds].
  - unfold ensure_own_direction, abind, getattr, attribute. rewrite Hc.
    apply adds_directions_refl.
Qed.

Lemma write_direction_adds tn c f : adds_directions 0 f (snd (write_direction tn c f)).
Proof.
  assert (forall i n v g, adds_directions 0 g (snd (setattr i n v g))) as Hset.
  { intros i n v g. destruct (setattr_kept i n v g). apply adds_directions_kept; assumption. }
  unfold write_direction, abind, getattr.
  destruct (attribute f c "TrueNorth") as [direction|]; [|apply adds_directions_refl].
  cbn [fst snd].
  destruct tn; try apply Hset;
    (destruct (attribute f c "CoordinateSpaceDimension") as [dimension|];
       [|apply adds_directions_refl]);
    unfold lift; (destruct (direction_ratios _ dimension) as [ratios|];
                  [|apply adds_directions_refl]);
    destruct direction; try apply adds_directions_refl; apply Hset.
Qed.

Lemma set_context_true_north_adds tn c f :
  adds_directions 1 f (snd (set_context_true_north tn c f)).
Proof.
  unfold set_context_true_north, abind.
  pose proof (ensure_own_direction_adds c f) as H1.
  destruct (ensure_own_direction c f) as [[[]|e] g]; [|exact H1].
  exact (adds_directions_trans 1 0 _ _ _ H1 (write_direction_adds tn c g)).
Qed.

Lemma true_north_loop_adds tn cs : forall f,
  adds_directions (length cs) f (snd (for_each cs (set_context_true_north tn) f)).
Proof.
  induction cs as [|c cs IH]; intros f; [apply adds_directions_refl|].
  cbn [for_each length]. unfold abind.
  pose proof (set_context_true_north_adds tn c f) as H1.
  destruct (set_context_true_north tn c f) as [[[]|e] g].
  - exact (adds_directions_trans 1 (length cs) _ _ _ H1 (IH g)).
  - apply (adds_directions_le 1); [lia | exact H1].
Qed.

Lemma set_true_north_adds s f :
  adds_directions (length (contexts f)) f (snd (set_true_north s f)).
Proof.
  unfold set_true_north. destruct (negb _); [apply adds_directions_refl|].
  unfold abind, read. apply true_north_loop_adds.
Qed.

Lemma edit_entities_kept s f :
  schema (snd (edit_entities s f)) = schema f /\ classes_kept f (snd (edit_entities s f)).
Proof.
  split; [|apply classes_kept_edit_entities].
  assert (forall i d g, schema (snd (for_each d (fun kv => setattr i (fst kv) (snd kv)) g))
                        = schema g) as Hloop.
  { intros i d. induction d as [|kv d IH]; intros g; [reflexivity|].
    cbn [for_each]. unfold abind.
    pose proof (proj1 (setattr_kept i (fst kv) (snd kv) g)) as H1.
    destruct (setattr i (fst kv) (snd kv) g) as [[[]|e] g1]; [|exact H1].
    rewrite IH. exact H1. }
  rewrite edit_entities_eval.
  destruct (by_type f "IfcCoordinateOperation" true) as [|operation ?]; [reflexivity|].
  destruct (by_type f "IfcProjectedCRS" true) as [|crs ?]; [reflexivity|].
  unfold abind. pose proof (Hloop operation (coordinate_operation s) f) as H1.
  destruct (for_each (coordinate_operation s) _ f) as [[[]|e] g1]; [|exact H1].
  rewrite Hloop. exact H1.
Qed.

(** On the modern path a call never removes, renumbers or reclassifies an
    instance and never changes the schema: it only appends IfcDirection
    instances, at most one for each root context. *)
Theorem modern_call_only_adds_directions `{api : PsetApi}
    (f : file) (co pc : option dict) (tn : value) :
  schema f <> "IFC2X3" ->
  adds_directions (length (contexts f)) f (snd (edit_georeferencing co pc tn f)).
Proof.
  intros Hmodern. unfold edit_georeferencing. fold (settings_of co pc tn).
  rewrite execute_eval.
  pose proof (set_true_north_adds (settings_of co pc tn) f) as H1.
  destruct (set_true_north (settings_of co pc tn) f) as [[[]|e] g]; [|exact H1].
  cbn [snd] in H1. assert (String.eqb (schema g) "IFC2X3" = false) as ->.
  { destruct H1 as [-> _]. apply String.eqb_neq, Hmodern. }
  destruct (edit_entities_kept (settings_of co pc tn) g) as [Hs Hc].
  pose proof (adds_directions_trans _ 0 _ _ _ H1 (adds_directions_kept 0 _ _ Hs Hc)) as H.
  rewrite Nat.add_0_r in H. exact H.
Qed.

Lemma modern_call_only_adds_directions_witness :
  by_type Samples.georeferenced direction_class true = [3]
  /\ adds_directions 2 Samples.georeferenced
       (snd (edit_georeferencing (H := Samples.no_psets) (Some Samples.false_origin) None
               Samples.north Samples.georeferenced)).
Proof.
  split; [reflexivity|].
  apply (modern_call_only_adds_directions (api := Samples.no_psets) Samples.georeferenced
           (Some Samples.false_origin) None Samples.north).
  discriminate.
Defined.


(** ** Failures leave the earlier changes in place *)

(** On the modern path, when the coordinate operation or the projected CRS
    is missing, the document the call leaves is the one the true-north step
    left: the directions it created and the ratios it wrote stay, and the
    call raises IndexError whenever that step returned. *)
Theorem missing_entity_keeps_true_north_changes `{api : PsetApi}
    (f : file) (co pc : option dict) (tn : value) :
  schema f <> "IFC2X3" ->
  by_type f "IfcCoordinateOperation" true = [] \/ by_type f "IfcProjectedCRS" true = [] ->
  snd (edit_georeferencing co pc tn f) = snd (set_true_north (settings_of co pc tn) f)
  /\ (fst (set_true_north (settings_of co pc tn) f) = Ok tt ->
      fst (edit_georeferencing co pc tn f) = Raise IndexError).
Proof.
  intros Hmodern Hmissing. unfold edit_georeferencing. fold (settings_of co pc tn).
  rewrite execute_eval.
  pose proof (grows_set_true_north (settings_of co pc tn) f) as G.
  destruct (set_true_north (settings_of co pc tn) f) as [[[]|e] g];
    [|split; [reflexivity | discriminate]].
  cbn [fst snd] in *. assert (String.eqb (schema g) "IFC2X3" = false) as ->.
  { destruct G as [-> _]. apply String.eqb_neq, Hmodern. }
  rewrite edit_entities_eval.
  rewrite (by_type_grows f g "IfcCoordinateOperation" true G eq_refl).
  rewrite (by_type_grows f g "IfcProjectedCRS" true G eq_refl).
  destruct (by_type f "IfcCoordinateOperation" true) as [|operation ops];
    [split; reflexivity|].
  destruct Hmissing as [H|H]; [discriminate H|]. rewrite H. split; reflexivity.
Qed.

Lemma missing_entity_keeps_true_north_changes_witness :
  by_type (snd (edit_georeferencing (H := Samples.no_psets) None None Samples.north
                  Samples.modern_bare)) direction_class true = [2]
  /\ snd (edit_georeferencing (H := Samples.no_psets) None None Samples.north Samples.modern_bare)
     = snd (set_true_north (settings_of None None Samples.north) Samples.modern_bare)
  /\ (fst (set_true_north (settings_of None None Samples.north) Samples.modern_bare) = Ok tt ->
      fst (edit_georeferencing (H := Samples.no_psets) None None Samples.north
             Samples.modern_bare) = Raise IndexError).
Proof.
  split; [reflexivity|].
  apply (missing_entity_keeps_true_north_changes (api := Samples.no_psets) Samples.modern_bare
           None None Samples.north); [discriminate | left; reflexivity].
Defined.


(** ** What a returned call has assigned *)

Lemma attribute_update_same f i n v e w :
  by_id f i = Some e -> assoc n (attributes e) = Some w ->
  attribute (update f i (with_attr n v)) i n = Ok v.
Proof.
  intros Hi Hw. unfold attribute. rewrite (by_id_update_same f i n v e Hi).
  cbn [attributes with_attr]. rewrite (assoc_set_same _ _ _ _ Hw). reflexivity.
Qed.

(** When the assignments of a mapping all go through, each key reads its
    value afterwards. *)
Lemma setattrs_assigned i : forall d g h,
  List.NoDup (keys d) ->
  for_each d (fun kv => setattr i (fst kv) (snd kv)) g = (Ok tt, h) ->
  forall k v, In (k, v) d -> attribute h i k = Ok v.
Proof.
  induction d as [|[k0 v0] d IH]; intros g h Hnd Hrun k v Hin; [contradiction|].
  cbn [keys map fst] in Hnd. inversion Hnd as [|? ? Hk0 Hnd']; subst.
  cbn [for_each] in Hrun. unfold abind in Hrun. cbn [fst snd] in Hrun.
  unfold setattr at 1 in Hrun.
  destruct (by_id g i) as [e|] eqn:Ei; [|discriminate Hrun].
  destruct (assoc k0 (attributes e)) as [w|] eqn:Ew; [|discriminate Hrun].
  destruct Hin as [E|Hin].
  - injection E as <- <-.
    destruct (setattrs_frame i d _ _ h Hrun) as [_ Hnames].
    rewrite (Hnames k0 Hk0). exact (attribute_update_same g i k0 v0 e w Ei Ew).
  - exact (IH _ h Hnd' Hrun k v Hin).
Qed.

Lemma by_type_head f cls sub i rest :
  List.NoDup (map id (instances f)) -> by_type f cls sub = i :: rest ->
  exists e, by_id f i = Some e /\ class_matches cls sub (is_a e) = true.
Proof. intros Hu E. apply in_by_type; [exact Hu | rewrite E; left; reflexivity]. Qed.

(** The first coordinate operation and the first projected CRS are
    different instances. *)
Lemma operation_is_not_crs f operation ops crs crss :
  List.NoDup (map id (instances f)) ->
  by_type f "IfcCoordinateOperation" true = operation :: ops ->
  by_type f "IfcProjectedCRS" true = crs :: crss ->
  operation <> crs.
Proof.
  intros Hu Eo Ec E.
  destruct (by_type_head f _ _ _ _ Hu Eo) as (eo & Heo & Hko).
  destruct (by_type_head f _ _ _ _ Hu Ec) as (ec & Hec & Hkc).
  rewrite E, Hec in Heo. injection Heo as ->. simpl in Hko, Hkc.
  destruct (operation_is_outside _ Hko) as (_ & _ & H). congruence.
Qed.

(** On the modern path of a well-formed document, a call that returns
    found a coordinate operation and a projected CRS, and has left every
    item of the two mappings in place: each key of [coordinate_operation]
    reads its value on the first coordinate operation, each key of
    [projected_crs] its value on the first projected CRS. *)
Theorem returned_call_has_assigned_every_item `{api : PsetApi}
    (f f1 : file) (co pc : option dict) (tn : value) :
  well_formed f = true -> schema f <> "IFC2X3" ->
  is_vector tn = true \/ truthy tn = false ->
  List.NoDup (keys (or_empty co)) -> List.NoDup (keys (or_empty pc)) ->
  edit_georeferencing co pc tn f = (Ok tt, f1) ->
  exists operation ops crs crss,
    by_type f "IfcCoordinateOperation" true = operation :: ops
    /\ by_type f "IfcProjectedCRS" true = crs :: crss
    /\ (forall k v, In (k, v) (or_empty co) -> attribute f1 operation k = Ok v)
    /\ (forall k v, In (k, v) (or_empty pc) -> attribute f1 crs k = Ok v).
Proof.
  intros Hwf Hmodern Hv Hkco Hkpc Hrun. apply well_formed_Wf in Hwf.
  unfold edit_georeferencing in Hrun. fold (settings_of co pc tn) in Hrun.
  rewrite execute_eval in Hrun.
  destruct (set_true_north (settings_of co pc tn) f) as [o g] eqn:Estn.
  destruct (set_true_north_spec _ f o g Hwf (is_vector_settings co pc tn Hv) Estn)
    as (Hwfg & _ & _ & Hgrows & _ & _).
  destruct o as [[]|e]; [|discriminate Hrun].
  assert (String.eqb (schema g) "IFC2X3" = false) as Es.
  { destruct Hgrows as [-> _]. apply String.eqb_neq, Hmodern. }
  rewrite Es, edit_entities_eval in Hrun.
  rewrite (by_type_grows f g "IfcCoordinateOperation" true Hgrows eq_refl) in Hrun.
  rewrite (by_type_grows f g "IfcProjectedCRS" true Hgrows eq_refl) in Hrun.
  destruct (by_type f "IfcCoordinateOperation" true) as [|operation ops] eqn:Eops;
    [discriminate Hrun|].
  destruct (by_type f "IfcProjectedCRS" true) as [|crs crss] eqn:Ecrss; [discriminate Hrun|].
  exists operation, ops, crs, crss. split; [reflexivity|]. split; [reflexivity|].
  unfold abind in Hrun.
  destruct (for_each (coordinate_operation (settings_of co pc tn)) _ g) as [o1 g1] eqn:E1.
  destruct o1 as [[]|e]; [|discriminate Hrun].
  assert (operation <> crs) as Hne.
  { apply (operation_is_not_crs g operation ops crs crss (wf_unique g Hwfg)).
    - rewrite (by_type_grows f g "IfcCoordinateOperation" true Hgrows eq_refl). exact Eops.
    - rewrite (by_type_grows f g "IfcProjectedCRS" true Hgrows eq_refl). exact Ecrss. }
  split.
  - intros k v Hin. destruct (setattrs_frame crs _ g1 _ f1 Hrun) as [Hothers _].
    rewrite (attribute_by_id g1 f1 operation k (Hothers operation Hne)).
    exact (setattrs_assigned operation _ g g1 Hkco E1 k v Hin).
  - intros k v Hin. exact (setattrs_assigned crs _ g1 f1 Hkpc Hrun k v Hin).
Qed.

Lemma returned_call_has_assigned_every_item_witness :
  let f1 := snd (edit_georeferencing (H := Samples.no_psets) (Some Samples.false_origin)
                   (Some Samples.crs_name) PyNone Samples.georeferenced) in
  exists operation ops crs crss,
    by_type Samples.georeferenced "IfcCoordinateOperation" true = operation :: ops
    /\ by_type Samples.georeferenced "IfcProjectedCRS" true = crs :: crss
    /\ (forall k v, In (k, v) Samples.false_origin -> attribute f1 operation k = Ok v)
    /\ (forall k v, In (k, v) Samples.crs_name -> attribute f1 crs k = Ok v).
Proof.
  apply (returned_call_has_assigned_every_item (api := Samples.no_psets) Samples.georeferenced _
           (Some Samples.false_origin) (Some Samples.crs_name) PyNone).
  - reflexivity.
  - discriminate.
  - right. reflexivity.
  - apply List.NoDup_cons; [intros [E|[]]; discriminate E|].
    apply List.NoDup_cons; [intros [] | apply List.NoDup_nil].
  - apply List.NoDup_cons; [intros [] | apply List.NoDup_nil].
  - reflexivity.
Defined.


(** ** An undeclared attribute name *)

Lemma for_each_app {A} (l1 l2 : list A) (body : A -> action unit) f :
  for_each (l1 ++ l2) body f = (for_each l1 body ;;; for_each l2 body) f.
Proof.
  revert f. induction l1 as [|x l1 IH]; intros f; simpl.
  - unfold abind, ret. reflexivity.
  - specialize (IH). unfold abind in *. destruct (body x f) as [[[]|e] g]; [|reflexivity].
    apply IH.
Qed.

Lemma attribute_update_declared f i n v k w :
  attribute f i k = Ok w ->
  exists w', attribute (update f i (with_attr n v)) i k = Ok w'.
Proof.
  unfold attribute. destruct (by_id f i) as [e|] eqn:Ei; [|discriminate].
  rewrite (by_id_update_same f i n v e Ei). cbn [attributes with_attr].
  destruct (assoc k (attributes e)) as [x|] eqn:Ek; [|discriminate]. intros _.
  destruct (String.eqb k n) eqn:E.
  - apply String.eqb_eq in E. subst k. rewrite (assoc_set_same _ _ _ _ Ek). eauto.
  - apply String.eqb_neq in E. rewrite assoc_set_other by exact E. rewrite Ek. eauto.
Qed.

(** Assigning declared attributes returns. *)
Lemma setattrs_declared i : forall d g,
  (forall k, In k (keys d) -> exists w, attribute g i k = Ok w) ->
  exists h, for_each d (fun kv => setattr i (fst kv) (snd kv)) g = (Ok tt, h).
Proof.
  induction d as [|[k0 v0] d IH]; intros g Hd; [exists g; reflexivity|].
  cbn [for_each]. unfold abind. cbn [fst snd]. unfold setattr at 1.
  destruct (Hd k0 (or_introl eq_refl)) as (w & Hw). unfold attribute in Hw.
  destruct (by_id g i) as [e|] eqn:Ei; [|discriminate Hw].
  destruct (assoc k0 (attributes e)) as [x|] eqn:Ex; [|discriminate Hw].
  apply IH. intros k Hk. destruct (Hd k (or_intror Hk)) as (w' & Hw').
  exact (attribute_update_declared g i k0 v0 k w' Hw').
Qed.

Lemma setattr_undeclared i n v f :
  attribute f i n = Raise AttributeError -> setattr i n v f = (Raise Undeclared, f).
Proof.
  unfold attribute, setattr. destruct (by_id f i) as [e|]; [|discriminate].
  destruct (assoc n (attributes e)); [discriminate | reflexivity].
Qed.

(** The loops of the modern path stop at the first assignment that raises
    and nothing is rolled back: when the first coordinate operation does not
    list the name [k] among its attributes, the call ends with the exception
    of the attribute setter; the items before [k] in the mapping have been
    assigned, the ones after it and the whole of [projected_crs] have not. *)
Theorem undeclared_name_stops_the_update `{api : PsetApi}
    (f : file) (pc : option dict) (tn : value) (before after : dict)
    (k : string) (v : value) (operation crs : nat) (ops crss : list nat)
    (e : entity_instance) :
  schema f <> "IFC2X3" -> truthy tn = false ->
  by_type f "IfcCoordinateOperation" true = operation :: ops ->
  by_type f "IfcProjectedCRS" true = crs :: crss ->
  List.NoDup (keys before) ->
  by_id f operation = Some e ->
  (forall k', In k' (keys before) -> exists w, assoc k' (attributes e) = Some w) ->
  assoc k (attributes e) = None ->
  let r := edit_georeferencing (Some (before ++ (k, v) :: after)) pc tn f in
  fst r = Raise Undeclared
  /\ (forall k' v', In (k', v') before -> attribute (snd r) operation k' = Ok v')
  /\ (forall k', ~ In k' (keys before) ->
        attribute (snd r) operation k' = attribute f operation k')
  /\ (forall j, j <> operation -> by_id (snd r) j = by_id f j).
Proof.
  intros Hmodern Hfalsy Eops Ecrss Hnd He Hlisted Hmissing r.
  assert (forall k', In k' (keys before) -> exists w, attribute f operation k' = Ok w)
    as Hdeclared.
  { intros k' Hk'. destruct (Hlisted k' Hk') as (w & Hw). exists w.
    unfold attribute. rewrite He, Hw. reflexivity. }
  assert (attribute f operation k = Raise AttributeError) as Hk.
  { unfold attribute. rewrite He, Hmissing. reflexivity. }
  destruct (setattrs_declared operation before f Hdeclared) as (g & Eg).
  destruct (setattrs_frame operation before f _ g Eg) as [Hothers Hnames].
  assert (attribute g operation k = Raise AttributeError) as Hk'.
  { destruct (in_dec String.string_dec k (keys before)) as [Hin|Hnin].
    - destruct (Hdeclared k Hin) as (w & Hw). congruence.
    - rewrite (Hnames k Hnin). exact Hk. }
  assert (r = (Raise Undeclared, g)) as ->.
  { subst r. unfold edit_georeferencing.
    fold (settings_of (Some (before ++ (k, v) :: after)) pc tn).
    rewrite execute_eval.
    rewrite (set_true_north_skipped _ f (settings_of_falsy _ pc tn Hfalsy)).
    apply String.eqb_neq in Hmodern. rewrite Hmodern.
    rewrite edit_entities_eval, Eops, Ecrss.
    cbn [coordinate_operation settings_of or_empty]. unfold abind at 1.
    rewrite for_each_app. unfold abind at 1. rewrite Eg.
    cbn [for_each]. unfold abind at 1. cbn [fst snd].
    rewrite (setattr_undeclared operation k v g Hk'). reflexivity. }
  cbn [fst snd]. split; [reflexivity|]. split; [|split].
  - intros k' v' Hin. exact (setattrs_assigned operation before f g Hnd Eg k' v' Hin).
  - exact Hnames.
  - exact Hothers.
Qed.

Lemma undeclared_name_stops_the_update_witness :
  let r := edit_georeferencing (H := Samples.no_psets) (Some Samples.misspelt_origin)
             (Some Samples.crs_name) PyNone Samples.georeferenced in
  fst r = Raise Undeclared
  /\ attribute (snd r) 4 "Eastings" = Ok (PyFloat 1)
  /\ attribute (snd r) 4 "Northings" = attribute Samples.georeferenced 4 "Northings"
  /\ by_id (snd r) 5 = by_id Samples.georeferenced 5.
Proof.
  pose proof (undeclared_name_stops_the_update (api := Samples.no_psets) Samples.georeferenced
                (Some Samples.crs_name) PyNone [("Eastings", PyFloat 1)]
                [("Northings", PyFloat 3)] "Easting" (PyFloat 2) 4 5 [] []
                (Samples.map_conversion 4 1 5)) as H.
  cbv zeta in H.
  destruct H as (Hraise & Hbefore & Hother & Hframe).
  - discriminate.
  - reflexivity.
  - reflexivity.
  - reflexivity.
  - apply List.NoDup_cons; [intros [] | apply List.NoDup_nil].
  - reflexivity.
  - intros k' [<-|[]]. eexists. reflexivity.
  - reflexivity.
  - split; [exact Hraise|]. split; [|split].
    + apply Hbefore. left. reflexivity.
    + apply Hother. intros [E|[]]. discriminate E.
    + apply Hframe. discriminate.
Defined.


(** ** A tuple as true north, continued *)

(** A true-north step given a non-empty tuple of numbers returns only
    when every root context is two-dimensional; each context then has a
    direction whose ratios are the first two numbers, as a tuple. *)
Theorem tuple_true_north_needs_flat_contexts (s : settings) (f g : file) (l : list value) :
  well_formed f = true ->
  true_north s = PyTuple l -> forallb is_number l = true -> l <> [] ->
  set_true_north s f = (Ok tt, g) ->
  forall c, In c (contexts f) ->
    exists ec d ed dimension,
      by_id g c = Some ec
      /\ assoc "CoordinateSpaceDimension" (attributes ec) = Some dimension
      /\ equals_two dimension = true
      /\ assoc "TrueNorth" (attributes ec) = Some (PyEntity d)
      /\ by_id g d = Some ed
      /\ assoc "DirectionRatios" (attributes ed) = Some (PyTuple (firstn 2 l)).
Proof.
  intros Hwf Etn Hl Hne Hrun c Hc. apply well_formed_Wf in Hwf.
  assert (is_vector (true_north s) = true) as Hv by (rewrite Etn; exact Hl).
  assert (truthy (true_north s) = true) as Ht
    by (rewrite Etn; destruct l; [contradiction | reflexivity]).
  destruct (set_true_north_spec s f (Ok tt) g Hwf Hv Hrun) as (_ & _ & _ & _ & _ & Hrest).
  destruct (Hrest Ht eq_refl c Hc) as (ec & Hec & Hm). exists ec.
  destruct (assoc "TrueNorth" (attributes ec)) as [old|]; [|discriminate Hm].
  destruct old as [| | | | | | | |d]; try (destruct Hm as [_ Hm]; discriminate Hm).
  destruct Hm as [_ Hm]. exists d.
  destruct (assoc "CoordinateSpaceDimension" (attributes ec)) as [dimension|]; [|discriminate Hm].
  rewrite Etn in Hm. unfold direction_ratios in Hm.
  destruct (equals_two dimension) eqn:Edim; [|discriminate Hm]. cbn [slice_0_2] in Hm.
  destruct (by_id g d) as [ed|]; [|discriminate Hm]. exists ed, dimension.
  destruct (assoc "DirectionRatios" (attributes ed)) as [current|]; [|discriminate Hm].
  destruct Hm as [-> _].
  split; [exact Hec|]. split; [reflexivity|]. split; [exact Edim|].
  split; [reflexivity|]. split; reflexivity.
Qed.

Lemma tuple_true_north_needs_flat_contexts_witness :
  let g := snd (set_true_north (settings_of None None Samples.north_tuple) Samples.plan_only) in
  exists ec d ed dimension,
    by_id g 1 = Some ec
    /\ assoc "CoordinateSpaceDimension" (attributes ec) = Some dimension
    /\ equals_two dimension = true
    /\ assoc "TrueNorth" (attributes ec) = Some (PyEntity d)
    /\ by_id g d = Some ed
    /\ assoc "DirectionRatios" (attributes ed) = Some (PyTuple [PyFloat 0; PyFloat 1]).
Proof.
  apply (tuple_true_north_needs_flat_contexts (settings_of None None Samples.north_tuple)
           Samples.plan_only _ [PyFloat 0; PyFloat 1]).
  - reflexivity.
  - reflexivity.
  - reflexivity.
  - discriminate.
  - reflexivity.
  - left. reflexivity.
Defined.


(** ** The document stays well formed *)

(** A call keeps the document well formed (unique ids, no dangling
    reference, the true north of a root context a direction), whether it
    returns or raises, when the values of the two mappings refer to
    existing instances that are no directions (and, on the legacy path, the
    property-set helpers keep the document well formed and leave contexts
    and directions alone). *)
Theorem call_keeps_the_document_well_formed `{api : PsetApi}
    (f : file) (co pc : option dict) (tn : value) :
  well_formed f = true -> frames_true_north api ->
  is_vector tn = true \/ truthy tn = false ->
  avoids_directions f (or_empty co) = true -> avoids_directions f (or_empty pc) = true ->
  well_formed (snd (edit_georeferencing co pc tn f)) = true.
Proof.
  intros Hwf Hframe Hv Hco Hpc. apply well_formed_Wf in Hwf. apply well_formed_Wf.
  unfold edit_georeferencing. fold (settings_of co pc tn). rewrite execute_eval.
  destruct (set_true_north (settings_of co pc tn) f) as [o g] eqn:Estn.
  destruct (set_true_north_spec _ f o g Hwf (is_vector_settings co pc tn Hv) Estn)
    as (Hwfg & _ & _ & Hgrows & _ & _).
  destruct o as [[]|e]; [|exact Hwfg].
  destruct (String.eqb (schema g) "IFC2X3").
  - apply (untouched_Wf g).
    apply (stays_untouched_edit_property_sets _ Hframe g Hwfg).
  - pose proof (same_classes_grows f g Hgrows (wf_unique g Hwfg)) as Hsame.
    destruct (edit_entities (settings_of co pc tn) g) as [o h] eqn:Eedit.
    apply (untouched_Wf g).
    apply (edit_entities_untouched (settings_of co pc tn) g o h Hwfg); [| |exact Eedit].
    + exact (Avoids_same_classes f g _ Hsame (avoids_spec _ _ Hco)).
    + exact (Avoids_same_classes f g _ Hsame (avoids_spec _ _ Hpc)).
Qed.

Lemma call_keeps_the_document_well_formed_witness :
  well_formed (snd (edit_georeferencing (H := Samples.no_psets) (Some Samples.false_origin)
                      (Some Samples.crs_name) Samples.north Samples.georeferenced)) = true.
Proof.
  apply (call_keeps_the_document_well_formed (api := Samples.no_psets) Samples.georeferenced
           (Some Samples.false_origin) (Some Samples.crs_name) Samples.north).
  - reflexivity.
  - apply no_psets_frames.
  - left. reflexivity.
  - reflexivity.
  - reflexivity.
Defined.


(** ** The legacy path and the emulating property sets *)

Lemma legacy_rest `{api : PsetApi} s f g o :
  schema f = "IFC2X3" -> set_true_north s f = (o, g) ->
  execute s f = match o with
                | Ok _ => edit_property_sets s g
                | Raise e => (Raise e, g)
                end.
Proof.
  intros Hs Hrun. rewrite execute_eval, Hrun.
  pose proof (grows_set_true_north s f) as G. rewrite Hrun in G. destruct G as [Gs _].
  simpl in Gs. destruct o as [[]|e]; [|reflexivity]. rewrite Gs, Hs. reflexivity.
Qed.

(** On the legacy path, when the toolkit finds neither of the two emulating
    property sets on the first project of the document (or finds them empty),
    whatever other property sets it finds there or elsewhere, a call does
    exactly what its true-north step does: the two mappings are not looked
    at. *)
Theorem legacy_without_property_sets_only_sets_true_north `{api : PsetApi}
    (f g : file) (o : result unit) (co pc : option dict) (tn : value) :
  schema f = "IFC2X3" ->
  set_true_north (settings_of co pc tn) f = (o, g) ->
  (forall project projects pset_name,
     by_type f "IfcProject" true = project :: projects ->
     In pset_name ["ePSet_ProjectedCRS"; "ePSet_MapConversion"] ->
     get_pset g project pset_name = None \/ get_pset g project pset_name = Some []) ->
  edit_georeferencing co pc tn f = (o, g).
Proof.
  intros Hs Hrun Hnone. unfold edit_georeferencing. fold (settings_of co pc tn).
  rewrite (legacy_rest _ f g o Hs Hrun). destruct o as [[]|e]; [|reflexivity].
  pose proof (grows_set_true_north (settings_of co pc tn) f) as G. rewrite Hrun in G.
  simpl in G.
  unfold edit_property_sets, abind, read.
  rewrite (by_type_grows f g "IfcProject" true G eq_refl).
  destruct (by_type f "IfcProject" true) as [|project projects] eqn:Hproject; [reflexivity|].
  assert (forall name cls props, In name ["ePSet_ProjectedCRS"; "ePSet_MapConversion"] ->
            edit_emulated project name cls props g = (Ok tt, g)) as Hemulated.
  { intros name cls props Hname. unfold edit_emulated, abind, read.
    destruct (Hnone project projects name eq_refl Hname) as [-> | ->]; reflexivity. }
  rewrite Hemulated by (left; reflexivity). apply Hemulated. right. left. reflexivity.
Qed.

Lemma legacy_without_property_sets_witness :
  by_type Samples.legacy_with_project "IfcProject" true = [2]
  /\ get_pset (PsetApi := Samples.common_psets) Samples.legacy_with_project 2
       "Pset_ProjectCommon" <> None
  /\ edit_georeferencing (H := Samples.common_psets) (Some Samples.false_origin)
       (Some Samples.crs_name) Samples.north Samples.legacy_with_project
     = (Ok tt,
        {| schema := "IFC2X3";
           instances :=
             [Samples.context 1 (PyInt 3) (PyEntity 3);
              Samples.instance 2 "IfcProject" [("GlobalId", PyStr "0"); ("Name", PyStr "Site")];
              Samples.direction 3 (PyList [PyFloat 0; PyFloat 1; PyFloat 0])] |}).
Proof.
  split; [reflexivity|]. split; [discriminate|].
  apply (legacy_without_property_sets_only_sets_true_north (api := Samples.common_psets)
           Samples.legacy_with_project _ (Ok tt) (Some Samples.false_origin)
           (Some Samples.crs_name) Samples.north).
  - reflexivity.
  - reflexivity.
  - intros project projects pset_name _ [<-|[<-|[]]]; left; reflexivity.
Defined.


(** On the legacy path, when the true-north step returns and the toolkit
    finds on the project a non-empty ePSet_ProjectedCRS that has no "id"
    key, the call raises KeyError and leaves the document as the true-north
    step left it: nothing is wrapped or edited. *)
Theorem property_set_without_id_raises_key_error `{api : PsetApi}
    (f g : file) (co pc : option dict) (tn : value) (project : nat) (projects : list nat)
    (item : string * value) (pset : dict) :
  schema f = "IFC2X3" ->
  set_true_north (settings_of co pc tn) f = (Ok tt, g) ->
  by_type f "IfcProject" true = project :: projects ->
  get_pset g project "ePSet_ProjectedCRS" = Some (item :: pset) ->
  assoc "id" (item :: pset) = None ->
  edit_georeferencing co pc tn f = (Raise KeyError, g).
Proof.
  intros Hs Hrun Hproject Hpset Hid. unfold edit_georeferencing. fold (settings_of co pc tn).
  rewrite (legacy_rest _ f g (Ok tt) Hs Hrun).
  pose proof (grows_set_true_north (settings_of co pc tn) f) as G. rewrite Hrun in G.
  simpl in G.
  unfold edit_property_sets, abind, read.
  rewrite (by_type_grows f g "IfcProject" true G eq_refl), Hproject.
  unfold edit_emulated, abind, read. rewrite Hpset. unfold pset_instance. rewrite Hid.
  reflexivity.
Qed.

Lemma property_set_without_id_witness :
  edit_georeferencing (H := Samples.nameless_psets) None (Some Samples.crs_name) PyNone
    Samples.legacy_with_project
  = (Raise KeyError, Samples.legacy_with_project).
Proof.
  apply (property_set_without_id_raises_key_error (api := Samples.nameless_psets)
           Samples.legacy_with_project Samples.legacy_with_project None
           (Some Samples.crs_name) PyNone 2 [] ("Name", PyStr "EPSG:7856") []);
    reflexivity.
Defined.


End GeoreferenceSpec.

(* ===================================================================== *)
(** * Properties of the style tools *)
(* ===================================================================== *)

Module StyleSpec.
Import Py Ifc Blender Style StyleTerms.
Local Open Scope result_scope.

(** ** The [bsdfs] dict *)

Lemma fold_insert_miss (l : list Node) (m : gmap string Node) (t : string) :
  (forall n, In n l -> type n <> t) ->
  fold_left (fun m n => <[type n := n]> m) l m !! t = m !! t.
Proof.
  revert m. induction l as [|n l IH]; intros m Hl; simpl; [reflexivity|].
  rewrite IH by (intros n' Hn'; apply Hl; right; exact Hn').
  apply lookup_insert_ne. apply Hl. left. reflexivity.
Qed.

Lemma fold_insert_hit (l : list Node) (m : gmap string Node) (t : string) (n : Node) :
  fold_left (fun m n => <[type n := n]> m) l m !! t = Some n ->
  (In n l /\ type n = t) \/ m !! t = Some n.
Proof.
  revert m. induction l as [|x l IH]; intros m H; simpl in H; [right; exact H|].
  destruct (IH _ H) as [[Hin Ht]|Hm].
  - left. split; [right; exact Hin | exact Ht].
  - destruct (decide (type x = t)) as [E|E].
    + rewrite <- E, lookup_insert_eq in Hm. injection Hm as <-.
      left. split; [left; reflexivity | exact E].
    + rewrite lookup_insert_ne in Hm by exact E. right. exact Hm.
Qed.

Lemma bsdfs_of_hit obj t n :
  bsdfs_of obj !! t = Some n -> In n (nodes obj) /\ type n = t.
Proof.
  intros H. apply fold_insert_hit in H. destruct H as [[Hin Ht]|H].
  - split; [|exact Ht]. apply List.filter_In in Hin. apply Hin.
  - rewrite lookup_empty in H. discriminate H.
Qed.

Lemma bsdfs_of_miss obj t :
  existsb (String.eqb t) (scanned_types obj) = false -> bsdfs_of obj !! t = None.
Proof.
  intros H. unfold bsdfs_of. rewrite fold_insert_miss; [apply lookup_empty|].
  intros n Hn E. assert (existsb (String.eqb t) (scanned_types obj) = true) as Hx.
  { apply existsb_exists. exists (type n). split.
    - unfold scanned_types. apply in_map. exact Hn.
    - apply String.eqb_eq. symmetry. exact E. }
  congruence.
Qed.

Lemma no_known_bsdf_miss obj t :
  no_known_bsdf obj = true -> In t known_bsdfs -> bsdfs_of obj !! t = None.
Proof.
  unfold no_known_bsdf. rewrite forallb_forall. intros H Ht.
  apply bsdfs_of_miss. specialize (H t Ht). destruct (existsb _ _); [discriminate H | reflexivity].
Qed.

Lemma viewport_colour_format c : color_to_ifc_format (rgba_value c) = Ok (ifc_colour c).
Proof. reflexivity. Qed.

(** ** The default record *)

(** The record of the last branch, reached when nothing is recognised. *)
Lemma last_branch_record (ifc_schema : string) (obj : Material)
    (surface_output : option Node) :
  get_input_node (get_material_node obj "OUTPUT_MATERIAL" true) (Some "Surface") None None
    = Ok surface_output ->
  is_mix_shader surface_output = None ->
  principled_surface surface_output = Ok None ->
  no_known_bsdf obj = true ->
  get_surface_rendering_attributes ifc_schema obj = Ok (default_attributes (viewport_color obj)).
Proof.
  intros Hsurface Hmix Hprincipled Hscan.
  unfold get_surface_rendering_attributes.
  rewrite viewport_colour_format. cbn [bind]. rewrite Hsurface. cbn [bind].
  rewrite Hmix, Hprincipled. cbn [bind].
  rewrite !(no_known_bsdf_miss obj _ Hscan) by (simpl; tauto).
  reflexivity.
Qed.

(** The default branch, where it is reached.  When the graph has an active
    material-output node with a "Surface" input, the node feeding it (if any)
    is neither a mix shader nor a principled BSDF nor an add shader fed by a
    principled BSDF, and no node with a linked output is glossy, diffuse,
    glass, emission or principled, the classifier returns the record of its
    last branch: NOTDEFINED, a null SpecularHighlight, and the viewport colour
    as both SurfaceColour and DiffuseColour. *)
Theorem unrecognised_graph_is_notdefined (ifc_schema : string) (obj : Material)
    (surface_output : option Node) :
  get_input_node (get_material_node obj "OUTPUT_MATERIAL" true) (Some "Surface") None None
    = Ok surface_output ->
  is_mix_shader surface_output = None ->
  principled_surface surface_output = Ok None ->
  no_known_bsdf obj = true ->
  get_surface_rendering_attributes ifc_schema obj = Ok (default_attributes (viewport_color obj))
  /\ default_attributes (viewport_color obj) !! "ReflectanceMethod" = Some (PyStr "NOTDEFINED")
  /\ default_attributes (viewport_color obj) !! "SpecularHighlight" = Some PyNone
  /\ default_attributes (viewport_color obj) !! "DiffuseColour"
     = Some (ifc_colour (viewport_color obj)).
Proof.
  intros Hsurface Hmix Hprincipled Hscan. split.
  - exact (last_branch_record ifc_schema obj surface_output Hsurface Hmix Hprincipled Hscan).
  - repeat split; reflexivity.
Qed.

Lemma unrecognised_graph_witness :
  get_surface_rendering_attributes "IFC4" Samples.unlinked_material
    = Ok (default_attributes (viewport_color Samples.unlinked_material))
  /\ default_attributes (viewport_color Samples.unlinked_material) !! "ReflectanceMethod"
     = Some (PyStr "NOTDEFINED")
  /\ default_attributes (viewport_color Samples.unlinked_material) !! "SpecularHighlight"
     = Some PyNone
  /\ default_attributes (viewport_color Samples.unlinked_material) !! "DiffuseColour"
     = Some (ifc_colour (viewport_color Samples.unlinked_material)).
Proof.
  apply (unrecognised_graph_is_notdefined "IFC4" Samples.unlinked_material None);
    reflexivity.
Defined.

(** C3 (the code at the failing input).  On an empty node graph, whatever
    the viewport colour and the schema, no node of a known type is scanned
    and no material-output node is found, and the classifier raises where the
    claim has it return the NOTDEFINED record: the default branch is never
    reached, because the "Surface" input is read off the missing output
    node. *)
Theorem empty_graph_raises (ifc_schema : string) (obj : Material) :
  nodes obj = [] ->
  no_known_bsdf obj = true
  /\ get_material_node obj "OUTPUT_MATERIAL" true = None
  /\ get_surface_rendering_attributes ifc_schema obj = Raise AttributeError.
Proof.
  intros Hnodes.
  assert (get_material_node obj "OUTPUT_MATERIAL" true = None) as Hout.
  { unfold get_material_node. rewrite Hnodes. reflexivity. }
  split; [|split; [exact Hout|]].
  - unfold no_known_bsdf, scanned_types. rewrite Hnodes. reflexivity.
  - unfold get_surface_rendering_attributes.
    rewrite viewport_colour_format. cbn [bind]. rewrite Hout. reflexivity.
Qed.

Lemma empty_graph_raises_witness :
  no_known_bsdf Samples.empty_material = true
  /\ get_material_node Samples.empty_material "OUTPUT_MATERIAL" true = None
  /\ get_surface_rendering_attributes "IFC4" Samples.empty_material = Raise AttributeError.
Proof. apply (empty_graph_raises "IFC4" Samples.empty_material). reflexivity. Defined.

(** ** The principled-BSDF branch *)

Lemma principled_is_not_mix (bsdf : Node) :
  type bsdf = "BSDF_PRINCIPLED" ->
  is_mix_shader (Some bsdf) = None /\ principled_surface (Some bsdf) = Ok (Some bsdf).
Proof. intros E. unfold is_mix_shader, principled_surface. rewrite E. split; reflexivity. Qed.

(** The record written when the surface output is a principled BSDF. *)
Lemma principled_surface_record (ifc_schema : string) (obj : Material) (bsdf : Node)
    (base colour : value) (metallic roughness opacity : float) :
  get_input_node (get_material_node obj "OUTPUT_MATERIAL" true) (Some "Surface") None None
    = Ok (Some bsdf) ->
  type bsdf = "BSDF_PRINCIPLED" ->
  input_default bsdf "Base Color" = Ok base ->
  color_to_ifc_format base = Ok colour ->
  input_default bsdf "Metallic" = Ok (PyFloat metallic) ->
  input_default bsdf "Roughness" = Ok (PyFloat roughness) ->
  input_default bsdf "Alpha" = Ok (PyFloat opacity) ->
  get_surface_rendering_attributes ifc_schema obj
    = Ok (<["DiffuseColour" := colour]>
           (<["Transparency" := PyFloat (1 - opacity)%float]>
             (<["SpecularHighlight" :=
                  PyDict [("IfcSpecularRoughness", PyFloat (round_float roughness 3))]]>
               (<["SpecularColour" := PyFloat (round_float metallic 3)]>
                 (<["ReflectanceMethod" := physical_or_notdefined ifc_schema]>
                   (<["Transparency" := PyFloat (1 - alpha (viewport_color obj))%float]>
                     (<["SurfaceColour" := ifc_colour (viewport_color obj)]> ∅))))))).
Proof.
  intros Hsurface Htype Hbase Hcolour Hmetallic Hroughness Halpha.
  destruct (principled_is_not_mix bsdf Htype) as [Hmix Hbound].
  unfold get_surface_rendering_attributes.
  rewrite viewport_colour_format. cbn [bind]. rewrite Hsurface. cbn [bind].
  rewrite Hmix, Hbound. cbn [bind]. unfold principled.
  rewrite Hbase. cbn [bind]. rewrite Hmetallic. cbn [bind round3].
  rewrite Hroughness. cbn [bind round3]. rewrite Halpha. cbn [bind one_minus].
  unfold finish. cbn [fst snd]. rewrite Hcolour. reflexivity.
Qed.

(** C4.  When the surface output is a principled BSDF with metallic 0.5001,
    roughness 0.2004 and alpha 0.8, the classifier returns SpecularColour 0.5
    and a SpecularHighlight roughness of 0.2 (both rounded to three
    decimals), and Transparency [1 - 0.8], the difference as the floats give
    it with no rounding applied, which is 0.2 at the three decimals the other
    two fields are rounded to; ReflectanceMethod is PHYSICAL for the IFC4X3
    schema and NOTDEFINED otherwise, and DiffuseColour is the converted base
    colour. *)
Theorem principled_surface_attributes (ifc_schema : string) (obj : Material) (bsdf : Node)
    (base colour : value) :
  get_input_node (get_material_node obj "OUTPUT_MATERIAL" true) (Some "Surface") None None
    = Ok (Some bsdf) ->
  type bsdf = "BSDF_PRINCIPLED" ->
  input_default bsdf "Base Color" = Ok base ->
  color_to_ifc_format base = Ok colour ->
  input_default bsdf "Metallic" = Ok (PyFloat 0.5001) ->
  input_default bsdf "Roughness" = Ok (PyFloat 0.2004) ->
  input_default bsdf "Alpha" = Ok (PyFloat 0.8) ->
  exists attributes,
    get_surface_rendering_attributes ifc_schema obj = Ok attributes
    /\ attributes !! "SpecularColour" = Some (PyFloat 0.5)
    /\ attributes !! "SpecularHighlight"
       = Some (PyDict [("IfcSpecularRoughness", PyFloat 0.2)])
    /\ attributes !! "Transparency" = Some (PyFloat (1 - 0.8)%float)
    /\ round_float (1 - 0.8) 3 = 0.2%float
    /\ attributes !! "ReflectanceMethod"
       = Some (PyStr (if String.eqb ifc_schema "IFC4X3" then "PHYSICAL" else "NOTDEFINED"))
    /\ attributes !! "DiffuseColour" = Some colour
    /\ attributes !! "SurfaceColour" = Some (ifc_colour (viewport_color obj)).
Proof.
  intros Hsurface Htype Hbase Hcolour Hmetallic Hroughness Halpha.
  eexists. split.
  { apply (principled_surface_record ifc_schema obj bsdf base colour _ _ _
             Hsurface Htype Hbase Hcolour Hmetallic Hroughness Halpha). }
  repeat split; try reflexivity.
  unfold physical_or_notdefined.
  destruct (String.eqb ifc_schema "IFC4X3"); reflexivity.
Qed.

Lemma principled_surface_attributes_witness :
  exists attributes,
    get_surface_rendering_attributes "IFC4X3" Samples.principled_material = Ok attributes
    /\ attributes !! "SpecularColour" = Some (PyFloat 0.5)
    /\ attributes !! "SpecularHighlight"
       = Some (PyDict [("IfcSpecularRoughness", PyFloat 0.2)])
    /\ attributes !! "Transparency" = Some (PyFloat (1 - 0.8)%float)
    /\ round_float (1 - 0.8) 3 = 0.2%float
    /\ attributes !! "ReflectanceMethod"
       = Some (PyStr (if String.eqb "IFC4X3" "IFC4X3" then "PHYSICAL" else "NOTDEFINED"))
    /\ attributes !! "DiffuseColour"
       = Some (PyDict [("Name", PyNone); ("Red", PyFloat 0.75); ("Green", PyFloat 0.5);
                       ("Blue", PyFloat 0.25)])
    /\ attributes !! "SurfaceColour"
       = Some (ifc_colour (viewport_color Samples.principled_material)).
Proof.
  apply (principled_surface_attributes "IFC4X3" Samples.principled_material
           (Samples.principled_node 0.5001 0.2004 0.8)
           (Samples.colour 0.75 0.5 0.25 1)); reflexivity.
Defined.

(** ** The mix-shader branch *)

(** C2 (the code at the failing input).  When the surface output is a mix
    shader that does not match the light-path / transparent / RGB-or-texture
    pattern, the classifier runs to completion and returns a record without
    a ReflectanceMethod key (and without SpecularHighlight): only the
    viewport colour and transparency are written. *)
Theorem unmatched_mix_shader_record (ifc_schema : string) (obj : Material) (mix_shader : Node) :
  get_input_node (get_material_node obj "OUTPUT_MATERIAL" true) (Some "Surface") None None
    = Ok (Some mix_shader) ->
  type mix_shader = "MIX_SHADER" ->
  flat_pattern mix_shader = Ok None ->
  exists attributes,
    get_surface_rendering_attributes ifc_schema obj = Ok attributes
    /\ attributes !! "ReflectanceMethod" = None
    /\ attributes !! "SpecularHighlight" = None
    /\ attributes
       = <["DiffuseColour" := ifc_colour (viewport_color obj)]>
           (<["Transparency" := PyFloat (1 - alpha (viewport_color obj))%float]>
              (<["SurfaceColour" := ifc_colour (viewport_color obj)]> ∅)).
Proof.
  intros Hsurface Htype Hpattern. eexists. split.
  - unfold get_surface_rendering_attributes.
    rewrite viewport_colour_format. cbn [bind]. rewrite Hsurface. cbn [bind].
    unfold is_mix_shader. rewrite Htype. cbn [String.eqb Ascii.eqb Bool.eqb].
    unfold mix_shader_branch. rewrite Hpattern. cbn [bind].
    unfold finish. cbn [fst snd]. rewrite viewport_colour_format. cbn [bind]. reflexivity.
  - repeat split; reflexivity.
Qed.

Lemma unmatched_mix_shader_witness :
  exists attributes,
    get_surface_rendering_attributes "IFC4" Samples.mix_material = Ok attributes
    /\ attributes !! "ReflectanceMethod" = None
    /\ attributes !! "SpecularHighlight" = None
    /\ attributes
       = <["DiffuseColour" := ifc_colour (viewport_color Samples.mix_material)]>
           (<["Transparency" := PyFloat (1 - alpha (viewport_color Samples.mix_material))%float]>
              (<["SurfaceColour" := ifc_colour (viewport_color Samples.mix_material)]> ∅)).
Proof.
  apply (unmatched_mix_shader_record "IFC4" Samples.mix_material Samples.bare_mix_shader);
    reflexivity.
Defined.

(** ** The classifier returns on well-formed materials *)

Lemma well_socketed_unfold (n : Node) :
  well_socketed n = true ->
  sockets_declared n = true
  /\ forall s l, In s (inputs n) -> In l (links s) -> well_socketed (from_node l) = true.
Proof.
  destruct n as [t a ins outs]. cbn [well_socketed inputs].
  intros H. apply andb_prop in H. destruct H as [Hd Hl]. split; [exact Hd|].
  intros s l Hs Hlk. rewrite forallb_forall in Hl. specialize (Hl s Hs).
  rewrite forallb_forall in Hl. exact (Hl l Hlk).
Qed.

Lemma has_input_named n input_name ok :
  has_input n input_name ok = true ->
  exists s, input_named n input_name = Ok s /\ In s (inputs n) /\ ok (default_value s) = true.
Proof.
  unfold has_input, input_named.
  destruct (find _ (inputs n)) as [s|] eqn:E; [|discriminate].
  intros H. exists s. repeat split; [|exact H]. apply find_some in E. apply E.
Qed.

Lemma has_input_default n input_name ok :
  has_input n input_name ok = true ->
  exists v, input_default n input_name = Ok v /\ ok v = true.
Proof.
  intros H. destruct (has_input_named _ _ _ H) as (s & E & _ & Hok).
  exists (default_value s). unfold input_default. rewrite E. split; [reflexivity | exact Hok].
Qed.

Lemma socket_at_some sockets i :
  i < length sockets -> exists s, socket_at sockets i = Ok s /\ In s sockets.
Proof.
  intros H. unfold socket_at. destruct (nth_error sockets i) as [s|] eqn:E.
  - exists s. split; [reflexivity|]. eapply nth_error_In. exact E.
  - apply nth_error_None in E. lia.
Qed.

(** A lookup through a pin that exists never raises; what it finds is
    upstream of the node. *)
Lemma pin_lookup (n : Node) (pin : NodeSocket Node) (of_type : option string) :
  well_socketed n = true -> In pin (inputs n) ->
  exists r,
    match nonempty of_type with
    | Some t =>
        Ok (option_map from_node
              (find (fun l => String.eqb (type (from_node l)) t) (links pin)))
    | None => Ok (option_map from_node (List.head (links pin)))
    end = Ok r
    /\ forall x, r = Some x -> well_socketed x = true.
Proof.
  intros Hn Hpin. destruct (well_socketed_unfold n Hn) as [_ Hup].
  destruct (nonempty of_type) as [t|]; eexists; (split; [reflexivity|]); intros x Hx.
  - destruct (find _ (links pin)) as [l|] eqn:E; [|discriminate Hx].
    injection Hx as <-. apply find_some in E. apply (Hup pin l Hpin), E.
  - destruct (links pin) as [|l ls] eqn:E; [discriminate Hx|].
    injection Hx as <-. apply (Hup pin l Hpin). rewrite E. left. reflexivity.
Qed.

Lemma get_input_node_named n input_name ok of_type :
  well_socketed n = true -> has_input n input_name ok = true ->
  exists r, get_input_node (Some n) (Some input_name) of_type None = Ok r
            /\ forall x, r = Some x -> well_socketed x = true.
Proof.
  intros Hn Hin. destruct (has_input_named _ _ _ Hin) as (s & E & Hs & _).
  unfold get_input_node. rewrite E. cbn [bind]. apply (pin_lookup n s of_type Hn Hs).
Qed.

Lemma get_input_node_at n i of_type :
  well_socketed n = true -> i < length (inputs n) ->
  exists r, get_input_node (Some n) None of_type (Some i) = Ok r
            /\ forall x, r = Some x -> well_socketed x = true.
Proof.
  intros Hn Hi. destruct (socket_at_some _ _ Hi) as (s & E & Hs).
  unfold get_input_node. rewrite E. cbn [bind]. apply (pin_lookup n s of_type Hn Hs).
Qed.

Lemma number_rounds v : is_number v = true -> exists w, round3 v = Ok w.
Proof. destruct v; try discriminate; intros _; eexists; reflexivity. Qed.

Lemma number_subtracts v : is_number v = true -> exists w, one_minus v = Ok w.
Proof. destruct v; try discriminate; intros _; eexists; reflexivity. Qed.

Lemma colour_converts v : is_colour v = true -> exists c, color_to_ifc_format v = Ok c.
Proof.
  destruct v; try discriminate; cbn [is_colour];
    destruct items as [|x [|y [|z items]]]; try discriminate; intros _; eexists; reflexivity.
Qed.

Lemma finish_returns attributes colour :
  is_colour colour = true -> exists r, finish (attributes, colour) = Ok r.
Proof.
  intros H. destruct (colour_converts _ H) as (c & E).
  unfold finish. cbn [fst snd]. rewrite E. eexists. reflexivity.
Qed.

Ltac sockets_of H T :=
  unfold sockets_declared in H; rewrite T in H;
  cbn [String.eqb Ascii.eqb Bool.eqb orb] in H;
  repeat (let X := fresh "Hin" in apply andb_prop in H; destruct H as [H X]).

Lemma principled_returns ifc_schema attributes bsdf :
  well_socketed bsdf = true -> type bsdf = "BSDF_PRINCIPLED" ->
  exists r, (chosen <- principled ifc_schema attributes bsdf ;; finish chosen) = Ok r.
Proof.
  intros Hn Ht. destruct (well_socketed_unfold _ Hn) as [Hd _]. sockets_of Hd Ht.
  destruct (has_input_default _ _ _ Hd) as (base & Ebase & Hbase).
  destruct (has_input_default _ _ _ Hin1) as (m & Em & Hm).
  destruct (has_input_default _ _ _ Hin0) as (r & Er & Hr).
  destruct (has_input_default _ _ _ Hin) as (a & Ea & Ha).
  destruct (number_rounds _ Hm) as (m' & Em').
  destruct (number_rounds _ Hr) as (r' & Er').
  destruct (number_subtracts _ Ha) as (a' & Ea').
  unfold principled. rewrite Ebase. cbn [bind]. rewrite Em. cbn [bind]. rewrite Em'. cbn [bind].
  rewrite Er. cbn [bind]. rewrite Er'. cbn [bind]. rewrite Ea. cbn [bind]. rewrite Ea'. cbn [bind].
  apply finish_returns, Hbase.
Qed.

Lemma rough_bsdf_returns method attributes bsdf :
  well_socketed bsdf = true ->
  type bsdf = "BSDF_GLOSSY" \/ type bsdf = "BSDF_DIFFUSE" \/ type bsdf = "BSDF_GLASS" ->
  exists r, (chosen <- rough_bsdf method attributes bsdf ;; finish chosen) = Ok r.
Proof.
  intros Hn Ht. destruct (well_socketed_unfold _ Hn) as [Hd _].
  assert (has_input bsdf "Roughness" is_number = true
          /\ has_input bsdf "Color" is_colour = true) as [Hr Hc].
  { destruct Ht as [Ht|[Ht|Ht]]; sockets_of Hd Ht; split; assumption. }
  destruct (has_input_default _ _ _ Hr) as (r & Er & Hr').
  destruct (has_input_default _ _ _ Hc) as (c & Ec & Hc').
  destruct (number_rounds _ Hr') as (r' & Er').
  unfold rough_bsdf. rewrite Er. cbn [bind]. rewrite Er'. cbn [bind]. rewrite Ec. cbn [bind].
  apply finish_returns, Hc'.
Qed.

Lemma emission_returns attributes bsdf :
  well_socketed bsdf = true -> type bsdf = "EMISSION" ->
  exists r, (chosen <- emission attributes bsdf ;; finish chosen) = Ok r.
Proof.
  intros Hn Ht. destruct (well_socketed_unfold _ Hn) as [Hd _]. sockets_of Hd Ht.
  destruct (has_input_default _ _ _ Hd) as (c & Ec & Hc').
  unfold emission. rewrite Ec. cbn [bind]. apply finish_returns, Hc'.
Qed.

Lemma flat_pattern_returns mix_shader :
  well_socketed mix_shader = true -> type mix_shader = "MIX_SHADER" ->
  exists r, flat_pattern mix_shader = Ok r
            /\ forall x, r = Some x ->
                 well_socketed x = true /\ (type x = "RGB" \/ type x = "TEX_IMAGE").
Proof.
  intros Hn Ht. destruct (well_socketed_unfold _ Hn) as [Hd _]. sockets_of Hd Ht.
  apply Nat.leb_le in Hin.
  destruct (get_input_node_named _ _ _ (Some "LIGHT_PATH") Hn Hd) as (fac & Efac & _).
  destruct (get_input_node_at mix_shader 1 (Some "BSDF_TRANSPARENT") Hn ltac:(lia))
    as (tr & Etr & _).
  destruct (get_input_node_at mix_shader 2 None Hn ltac:(lia)) as (snd_in & Esnd & Hsnd).
  unfold flat_pattern. rewrite Efac. cbn [bind].
  destruct fac; [|eexists; split; [reflexivity | discriminate]].
  rewrite Etr. cbn [bind].
  destruct tr; [|eexists; split; [reflexivity | discriminate]].
  rewrite Esnd. cbn [bind].
  destruct snd_in as [x|]; [|eexists; split; [reflexivity | discriminate]].
  destruct (String.eqb (type x) "RGB") eqn:Ergb; cbn [orb].
  - eexists. split; [reflexivity|]. intros y Hy. injection Hy as <-.
    split; [apply Hsnd; reflexivity | left; apply String.eqb_eq, Ergb].
  - destruct (String.eqb (type x) "TEX_IMAGE") eqn:Etex.
    + eexists. split; [reflexivity|]. intros y Hy. injection Hy as <-.
      split; [apply Hsnd; reflexivity | right; apply String.eqb_eq, Etex].
    + eexists. split; [reflexivity | discriminate].
Qed.

Lemma viewport_is_colour c : is_colour (rgba_value c) = true.
Proof. reflexivity. Qed.

Lemma mix_shader_returns props attributes c mix_shader :
  is_colour (diffuse_color props) = true ->
  well_socketed mix_shader = true -> type mix_shader = "MIX_SHADER" ->
  exists r, (chosen <- mix_shader_branch props attributes (rgba_value c) mix_shader ;;
             finish chosen) = Ok r.
Proof.
  intros Hprops Hn Ht. destruct (flat_pattern_returns _ Hn Ht) as (m & Em & Hm).
  unfold mix_shader_branch. rewrite Em. cbn [bind].
  destruct m as [x|]; [|apply finish_returns, viewport_is_colour].
  destruct (Hm x eq_refl) as [Hx [Hrgb|Htex]].
  - rewrite Hrgb. cbn [String.eqb Ascii.eqb Bool.eqb].
    destruct (well_socketed_unfold _ Hx) as [Hd _]. sockets_of Hd Hrgb.
    unfold socket_at. destruct (outputs x) as [|o os]; [discriminate Hd|].
    cbn [nth_error bind]. apply finish_returns, Hd.
  - rewrite Htex. cbn [String.eqb Ascii.eqb Bool.eqb]. apply finish_returns, Hprops.
Qed.

Lemma is_mix_shader_some surface mix_shader :
  is_mix_shader surface = Some mix_shader ->
  surface = Some mix_shader /\ type mix_shader = "MIX_SHADER".
Proof.
  unfold is_mix_shader. destruct surface as [s|]; [|discriminate].
  destruct (String.eqb (type s) "MIX_SHADER") eqn:E; [|discriminate].
  intros H. injection H as <-. split; [reflexivity | apply String.eqb_eq, E].
Qed.

Lemma principled_surface_returns surface :
  (forall x, surface = Some x -> well_socketed x = true) ->
  exists r, principled_surface surface = Ok r
            /\ forall x, r = Some x -> well_socketed x = true /\ type x = "BSDF_PRINCIPLED".
Proof.
  intros Hup. unfold principled_surface. destruct surface as [s|].
  2: { eexists. split; [reflexivity | discriminate]. }
  specialize (Hup s eq_refl).
  destruct (String.eqb (type s) "BSDF_PRINCIPLED") eqn:Ep.
  { eexists. split; [reflexivity|]. intros x Hx. injection Hx as <-.
    split; [exact Hup | apply String.eqb_eq, Ep]. }
  destruct (String.eqb (type s) "ADD_SHADER") eqn:Ea.
  2: { eexists. split; [reflexivity | discriminate]. }
  apply String.eqb_eq in Ea.
  destruct (well_socketed_unfold _ Hup) as [Hd Hlinks]. sockets_of Hd Ea.
  apply Nat.leb_le in Hd.
  destruct (socket_at_some (inputs s) 1 ltac:(lia)) as (pin & Epin & Hpin).
  unfold get_input_node. rewrite Epin. cbn [bind nonempty String.eqb].
  eexists. split; [reflexivity|]. intros x Hx.
  destruct (find _ (links pin)) as [l|] eqn:E; [|discriminate Hx].
  injection Hx as <-. apply find_some in E. destruct E as [Hl Ht].
  split; [apply (Hlinks pin l Hpin Hl) | apply String.eqb_eq, Ht].
Qed.

(** Where the classifier does not fail.  On every material whose nodes
    carry the sockets the editor declares for their types and whose graph has
    an active material-output node, the classifier returns a record (for
    every viewport colour and schema): lookups that find no upstream node
    yield None and never raise, and when nothing is recognised (the surface
    output is not a mix shader) the record is the NOTDEFINED default. *)
Theorem classifier_returns_with_output_node (ifc_schema : string) (obj : Material)
    (material_output : Node) :
  well_formed_material obj = true ->
  get_material_node obj "OUTPUT_MATERIAL" true = Some material_output ->
  exists surface_output attributes,
    get_input_node (Some material_output) (Some "Surface") None None = Ok surface_output
    /\ get_surface_rendering_attributes ifc_schema obj = Ok attributes
    /\ (is_mix_shader surface_output = None ->
        principled_surface surface_output = Ok None ->
        no_known_bsdf obj = true ->
        attributes = default_attributes (viewport_color obj)).
Proof.
  intros Hwf Hout. unfold well_formed_material in Hwf.
  apply andb_prop in Hwf. destruct Hwf as [Hnodes Hprops].
  rewrite forallb_forall in Hnodes.
  pose proof Hout as Hfound.
  unfold get_material_node in Hfound. pose proof (find_some _ _ Hfound) as [Hin Hkind].
  apply andb_prop in Hkind. destruct Hkind as [Hkind _]. apply String.eqb_eq in Hkind.
  pose proof (Hnodes _ Hin) as Hmo.
  destruct (well_socketed_unfold _ Hmo) as [Hd _]. sockets_of Hd Hkind.
  destruct (get_input_node_named _ _ _ None Hmo Hd) as (surface & Esurface & Hsurface).
  exists surface.
  assert (exists attributes, get_surface_rendering_attributes ifc_schema obj = Ok attributes)
    as (attributes & E).
  { unfold get_surface_rendering_attributes.
    rewrite viewport_colour_format. cbn [bind].
    rewrite Hout, Esurface. cbn [bind].
    destruct (is_mix_shader surface) as [mix|] eqn:Emix.
    { apply is_mix_shader_some in Emix. destruct Emix as [-> Hmix].
      apply mix_shader_returns; [exact Hprops | apply Hsurface; reflexivity | exact Hmix]. }
    destruct (principled_surface_returns surface Hsurface) as (bound & Ebound & Hbound).
    rewrite Ebound. cbn [bind].
    destruct bound as [bsdf|].
    { destruct (Hbound bsdf eq_refl). apply principled_returns; assumption. }
    destruct (bsdfs_of obj !! "BSDF_GLOSSY") as [bsdf|] eqn:E1.
    { apply bsdfs_of_hit in E1. destruct E1 as [Hn Ht].
      apply rough_bsdf_returns; [apply Hnodes, Hn | tauto]. }
    destruct (bsdfs_of obj !! "BSDF_DIFFUSE") as [bsdf|] eqn:E2.
    { apply bsdfs_of_hit in E2. destruct E2 as [Hn Ht].
      apply rough_bsdf_returns; [apply Hnodes, Hn | tauto]. }
    destruct (bsdfs_of obj !! "BSDF_GLASS") as [bsdf|] eqn:E3.
    { apply bsdfs_of_hit in E3. destruct E3 as [Hn Ht].
      apply rough_bsdf_returns; [apply Hnodes, Hn | tauto]. }
    destruct (bsdfs_of obj !! "EMISSION") as [bsdf|] eqn:E4.
    { apply bsdfs_of_hit in E4. destruct E4 as [Hn Ht].
      apply emission_returns; [apply Hnodes, Hn | exact Ht]. }
    destruct (bsdfs_of obj !! "BSDF_PRINCIPLED") as [bsdf|] eqn:E5.
    { apply bsdfs_of_hit in E5. destruct E5 as [Hn Ht].
      apply principled_returns; [apply Hnodes, Hn | exact Ht]. }
    eexists. reflexivity. }
  exists attributes. split; [exact Esurface|]. split; [exact E|].
  intros Hmix Hprincipled Hscan.
  rewrite <- Hout in Esurface.
  rewrite (last_branch_record ifc_schema obj surface Esurface Hmix Hprincipled Hscan) in E.
  injection E as <-. reflexivity.
Qed.

Lemma classifier_returns_witness :
  exists surface_output attributes,
    get_input_node (Some (Samples.output_node [])) (Some "Surface") None None
      = Ok surface_output
    /\ get_surface_rendering_attributes "IFC4" Samples.unlinked_material = Ok attributes
    /\ (is_mix_shader surface_output = None ->
        principled_surface surface_output = Ok None ->
        no_known_bsdf Samples.unlinked_material = true ->
        attributes = default_attributes (viewport_color Samples.unlinked_material)).
Proof.
  apply (classifier_returns_with_output_node "IFC4" Samples.unlinked_material
           (Samples.output_node [])); reflexivity.
Defined.

(** C9 (the code at the failing input).  On every material whose graph has
    no active material-output node, whatever else the graph holds, the lookup
    of the node feeding the "Surface" input is made on None and raises, and
    with it the classifier: no branch is chosen and no record is returned. *)
Theorem classifier_raises_without_output_node (ifc_schema : string) (obj : Material) :
  get_material_node obj "OUTPUT_MATERIAL" true = None ->
  get_input_node (get_material_node obj "OUTPUT_MATERIAL" true) (Some "Surface") None None
    = Raise AttributeError
  /\ get_surface_rendering_attributes ifc_schema obj = Raise AttributeError.
Proof.
  intros Hout. split.
  - rewrite Hout. reflexivity.
  - unfold get_surface_rendering_attributes.
    rewrite viewport_colour_format. cbn [bind]. rewrite Hout. reflexivity.
Qed.

Lemma classifier_raises_without_output_node_witness :
  get_input_node (get_material_node Samples.headless_material "OUTPUT_MATERIAL" true)
    (Some "Surface") None None = Raise AttributeError
  /\ get_surface_rendering_attributes "IFC4" Samples.headless_material
     = Raise AttributeError.
Proof.
  apply (classifier_raises_without_output_node "IFC4" Samples.headless_material).
  reflexivity.
Defined.

(** ** The styled-items traversal *)

Lemma pop_singleton {A} (x : A) : pop [x] = Some ([], x).
Proof. reflexivity. Qed.

(** C8.  For a style whose only referrer is a style assignment, itself
    referred to only by a styled item whose [Item] is a mapped item,
    [get_styled_items] (given two turns of fuel or more) returns exactly
    the items of the mapped representation; when those are concrete geometry
    items, neither the assignment nor the mapped item is among them. *)
Theorem styled_items_unwrap_assignment_and_mapped_item (f : file)
    (style assignment styled_item mapped_item source representation : nat)
    (items : list value) (fuel : nat) :
  get_inverse f style = [assignment] ->
  value_is_a f (PyEntity assignment) "IfcPresentationStyleAssignment" = Ok true ->
  get_inverse f assignment = [styled_item] ->
  value_is_a f (PyEntity styled_item) "IfcPresentationStyleAssignment" = Ok false ->
  attribute f styled_item "Item" = Ok (PyEntity mapped_item) ->
  value_is_a f (PyEntity mapped_item) "IfcMappedItem" = Ok true ->
  attribute f mapped_item "MappingSource" = Ok (PyEntity source) ->
  attribute f source "MappedRepresentation" = Ok (PyEntity representation) ->
  attribute f representation "Items" = Ok (PyTuple items) ->
  Forall (fun item => value_is_a f item "IfcMappedItem" = Ok false
                      /\ value_is_a f item "IfcPresentationStyleAssignment" = Ok false)
         items ->
  2 <= fuel ->
  get_styled_items fuel f style = Some (Ok items)
  /\ ~ In (PyEntity assignment) items
  /\ ~ In (PyEntity mapped_item) items.
Proof.
  intros Hstyle Hassign Hwrapped Hitem_kind Hitem Hmapped Hsource Hrep Hitems Hconcrete Hfuel.
  split; [|split].
  - destruct fuel as [|[|fuel]]; [lia | lia |].
    unfold get_styled_items. rewrite Hstyle.
    cbn [styled_items_loop]. rewrite pop_singleton, Hassign, Hwrapped.
    cbn [app styled_items_loop]. rewrite pop_singleton, Hitem_kind, Hitem.
    cbn [truthy negb]. rewrite Hmapped.
    cbn [value_attribute]. rewrite Hsource. cbn [bind value_attribute].
    rewrite Hrep. cbn [bind value_attribute]. rewrite Hitems. cbn [bind extend app].
    destruct fuel; reflexivity.
  - intros Hin. rewrite List.Forall_forall in Hconcrete.
    destruct (Hconcrete _ Hin) as [_ H]. congruence.
  - intros Hin. rewrite List.Forall_forall in Hconcrete.
    destruct (Hconcrete _ Hin) as [H _]. congruence.
Qed.

Lemma styled_items_witness :
  get_styled_items 2 Samples.styled_document 1 = Some (Ok [PyEntity 7; PyEntity 8])
  /\ ~ In (PyEntity 2) [PyEntity 7; PyEntity 8]
  /\ ~ In (PyEntity 4) [PyEntity 7; PyEntity 8].
Proof.
  apply (styled_items_unwrap_assignment_and_mapped_item
           Samples.styled_document 1 2 3 4 5 6 [PyEntity 7; PyEntity 8] 2);
    first [reflexivity | lia | repeat constructor].
Defined.

(** ** The reflectance method and the specular highlight *)

Ltac bind_ok H :=
  repeat match type of H with
  | bind ?m _ = Ok _ =>
      let E := fresh "E" in destruct m eqn:E; cbn [bind] in H; [|discriminate H]
  end.

Lemma finish_keeps (chosen : Attributes * value) attributes key :
  finish chosen = Ok attributes -> key <> "DiffuseColour" ->
  attributes !! key = fst chosen !! key.
Proof.
  unfold finish. intros H Hkey. bind_ok H. injection H as <-.
  apply lookup_insert_ne. congruence.
Qed.

Lemma principled_method ifc_schema (attributes : Attributes) bsdf chosen :
  principled ifc_schema attributes bsdf = Ok chosen ->
  fst chosen !! "ReflectanceMethod" = Some (physical_or_notdefined ifc_schema).
Proof.
  unfold principled. intros H. bind_ok H. injection H as <-. cbn [fst].
  rewrite !lookup_insert_ne by discriminate. apply lookup_insert_eq.
Qed.

Lemma rough_bsdf_method method (attributes : Attributes) bsdf chosen :
  rough_bsdf method attributes bsdf = Ok chosen ->
  fst chosen !! "ReflectanceMethod" = Some (PyStr method).
Proof.
  unfold rough_bsdf. intros H. bind_ok H. injection H as <-. cbn [fst].
  rewrite !lookup_insert_ne by discriminate. apply lookup_insert_eq.
Qed.

Lemma emission_highlight (attributes : Attributes) bsdf chosen :
  emission attributes bsdf = Ok chosen ->
  fst chosen !! "SpecularHighlight" = Some PyNone.
Proof.
  unfold emission. intros H. bind_ok H. injection H as <-. cbn [fst].
  apply lookup_insert_eq.
Qed.

Lemma mix_shader_highlight props (attributes : Attributes) diffuse_color mix_shader chosen :
  mix_shader_branch props attributes diffuse_color mix_shader = Ok chosen ->
  fst chosen = attributes \/ fst chosen !! "SpecularHighlight" = Some PyNone.
Proof.
  unfold mix_shader_branch. intros H.
  destruct (flat_pattern mix_shader) as [[second|]|]; cbn [bind] in H;
    [|injection H as <-; left; reflexivity | discriminate H].
  right. destruct (String.eqb (type second) "RGB").
  - bind_ok H. injection H as <-. apply lookup_insert_eq.
  - destruct (String.eqb (type second) "TEX_IMAGE"); injection H as <-; apply lookup_insert_eq.
Qed.

(** Whenever the classifier returns a record whose ReflectanceMethod is
    FLAT, the SpecularHighlight of the record is null. *)
Theorem flat_has_no_specular_highlight (ifc_schema : string) (obj : Material)
    (attributes : Attributes) :
  get_surface_rendering_attributes ifc_schema obj = Ok attributes ->
  attributes !! "ReflectanceMethod" = Some (PyStr "FLAT") ->
  attributes !! "SpecularHighlight" = Some PyNone.
Proof.
  unfold get_surface_rendering_attributes. intros H Hflat.
  destruct (color_to_ifc_format (rgba_value (viewport_color obj))) as [viewport|] eqn:Ev;
    cbn [bind] in H; [|discriminate H].
  destruct (get_input_node _ (Some "Surface") None None) as [surface_output|] eqn:Es;
    cbn [bind] in H; [|discriminate H].
  assert (forall method bsdf,
            (chosen <- rough_bsdf method
               (<["Transparency" := PyFloat (1 - alpha (viewport_color obj))%float]>
                  (<["SurfaceColour" := viewport]> ∅)) bsdf ;; finish chosen)%result
            = Ok attributes ->
            method <> "FLAT" -> attributes !! "SpecularHighlight" = Some PyNone) as Hrough.
  { intros method bsdf Hr Hm. bind_ok Hr.
    rewrite (finish_keeps _ _ "ReflectanceMethod" Hr) in Hflat by discriminate.
    rewrite (rough_bsdf_method _ _ _ _ E) in Hflat. congruence. }
  assert (forall bsdf,
            (chosen <- principled ifc_schema
               (<["Transparency" := PyFloat (1 - alpha (viewport_color obj))%float]>
                  (<["SurfaceColour" := viewport]> ∅)) bsdf ;; finish chosen)%result
            = Ok attributes ->
            attributes !! "SpecularHighlight" = Some PyNone) as Hprincipled.
  { intros bsdf Hr. bind_ok Hr.
    rewrite (finish_keeps _ _ "ReflectanceMethod" Hr) in Hflat by discriminate.
    rewrite (principled_method _ _ _ _ E) in Hflat. unfold physical_or_notdefined in Hflat.
    destruct (negb _); discriminate Hflat. }
  destruct (is_mix_shader surface_output) as [mix_shader|].
  { bind_ok H. rewrite (finish_keeps _ _ "SpecularHighlight" H) by discriminate.
    destruct (mix_shader_highlight _ _ _ _ _ E) as [Esame|Hnull]; [|exact Hnull].
    rewrite (finish_keeps _ _ "ReflectanceMethod" H), Esame in Hflat by discriminate.
    rewrite !lookup_insert_ne in Hflat by discriminate. discriminate Hflat. }
  destruct (principled_surface surface_output) as [bound|]; cbn [bind] in H; [|discriminate H].
  destruct bound as [bsdf|]; [exact (Hprincipled bsdf H)|].
  destruct (bsdfs_of obj !! "BSDF_GLOSSY") as [bsdf|];
    [apply (Hrough "METAL" bsdf H); discriminate|].
  destruct (bsdfs_of obj !! "BSDF_DIFFUSE") as [bsdf|];
    [apply (Hrough "MATT" bsdf H); discriminate|].
  destruct (bsdfs_of obj !! "BSDF_GLASS") as [bsdf|];
    [apply (Hrough "GLASS" bsdf H); discriminate|].
  destruct (bsdfs_of obj !! "EMISSION") as [bsdf|].
  { bind_ok H. rewrite (finish_keeps _ _ "SpecularHighlight" H) by discriminate.
    exact (emission_highlight _ _ _ E). }
  destruct (bsdfs_of obj !! "BSDF_PRINCIPLED") as [bsdf|]; [exact (Hprincipled bsdf H)|].
  injection H as <-. rewrite lookup_insert_ne by discriminate. apply lookup_insert_eq.
Qed.

Lemma flat_has_no_specular_highlight_witness :
  exists attributes,
    get_surface_rendering_attributes "IFC4" Samples.flat_material = Ok attributes
    /\ attributes !! "ReflectanceMethod" = Some (PyStr "FLAT")
    /\ attributes !! "SpecularHighlight" = Some PyNone.
Proof.
  eexists. split; [reflexivity|]. split; [reflexivity|].
  apply (flat_has_no_specular_highlight "IFC4" Samples.flat_material); reflexivity.
Defined.

Import StyleQueries.

(** ** The record of each branch *)

Lemma finish_record (chosen : Attributes * value) attributes :
  finish chosen = Ok attributes ->
  exists colour, attributes = <["DiffuseColour" := colour]> (fst chosen).
Proof. unfold finish. intros H. bind_ok H. injection H as <-. eauto. Qed.

Lemma principled_record ifc_schema (attributes : Attributes) bsdf chosen :
  principled ifc_schema attributes bsdf = Ok chosen ->
  exists specular highlight transparency,
    fst chosen
    = <["Transparency" := transparency]>
        (<["SpecularHighlight" := highlight]>
           (<["SpecularColour" := specular]>
              (<["ReflectanceMethod" := physical_or_notdefined ifc_schema]> attributes))).
Proof. unfold principled. intros H. bind_ok H. injection H as <-. cbn [fst]. eauto. Qed.

Lemma rough_bsdf_record method (attributes : Attributes) bsdf chosen :
  rough_bsdf method attributes bsdf = Ok chosen ->
  exists highlight,
    fst chosen
    = <["SpecularHighlight" := highlight]> (<["ReflectanceMethod" := PyStr method]> attributes).
Proof. unfold rough_bsdf. intros H. bind_ok H. injection H as <-. cbn [fst]. eauto. Qed.

Lemma emission_record (attributes : Attributes) bsdf chosen :
  emission attributes bsdf = Ok chosen ->
  fst chosen
  = <["SpecularHighlight" := PyNone]> (<["ReflectanceMethod" := PyStr "FLAT"]> attributes).
Proof. unfold emission. intros H. bind_ok H. injection H as <-. reflexivity. Qed.

Lemma mix_shader_record props (attributes : Attributes) diffuse_color mix_shader chosen :
  mix_shader_branch props attributes diffuse_color mix_shader = Ok chosen ->
  (flat_pattern mix_shader = Ok None /\ fst chosen = attributes)
  \/ ((exists second, flat_pattern mix_shader = Ok (Some second))
      /\ fst chosen
         = <["SpecularHighlight" := PyNone]>
             (<["ReflectanceMethod" := PyStr "FLAT"]> attributes)).
Proof.
  unfold mix_shader_branch. intros H.
  destruct (flat_pattern mix_shader) as [[second|]|]; cbn [bind] in H;
    [|injection H as <-; left; split; reflexivity | discriminate H].
  right. split; [eauto|]. destruct (String.eqb (type second) "RGB").
  - bind_ok H. injection H as <-. reflexivity.
  - destruct (String.eqb (type second) "TEX_IMAGE"); injection H as <-; reflexivity.
Qed.

(** The branch a returned record comes from. *)
Lemma classifier_branches ifc_schema obj attributes :
  get_surface_rendering_attributes ifc_schema obj = Ok attributes ->
  exists surface_output,
    get_input_node (get_material_node obj "OUTPUT_MATERIAL" true) (Some "Surface") None None
      = Ok surface_output
    /\ ((exists mix_shader chosen,
           is_mix_shader surface_output = Some mix_shader
           /\ mix_shader_branch (BIMStyleProperties obj) (initial_attributes (viewport_color obj))
                (rgba_value (viewport_color obj)) mix_shader = Ok chosen
           /\ finish chosen = Ok attributes)
        \/ (is_mix_shader surface_output = None
            /\ ((exists bsdf chosen,
                   principled ifc_schema (initial_attributes (viewport_color obj)) bsdf = Ok chosen
                   /\ finish chosen = Ok attributes)
                \/ (exists method bsdf chosen,
                      In method ["METAL"; "MATT"; "GLASS"]
                      /\ rough_bsdf method (initial_attributes (viewport_color obj)) bsdf
                         = Ok chosen
                      /\ finish chosen = Ok attributes)
                \/ (exists bsdf chosen,
                      emission (initial_attributes (viewport_color obj)) bsdf = Ok chosen
                      /\ finish chosen = Ok attributes)
                \/ attributes = default_attributes (viewport_color obj)))).
Proof.
  unfold get_surface_rendering_attributes. rewrite viewport_colour_format. cbn [bind].
  fold (initial_attributes (viewport_color obj)). intros H.
  destruct (get_input_node _ (Some "Surface") None None) as [surface_output|] eqn:Es;
    cbn [bind] in H; [|discriminate H].
  exists surface_output. split; [reflexivity|].
  destruct (is_mix_shader surface_output) as [mix_shader|].
  { left. destruct (mix_shader_branch _ _ _ mix_shader) as [chosen|] eqn:E;
      cbn [bind] in H; [|discriminate H]. eauto. }
  right. split; [reflexivity|].
  assert (forall bsdf,
            bind (principled ifc_schema (initial_attributes (viewport_color obj)) bsdf) finish
            = Ok attributes ->
            exists bsdf chosen,
              principled ifc_schema (initial_attributes (viewport_color obj)) bsdf = Ok chosen
              /\ finish chosen = Ok attributes) as Hprincipled.
  { intros bsdf Hr. destruct (principled _ _ bsdf) as [chosen|] eqn:E;
      cbn [bind] in Hr; [|discriminate Hr]. eauto. }
  assert (forall method bsdf,
            In method ["METAL"; "MATT"; "GLASS"] ->
            bind (rough_bsdf method (initial_attributes (viewport_color obj)) bsdf) finish
            = Ok attributes ->
            exists method bsdf chosen,
              In method ["METAL"; "MATT"; "GLASS"]
              /\ rough_bsdf method (initial_attributes (viewport_color obj)) bsdf = Ok chosen
              /\ finish chosen = Ok attributes) as Hrough.
  { intros method bsdf Hm Hr. destruct (rough_bsdf method _ bsdf) as [chosen|] eqn:E;
      cbn [bind] in Hr; [|discriminate Hr]. eauto 6. }
  destruct (principled_surface surface_output) as [bound|]; cbn [bind] in H; [|discriminate H].
  destruct bound as [bsdf|]; [left; exact (Hprincipled bsdf H)|].
  destruct (bsdfs_of obj !! "BSDF_GLOSSY") as [bsdf|];
    [right; left; apply (Hrough "METAL" bsdf); [simpl; auto | exact H]|].
  destruct (bsdfs_of obj !! "BSDF_DIFFUSE") as [bsdf|];
    [right; left; apply (Hrough "MATT" bsdf); [simpl; auto | exact H]|].
  destruct (bsdfs_of obj !! "BSDF_GLASS") as [bsdf|];
    [right; left; apply (Hrough "GLASS" bsdf); [simpl; auto | exact H]|].
  destruct (bsdfs_of obj !! "EMISSION") as [bsdf|].
  { right; right; left. destruct (emission _ bsdf) as [chosen|] eqn:E;
      cbn [bind] in H; [|discriminate H]. eauto. }
  destruct (bsdfs_of obj !! "BSDF_PRINCIPLED") as [bsdf|]; [left; exact (Hprincipled bsdf H)|].
  right; right; right. injection H as <-. reflexivity.
Qed.

Ltac lookups :=
  repeat first
    [ rewrite lookup_insert_eq
    | rewrite lookup_insert_ne by discriminate
    | rewrite lookup_empty ].

Ltac branch_records H :=
  repeat match goal with
  | E : finish _ = Ok _ |- _ =>
      let c := fresh "colour" in destruct (finish_record _ _ E) as (c & ->); clear E
  | E : principled _ _ _ = Ok _ |- _ =>
      let a := fresh "specular" in let b := fresh "highlight" in let c := fresh "transparency" in
      let E' := fresh "E" in
      destruct (principled_record _ _ _ _ E) as (a & b & c & E'); rewrite E' in *; clear E E'
  | E : rough_bsdf _ _ _ = Ok _ |- _ =>
      let b := fresh "highlight" in let E' := fresh "E" in
      destruct (rough_bsdf_record _ _ _ _ E) as (b & E'); rewrite E' in *; clear E E'
  | E : emission _ _ = Ok _ |- _ => rewrite (emission_record _ _ _ E) in *; clear E
  end.

(** ** What every returned record holds *)

Lemma shading_attributes_returned ifc_schema obj :
  get_surface_shading_attributes ifc_schema obj
  = Ok (if String.eqb ifc_schema "IFC2X3"
        then delete "Transparency" (initial_attributes (viewport_color obj))
        else initial_attributes (viewport_color obj)).
Proof. reflexivity. Qed.

(** Every record the classifier returns has the SurfaceColour of the
    shading attributes of the material, a DiffuseColour and a Transparency;
    unless a principled BSDF was read (the record then has a
    SpecularColour), the Transparency is the one of the shading attributes
    too. *)
Theorem rendering_attributes_extend_shading_attributes
    (ifc_schema other_schema : string) (obj : Material) (attributes : Attributes) :
  get_surface_rendering_attributes ifc_schema obj = Ok attributes ->
  exists shading,
    get_surface_shading_attributes other_schema obj = Ok shading
    /\ attributes !! "SurfaceColour" = Some (ifc_colour (viewport_color obj))
    /\ shading !! "SurfaceColour" = Some (ifc_colour (viewport_color obj))
    /\ is_Some (attributes !! "DiffuseColour")
    /\ is_Some (attributes !! "Transparency")
    /\ (attributes !! "SpecularColour" = None -> other_schema <> "IFC2X3" ->
        attributes !! "Transparency" = shading !! "Transparency").
Proof.
  intros H.
  set (shading := if String.eqb other_schema "IFC2X3"
                  then delete "Transparency" (initial_attributes (viewport_color obj))
                  else initial_attributes (viewport_color obj)).
  exists shading. split; [apply shading_attributes_returned|].
  assert (shading !! "SurfaceColour" = Some (ifc_colour (viewport_color obj))) as Hshading.
  { subst shading. destruct (String.eqb other_schema "IFC2X3");
      [rewrite lookup_delete_ne by discriminate|]; unfold initial_attributes; lookups;
      reflexivity. }
  assert (other_schema <> "IFC2X3" ->
          shading !! "Transparency" = Some (PyFloat (1 - alpha (viewport_color obj))%float))
    as Htransparency.
  { intros Hne. subst shading. apply String.eqb_neq in Hne. rewrite Hne.
    unfold initial_attributes. lookups. reflexivity. }
  clearbody shading.
  destruct (classifier_branches _ _ _ H) as (surface & _ & Hcases).
  destruct Hcases as [(mix & chosen & _ & Hmix & Hfinish)|[_ Hcases]].
  { destruct (mix_shader_record _ _ _ _ _ Hmix) as [[_ E]|[_ E]]; branch_records H;
      rewrite E; unfold initial_attributes; lookups;
      (split; [reflexivity|]); (split; [exact Hshading|]);
      (split; [eauto|]); (split; [eauto|]); intros _ Hne; rewrite (Htransparency Hne);
      reflexivity. }
  destruct Hcases as [(bsdf & chosen & Hp & Hfinish)
                     |[(method & bsdf & chosen & _ & Hr & Hfinish)
                      |[(bsdf & chosen & He & Hfinish)| ->]]];
    branch_records H; unfold default_attributes, initial_attributes; lookups;
    (split; [reflexivity|]); (split; [exact Hshading|]);
    (split; [eauto|]); (split; [eauto|]);
    try (intros Hs; discriminate Hs);
    intros _ Hne; rewrite (Htransparency Hne); reflexivity.
Qed.

Lemma rendering_attributes_extend_shading_attributes_witness :
  exists attributes,
    get_surface_rendering_attributes "IFC4" Samples.flat_material = Ok attributes
    /\ exists shading,
         get_surface_shading_attributes "IFC4" Samples.flat_material = Ok shading
         /\ attributes !! "SurfaceColour" = Some (ifc_colour (viewport_color Samples.flat_material))
         /\ shading !! "SurfaceColour" = Some (ifc_colour (viewport_color Samples.flat_material))
         /\ is_Some (attributes !! "DiffuseColour")
         /\ is_Some (attributes !! "Transparency")
         /\ (attributes !! "SpecularColour" = None -> "IFC4" <> "IFC2X3" ->
             attributes !! "Transparency" = shading !! "Transparency").
Proof.
  eexists. split; [reflexivity|].
  apply (rendering_attributes_extend_shading_attributes "IFC4" "IFC4" Samples.flat_material).
  reflexivity.
Defined.


(** ** When the reflectance method is missing *)

(** A returned record lacks the ReflectanceMethod key exactly when the
    surface output is a mix shader that does not match the flat pattern. *)
Theorem reflectance_method_missing_iff_unmatched_mix_shader
    (ifc_schema : string) (obj : Material) (attributes : Attributes)
    (surface_output : option Node) :
  get_surface_rendering_attributes ifc_schema obj = Ok attributes ->
  get_input_node (get_material_node obj "OUTPUT_MATERIAL" true) (Some "Surface") None None
    = Ok surface_output ->
  attributes !! "ReflectanceMethod" = None
  <-> exists mix_shader,
        is_mix_shader surface_output = Some mix_shader
        /\ flat_pattern mix_shader = Ok None.
Proof.
  intros H Hsurface.
  destruct (classifier_branches _ _ _ H) as (surface & Hsurface' & Hcases).
  rewrite Hsurface in Hsurface'. injection Hsurface' as <-.
  destruct Hcases as [(mix & chosen & Emix & Hmix & Hfinish)|[Emix Hcases]].
  - destruct (mix_shader_record _ _ _ _ _ Hmix) as [[Hflat E]|[(second & Hflat) E]];
      branch_records H; rewrite E; unfold initial_attributes; lookups.
    + split; [intros _; eauto | reflexivity].
    + split; [discriminate|]. intros (mix' & Emix' & Hflat').
      rewrite Emix in Emix'. injection Emix' as <-. congruence.
  - assert (is_Some (attributes !! "ReflectanceMethod")) as [method Hmethod].
    { destruct Hcases as [(bsdf & chosen & Hp & Hfinish)
                         |[(method & bsdf & chosen & _ & Hr & Hfinish)
                          |[(bsdf & chosen & He & Hfinish)| ->]]];
        branch_records H; unfold default_attributes, initial_attributes; lookups; eauto. }
    rewrite Hmethod. split; [discriminate|]. intros (mix & Emix' & _). congruence.
Qed.

Lemma reflectance_method_missing_witness :
  exists attributes,
    get_surface_rendering_attributes "IFC4" Samples.mix_material = Ok attributes
    /\ (attributes !! "ReflectanceMethod" = None
        <-> exists mix_shader,
              is_mix_shader (Some Samples.bare_mix_shader) = Some mix_shader
              /\ flat_pattern mix_shader = Ok None).
Proof.
  eexists. split; [reflexivity|].
  apply (reflectance_method_missing_iff_unmatched_mix_shader "IFC4" Samples.mix_material);
    reflexivity.
Defined.


(** ** The reflectance methods returned *)

(** The ReflectanceMethod of a returned record is one of FLAT, NOTDEFINED,
    PHYSICAL, METAL, MATT and GLASS, and PHYSICAL only for the IFC4X3
    schema. *)
Theorem reflectance_method_is_physical_only_for_ifc4x3
    (ifc_schema : string) (obj : Material) (attributes : Attributes) (method : value) :
  get_surface_rendering_attributes ifc_schema obj = Ok attributes ->
  attributes !! "ReflectanceMethod" = Some method ->
  In method (map PyStr ["FLAT"; "NOTDEFINED"; "PHYSICAL"; "METAL"; "MATT"; "GLASS"])
  /\ (method = PyStr "PHYSICAL" -> ifc_schema = "IFC4X3").
Proof.
  intros H Hmethod.
  destruct (classifier_branches _ _ _ H) as (surface & _ & Hcases).
  destruct Hcases as [(mix & chosen & _ & Hmix & Hfinish)|[_ Hcases]].
  { destruct (mix_shader_record _ _ _ _ _ Hmix) as [[_ E]|[_ E]]; branch_records H;
      rewrite E in Hmethod; unfold initial_attributes in Hmethod;
      repeat first [ rewrite lookup_insert_eq in Hmethod
                   | rewrite lookup_insert_ne in Hmethod by discriminate
                   | rewrite lookup_empty in Hmethod ];
      [discriminate Hmethod|]. injection Hmethod as <-.
    split; [simpl; auto | discriminate]. }
  destruct Hcases as [(bsdf & chosen & Hp & Hfinish)
                     |[(m & bsdf & chosen & Hm & Hr & Hfinish)
                      |[(bsdf & chosen & He & Hfinish)| ->]]];
    branch_records H; unfold default_attributes, initial_attributes in Hmethod;
    repeat first [ rewrite lookup_insert_eq in Hmethod
                 | rewrite lookup_insert_ne in Hmethod by discriminate
                 | rewrite lookup_empty in Hmethod ];
    injection Hmethod as <-.
  - unfold physical_or_notdefined. destruct (String.eqb ifc_schema "IFC4X3") eqn:E; cbn [negb].
    + apply String.eqb_eq in E. split; [simpl; auto | intros _; exact E].
    + split; [simpl; auto | discriminate].
  - split; [|intros E; injection E as ->; simpl in Hm; intuition discriminate].
    simpl in Hm. destruct Hm as [<-|[<-|[<-|[]]]]; simpl; auto 7.
  - split; [simpl; auto | discriminate].
  - split; [simpl; auto | discriminate].
Qed.

Lemma reflectance_method_is_physical_witness :
  exists attributes,
    get_surface_rendering_attributes "IFC4X3" Samples.principled_material = Ok attributes
    /\ attributes !! "ReflectanceMethod" = Some (PyStr "PHYSICAL")
    /\ In (PyStr "PHYSICAL")
          (map PyStr ["FLAT"; "NOTDEFINED"; "PHYSICAL"; "METAL"; "MATT"; "GLASS"])
    /\ (PyStr "PHYSICAL" = PyStr "PHYSICAL" -> "IFC4X3" = "IFC4X3").
Proof.
  eexists. split; [reflexivity|]. split; [reflexivity|].
  eapply (reflectance_method_is_physical_only_for_ifc4x3 "IFC4X3" Samples.principled_material);
    reflexivity.
Defined.


(** ** The elements of a style *)

Lemma head_rev_cons {A} (x : A) l :
  List.head (rev (x :: l)) = match List.head (rev l) with Some y => Some y | None => Some x end.
Proof. simpl. destruct (rev l); reflexivity. Qed.

Lemma collect_styles_lookup ifc_file : forall styles acc m,
  collect_styles ifc_file styles acc = Ok m ->
  forall cls, m !! cls = match List.head (rev (of_class ifc_file cls styles)) with
                         | Some s => Some s
                         | None => acc !! cls
                         end.
Proof.
  induction styles as [|s rest IH]; intros acc m H cls.
  - injection H as <-. reflexivity.
  - cbn [collect_styles] in H. unfold of_class. cbn [List.filter].
    destruct (value_class ifc_file s) as [c|] eqn:Ec; cbn [bind] in H; [|discriminate H].
    rewrite (IH _ m H cls). fold (of_class ifc_file cls rest).
    destruct (String.eqb c cls) eqn:E.
    + apply String.eqb_eq in E. subst c. rewrite head_rev_cons.
      destruct (List.head (rev (of_class ifc_file cls rest))); [reflexivity|].
      apply lookup_insert_eq.
    + apply String.eqb_neq in E.
      destruct (List.head (rev (of_class ifc_file cls rest))); [reflexivity|].
      apply lookup_insert_ne. exact E.
Qed.

Lemma collect_styles_classes ifc_file : forall styles acc m,
  collect_styles ifc_file styles acc = Ok m ->
  Forall (fun s => exists c, value_class ifc_file s = Ok c) styles.
Proof.
  induction styles as [|s rest IH]; intros acc m H; [constructor|].
  cbn [collect_styles] in H.
  destruct (value_class ifc_file s) as [c|] eqn:Ec; cbn [bind] in H; [|discriminate H].
  constructor; [eauto | exact (IH _ m H)].
Qed.

Lemma get_style_elements_of ifc_file x style m :
  style_of ifc_file x style -> get_style_elements ifc_file x = Ok m ->
  exists styles items,
    value_attribute ifc_file style "Styles" = Ok styles
    /\ iterate styles = Ok items
    /\ collect_styles ifc_file items ∅ = Ok m.
Proof.
  intros Hx H. unfold get_style_elements in H.
  assert (bind (value_attribute ifc_file style "Styles")
            (fun styles => bind (iterate styles)
                             (fun styles => collect_styles ifc_file styles ∅)) = Ok m) as H'.
  { destruct x as [obj|s]; simpl in Hx.
    - destruct Hx as [Hl Hi]. rewrite Hl, Hi in H. exact H.
    - subst s. exact H. }
  destruct (value_attribute ifc_file style "Styles") as [styles|]; cbn [bind] in H';
    [|discriminate H'].
  destruct (iterate styles) as [items|] eqn:Ei; cbn [bind] in H'; [|discriminate H'].
  exists styles, items. split; [reflexivity|]. split; [exact Ei | exact H'].
Qed.

(** The dict [get_style_elements] returns maps each class to the last
    style of that class among the [Styles] of the style, and has no other
    key. *)
Theorem style_elements_hold_the_last_style_of_each_class
    (ifc_file : file) (x : MaterialOrStyle) (style : value) (m : gmap string value) :
  style_of ifc_file x style ->
  get_style_elements ifc_file x = Ok m ->
  exists styles items,
    value_attribute ifc_file style "Styles" = Ok styles
    /\ iterate styles = Ok items
    /\ forall cls, m !! cls = List.head (rev (of_class ifc_file cls items)).
Proof.
  intros Hx H. destruct (get_style_elements_of _ _ _ _ Hx H) as (styles & items & Hs & Hi & Hc).
  exists styles, items. split; [exact Hs|]. split; [exact Hi|]. intros cls.
  rewrite (collect_styles_lookup _ _ _ _ Hc cls).
  destruct (List.head (rev (of_class ifc_file cls items))); [reflexivity | apply lookup_empty].
Qed.

Lemma style_elements_witness :
  exists m,
    get_style_elements Samples.presentation_document (BlenderMaterial Samples.linked_material)
      = Ok m
    /\ m !! "IfcSurfaceStyleShading" = Some (PyEntity 4)
    /\ exists styles items,
         value_attribute Samples.presentation_document (PyEntity 1) "Styles" = Ok styles
         /\ iterate styles = Ok items
         /\ forall cls,
              m !! cls = List.head (rev (of_class Samples.presentation_document cls items)).
Proof.
  eexists. split; [reflexivity|]. split; [reflexivity|].
  apply (style_elements_hold_the_last_style_of_each_class Samples.presentation_document
           (BlenderMaterial Samples.linked_material) (PyEntity 1)).
  - split; reflexivity.
  - reflexivity.
Defined.


(** ** The first shading style *)

Lemma comprehension_of_class ifc_file cls styles :
  Forall (fun s => exists c, value_class ifc_file s = Ok c) styles ->
  comprehension (fun s => bind (value_class ifc_file s) (fun c => Ok (String.eqb c cls))) styles
  = Ok (of_class ifc_file cls styles).
Proof.
  induction 1 as [|s rest (c & Hc) _ IH]; [reflexivity|].
  cbn [comprehension]. unfold of_class. cbn [List.filter]. rewrite Hc. cbn [bind].
  rewrite IH. cbn [bind]. reflexivity.
Qed.

(** Whenever [get_style_elements] returns for a material linked to a
    style, [get_surface_shading_style] returns too.  Of the [Styles] of that
    style, taken in their order and kept when their class is
    IfcSurfaceStyleShading itself, it gives the first one, where the dict of
    [get_style_elements] holds the last one under that class. *)
Theorem shading_style_is_the_first_where_elements_hold_the_last
    (ifc_file : file) (obj : MaterialProperties) (style : value) (m : gmap string value) :
  style_of ifc_file (BlenderMaterial obj) style ->
  get_style_elements ifc_file (BlenderMaterial obj) = Ok m ->
  exists styles items,
    value_attribute ifc_file style "Styles" = Ok styles
    /\ iterate styles = Ok items
    /\ get_surface_shading_style ifc_file obj
       = Ok (List.head (of_class ifc_file "IfcSurfaceStyleShading" items))
    /\ m !! "IfcSurfaceStyleShading"
       = List.head (rev (of_class ifc_file "IfcSurfaceStyleShading" items)).
Proof.
  intros Hx H.
  destruct (get_style_elements_of ifc_file (BlenderMaterial obj) style m Hx H)
    as (styles & items & Hs & Hi & Hc).
  destruct Hx as [Hl Ei].
  exists styles, items. split; [exact Hs|]. split; [exact Hi|]. split.
  - unfold get_surface_shading_style. rewrite Hl, Ei. cbn [bind]. rewrite Hs. cbn [bind].
    rewrite Hi. cbn [bind].
    rewrite (comprehension_of_class _ _ _ (collect_styles_classes _ _ _ _ Hc)). reflexivity.
  - rewrite (collect_styles_lookup _ _ _ _ Hc "IfcSurfaceStyleShading").
    destruct (List.head (rev (of_class ifc_file "IfcSurfaceStyleShading" items)));
      [reflexivity | apply lookup_empty].
Qed.

Lemma shading_style_witness :
  get_surface_shading_style Samples.presentation_document Samples.linked_material
    = Ok (Some (PyEntity 2))
  /\ exists m,
       get_style_elements Samples.presentation_document
         (BlenderMaterial Samples.linked_material) = Ok m
       /\ m !! "IfcSurfaceStyleShading" = Some (PyEntity 4)
       /\ exists styles items,
            value_attribute Samples.presentation_document (PyEntity 1) "Styles" = Ok styles
            /\ iterate styles = Ok items
            /\ get_surface_shading_style Samples.presentation_document Samples.linked_material
               = Ok (List.head
                       (of_class Samples.presentation_document "IfcSurfaceStyleShading" items))
            /\ m !! "IfcSurfaceStyleShading"
               = List.head
                   (rev (of_class Samples.presentation_document "IfcSurfaceStyleShading"
                           items)).
Proof.
  split; [reflexivity|]. eexists. split; [reflexivity|]. split; [reflexivity|].
  apply (shading_style_is_the_first_where_elements_hold_the_last
           Samples.presentation_document Samples.linked_material (PyEntity 1)).
  - split; reflexivity.
  - reflexivity.
Defined.


(** ** Materials linked to no style, or to a style that is gone *)

(** [get_style] gives None both for a material linked to no style and for
    one whose style id is not in the document.  For the first the other
    queries give their empty answer; for the second they raise. *)
Theorem dangling_style_id_raises_except_in_get_style
    (ifc_file : file) (obj : MaterialProperties) :
  (get_style ifc_file obj = None
   <-> ifc_style_id obj = 0 \/ by_id ifc_file (ifc_style_id obj) = None)
  /\ (ifc_style_id obj = 0 ->
      get_style_elements ifc_file (BlenderMaterial obj) = Ok ∅
      /\ get_surface_shading_style ifc_file obj = Ok None
      /\ get_surface_texture_style ifc_file obj = Ok None
      /\ get_external_style ifc_file (BlenderMaterial obj) = Ok None)
  /\ (ifc_style_id obj <> 0 -> by_id ifc_file (ifc_style_id obj) = None ->
      get_style_elements ifc_file (BlenderMaterial obj) = Raise RuntimeError
      /\ get_surface_shading_style ifc_file obj = Raise RuntimeError
      /\ get_surface_texture_style ifc_file obj = Raise RuntimeError
      /\ get_external_style ifc_file (BlenderMaterial obj) = Raise RuntimeError).
Proof.
  unfold get_style, get_style_elements, get_surface_shading_style, get_surface_texture_style,
    get_external_style, get_style_elements, linked, instance_by_id.
  split; [|split].
  - destruct (Nat.eqb (ifc_style_id obj) 0) eqn:E; cbn [negb].
    + apply Nat.eqb_eq in E. split; [intros _; left; exact E | reflexivity].
    + apply Nat.eqb_neq in E. destruct (by_id ifc_file (ifc_style_id obj)).
      * split; [discriminate | intros [H|H]; [contradiction | discriminate H]].
      * split; [intros _; right; reflexivity | reflexivity].
  - intros ->. repeat split; reflexivity.
  - intros Hne Hnone. apply Nat.eqb_neq in Hne. rewrite Hne, Hnone. repeat split; reflexivity.
Qed.

(** ** External styles kept in a blend file *)

Lemma substring_all s : String.substring 0 (String.length s) s = s.
Proof. induction s as [|c s IH]; simpl; [reflexivity | rewrite IH; reflexivity]. Qed.

Lemma substring_append p s :
  String.substring (String.length p) (String.length s) (p ++ s)%string = s.
Proof. induction p as [|c p IH]; simpl; [apply substring_all | exact IH]. Qed.

Lemma append_substring s : forall k,
  k <= String.length s ->
  s = (String.substring 0 k s ++ String.substring k (String.length s - k) s)%string.
Proof.
  induction s as [|c s IH]; intros [|k] Hk; simpl in *; try reflexivity; try lia.
  - rewrite substring_all. reflexivity.
  - change (String c s = String c (String.substring 0 k s
                                   ++ String.substring k (String.length s - k) s)%string).
    f_equal. apply IH. lia.
Qed.

Lemma length_append p s :
  String.length (p ++ s)%string = String.length p + String.length s.
Proof. induction p as [|c p IH]; simpl; [reflexivity | rewrite IH; reflexivity]. Qed.

Lemma ends_with_spec s suffix :
  ends_with s suffix = true <-> exists prefix, s = (prefix ++ suffix)%string.
Proof.
  unfold ends_with. split.
  - intros H. apply andb_prop in H. destruct H as [Hle Heq].
    apply Nat.leb_le in Hle. apply String.eqb_eq in Heq.
    exists (String.substring 0 (String.length s - String.length suffix) s).
    pose proof (append_substring s (String.length s - String.length suffix)) as E.
    replace (String.length s - (String.length s - String.length suffix))
      with (String.length suffix) in E by lia.
    rewrite Heq in E. apply E. lia.
  - intros (prefix & ->). rewrite length_append.
    replace (String.length prefix + String.length suffix - String.length suffix)
      with (String.length prefix) by lia.
    rewrite substring_append, String.eqb_refl, andb_true_r. apply Nat.leb_le. lia.
Qed.

(** [has_blender_external_style] answers True exactly when the dict holds
    an external style whose Location is a string ending in ".blend"; an
    external style whose Location is unset makes it raise AttributeError. *)
Theorem blender_external_style_has_a_blend_location
    (ifc_file : file) (style_elements : gmap string value) :
  (has_blender_external_style ifc_file style_elements = Ok true
   <-> exists external_style prefix,
         style_elements !! "IfcExternallyDefinedSurfaceStyle" = Some external_style
         /\ truthy external_style = true
         /\ value_attribute ifc_file external_style "Location"
            = Ok (PyStr (prefix ++ ".blend")))
  /\ (forall external_style,
        style_elements !! "IfcExternallyDefinedSurfaceStyle" = Some external_style ->
        truthy external_style = true ->
        value_attribute ifc_file external_style "Location" = Ok PyNone ->
        has_blender_external_style ifc_file style_elements = Raise AttributeError).
Proof.
  unfold has_blender_external_style. split.
  - destruct (style_elements !! "IfcExternallyDefinedSurfaceStyle") as [ext|].
    2: { split; [discriminate | intros (? & ? & H & _); discriminate H]. }
    destruct (truthy ext) eqn:Et.
    2: { split; [discriminate|]. intros (? & ? & H & Ht & _). injection H as <-. congruence. }
    destruct (value_attribute ifc_file ext "Location") as [location|e] eqn:El; cbn [bind].
    2: { split; [discriminate|]. intros (? & ? & H & _ & Hl). injection H as <-. congruence. }
    split.
    + intros H. destruct location; try discriminate H. simpl in H. injection H as H.
      apply ends_with_spec in H. destruct H as (prefix & ->). exists ext, prefix.
      split; [reflexivity|]. split; [exact Et | exact El].
    + intros (ext' & prefix & H & _ & Hl). injection H as <-. rewrite El in Hl.
      injection Hl as ->. simpl. f_equal. apply ends_with_spec. eauto.
  - intros ext -> -> ->. reflexivity.
Qed.

(** ** The worklist *)

Lemma pop_snoc {A} (l : list A) x : pop (l ++ [x]) = Some (l, x).
Proof. unfold pop. rewrite rev_app_distr. simpl. rewrite rev_involutive. reflexivity. Qed.

Lemma pop_nil {A} : pop (@nil A) = None.
Proof. reflexivity. Qed.

Lemma pop_some {A} (l rest : list A) x : pop l = Some (rest, x) -> l = rest ++ [x].
Proof.
  destruct l as [|y l] using rev_ind; [discriminate|].
  rewrite pop_snoc. intros H. injection H as <- <-. reflexivity.
Qed.

Lemma turns_app ifc_file l l' : turns ifc_file (l ++ l') = turns ifc_file l + turns ifc_file l'.
Proof. unfold turns. rewrite map_app, list_sum_app. reflexivity. Qed.

Lemma turns_snoc ifc_file l x :
  turns ifc_file (l ++ [x])
  = turns ifc_file l
    + (if is_assignment ifc_file x then S (length (get_inverse ifc_file x)) else 1).
Proof. rewrite turns_app. unfold turns at 2. simpl. lia. Qed.

Lemma turns_plain ifc_file l :
  (forall x, In x l -> is_assignment ifc_file x = false) -> turns ifc_file l = length l.
Proof.
  unfold turns. induction l as [|x l IH]; intros H; [reflexivity|]. simpl.
  rewrite (H x (or_introl eq_refl)). rewrite IH; [reflexivity|].
  intros y Hy. apply H. right. exact Hy.
Qed.

Lemma is_assignment_true ifc_file x :
  value_is_a ifc_file (PyEntity x) "IfcPresentationStyleAssignment" = Ok true ->
  is_assignment ifc_file x = true.
Proof. unfold is_assignment. intros ->. reflexivity. Qed.

(** ** The loop returns *)

Lemma flat_assignments_spec ifc_file :
  flat_assignments ifc_file = true ->
  forall a x, is_assignment ifc_file a = true -> In x (get_inverse ifc_file a) ->
              is_assignment ifc_file x = false.
Proof.
  unfold flat_assignments. intros H a x Ha Hx. rewrite forallb_forall in H.
  assert (In a (by_type ifc_file "IfcPresentationStyleAssignment" true)) as Hin.
  { unfold is_assignment, value_is_a in Ha.
    destruct (by_id ifc_file a) as [e|] eqn:Ee; [|discriminate Ha].
    destruct (is_a_kind e "IfcPresentationStyleAssignment") eqn:Ek; [|discriminate Ha].
    unfold by_id in Ee. apply find_some in Ee. destruct Ee as [Hin Hid].
    apply Nat.eqb_eq in Hid. rewrite <- Hid. unfold by_type. apply in_map.
    apply List.filter_In. split; [exact Hin | exact Ek]. }
  specialize (H a Hin). rewrite forallb_forall in H. apply negb_true_iff, (H x Hx).
Qed.

Lemma styled_items_loop_returns ifc_file :
  flat_assignments ifc_file = true ->
  forall fuel inverses items,
    turns ifc_file inverses <= fuel ->
    exists r, styled_items_loop fuel ifc_file inverses items = Some r.
Proof.
  intros Hflat. pose proof (flat_assignments_spec ifc_file Hflat) as Hspec.
  clear Hflat. rename Hspec into Hflat.
  induction fuel as [|fuel IH]; intros inverses items Hfuel.
  - destruct inverses as [|y l _] using rev_ind; [exists (Ok items); reflexivity|].
    rewrite turns_snoc in Hfuel. destruct (is_assignment ifc_file y); lia.
  - destruct inverses as [|y l _] using rev_ind; [exists (Ok items); reflexivity|].
    cbn [styled_items_loop]. rewrite pop_snoc.
    rewrite turns_snoc in Hfuel.
    destruct (value_is_a ifc_file (PyEntity y) "IfcPresentationStyleAssignment")
      as [[|]|e] eqn:Ey; [| |eauto].
    + rewrite (is_assignment_true _ _ Ey) in Hfuel. apply IH.
      rewrite turns_app, (turns_plain ifc_file (get_inverse ifc_file y)); [lia|].
      intros x Hx. exact (Hflat y x (is_assignment_true _ _ Ey) Hx).
    + assert (turns ifc_file l <= fuel) as Hl
        by (destruct (is_assignment ifc_file y); lia).
      destruct (attribute ifc_file y "Item") as [item|e]; [|eauto].
      destruct (negb (truthy item)); [apply IH, Hl|].
      destruct (value_is_a ifc_file item "IfcMappedItem") as [[|]|e]; [| |eauto].
      * destruct (bind (value_attribute ifc_file item "MappingSource") _) as [found|e];
          [apply IH, Hl | eauto].
      * apply IH, Hl.
Qed.

Lemma styled_items_loop_more_fuel ifc_file : forall fuel inverses items r,
  styled_items_loop fuel ifc_file inverses items = Some r ->
  forall more, styled_items_loop (fuel + more) ifc_file inverses items = Some r.
Proof.
  induction fuel as [|fuel IH]; intros inverses items r H more.
  - destruct inverses as [|y l _] using rev_ind.
    + destruct more; exact H.
    + simpl in H. rewrite pop_snoc in H. discriminate H.
  - destruct inverses as [|y l _] using rev_ind; [exact H|].
    cbn [styled_items_loop Nat.add] in *. rewrite pop_snoc in *.
    destruct (value_is_a ifc_file (PyEntity y) "IfcPresentationStyleAssignment")
      as [[|]|e]; [apply IH, H| |exact H].
    destruct (attribute ifc_file y "Item") as [item|e]; [|exact H].
    destruct (negb (truthy item)); [apply IH, H|].
    destruct (value_is_a ifc_file item "IfcMappedItem") as [[|]|e]; [| |exact H].
    + destruct (bind (value_attribute ifc_file item "MappingSource") _) as [found|e];
        [apply IH, H | exact H].
    + apply IH, H.
Qed.

(** In a document where no style assignment is referred to by a style
    assignment, the loop of [get_styled_items] ends: it takes at most one
    turn for each referrer of the style and one more for each referrer of an
    assignment among them, and gives the same outcome for any greater number
    of turns. *)
Theorem styled_items_loop_ends (ifc_file : file) (style : nat) :
  flat_assignments ifc_file = true ->
  exists r, forall fuel,
    turns ifc_file (get_inverse ifc_file style) <= fuel ->
    get_styled_items fuel ifc_file style = Some r.
Proof.
  intros Hflat. unfold get_styled_items.
  destruct (styled_items_loop_returns ifc_file Hflat _ (get_inverse ifc_file style) []
              (le_n _)) as (r & Hr).
  exists r. intros fuel Hfuel.
  replace fuel with (turns ifc_file (get_inverse ifc_file style)
                     + (fuel - turns ifc_file (get_inverse ifc_file style))) by lia.
  apply styled_items_loop_more_fuel, Hr.
Qed.

Lemma styled_items_loop_ends_witness :
  turns Samples.styled_document (get_inverse Samples.styled_document 1) = 2
  /\ exists r, forall fuel,
       turns Samples.styled_document (get_inverse Samples.styled_document 1) <= fuel ->
       get_styled_items fuel Samples.styled_document 1 = Some r.
Proof.
  split; [reflexivity|].
  apply (styled_items_loop_ends Samples.styled_document 1). reflexivity.
Defined.


(** ** Items styled directly *)

Lemma styled_items_loop_direct ifc_file : forall inverses items acc fuel,
  Forall2 (styles_item ifc_file) inverses items ->
  length inverses <= fuel ->
  styled_items_loop fuel ifc_file inverses acc = Some (Ok (acc ++ rev items)).
Proof.
  induction inverses as [|x l IH] using rev_ind; intros items acc fuel H Hfuel.
  - inversion H; subst. simpl. rewrite app_nil_r. destruct fuel; reflexivity.
  - apply List.Forall2_app_inv_l in H. destruct H as (items' & last & Hl & Hx & ->).
    inversion Hx as [|? item ? ? (Hkind & Hitem & Htruthy & Hmapped) Hnil]; subst.
    inversion Hnil; subst.
    rewrite length_app in Hfuel. simpl in Hfuel.
    destruct fuel as [|fuel]; [lia|].
    cbn [styled_items_loop]. rewrite pop_snoc, Hkind, Hitem, Htruthy. cbn [negb].
    rewrite Hmapped. rewrite (IH items' (acc ++ [item]) fuel Hl) by lia.
    rewrite rev_app_distr. simpl. rewrite <- app_assoc. reflexivity.
Qed.

(** When every referrer of a style is a styled item holding a geometry
    item that is no mapped item, [get_styled_items] returns those items in
    the reverse of the order of the referrers. *)
Theorem directly_styled_items_come_back_reversed
    (ifc_file : file) (style : nat) (items : list value) (fuel : nat) :
  Forall2 (styles_item ifc_file) (get_inverse ifc_file style) items ->
  length (get_inverse ifc_file style) <= fuel ->
  get_styled_items fuel ifc_file style = Some (Ok (rev items)).
Proof.
  intros H Hfuel. unfold get_styled_items.
  exact (styled_items_loop_direct ifc_file _ items [] fuel H Hfuel).
Qed.

Lemma directly_styled_items_witness :
  get_inverse Samples.presentation_document 1 = [6; 7]
  /\ get_styled_items 2 Samples.presentation_document 1 = Some (Ok [PyEntity 9; PyEntity 8]).
Proof.
  split; [reflexivity|].
  apply (directly_styled_items_come_back_reversed Samples.presentation_document 1
           [PyEntity 8; PyEntity 9] 2).
  - change (get_inverse Samples.presentation_document 1) with [6; 7].
    repeat constructor.
  - change (get_inverse Samples.presentation_document 1) with [6; 7]. simpl. lia.
Defined.


End StyleSpec.

(* ===================================================================== *)
(** * Properties of the duration helpers *)
(* ===================================================================== *)

Module SequenceSpec.
Import Py Sequence SequenceTerms QArith_base.
Local Open Scope Z_scope.

(** ** Durations as Blender properties *)

Lemma truncate_whole_part q : whole_part q (truncate q).
Proof.
  destruct q as [n d]. unfold whole_part, truncate, Qle, Qlt. cbn.
  split; intros Hn.
  - assert (0 <= n) as Hn' by lia.
    rewrite Z.quot_div_nonneg by lia.
    pose proof (Z.div_mod n (Z.pos d) ltac:(lia)) as E.
    pose proof (Z.mod_pos_bound n (Z.pos d) ltac:(lia)) as B.
    split; nia.
  - assert (n <= 0) as Hn' by lia.
    assert (Z.quot n (Z.pos d) = - (- n / Z.pos d)) as ->.
    { rewrite <- (Z.quot_div_nonneg (- n) (Z.pos d)) by lia.
      rewrite Z.quot_opp_l by lia. lia. }
    pose proof (Z.div_mod (- n) (Z.pos d) ltac:(lia)) as E.
    pose proof (Z.mod_pos_bound (- n) (Z.pos d) ltac:(lia)) as B.
    split; nia.
Qed.

Lemma int_whole_part n : whole_part (rational n) (int n).
Proof.
  destruct n as [z|q]; [|apply truncate_whole_part].
  unfold whole_part, rational, int, Qle, Qlt. cbn. split; intros _; split; lia.
Qed.

(** For an object, [parse_duration_as_blender_props] returns the days it
    reads and the years and months it reads without their fraction (an
    [isodate.Duration] holds them as Decimal, and [int] rounds toward zero),
    and splits the seconds it reads into hours, minutes and seconds: minutes
    and seconds are below 60, and the hours are below 24 when the seconds
    are those of a day. *)
Theorem parsed_duration_splits_the_seconds `{DateUtils} (dt : duration_object) :
  exists years months hours minutes seconds,
    parse_duration_as_blender_props (Object dt) true
    = Returns (Some [("years", PyInt years); ("months", PyInt months);
                     ("days", PyInt (days_or_zero dt)); ("hours", PyInt hours);
                     ("minutes", PyInt minutes); ("seconds", PyInt seconds)])
    /\ whole_part (rational (years_or_zero dt)) years
    /\ whole_part (rational (months_or_zero dt)) months
    /\ hours * 3600 + minutes * 60 + seconds = seconds_or_zero dt
    /\ 0 <= minutes < 60 /\ 0 <= seconds < 60
    /\ (0 <= seconds_or_zero dt < 86400 -> 0 <= hours < 24).
Proof.
  exists (int (years_or_zero dt)), (int (months_or_zero dt)),
         (seconds_or_zero dt / 3600), (seconds_or_zero dt mod 3600 / 60),
         (seconds_or_zero dt mod 3600 mod 60).
  split; [reflexivity|].
  split; [apply int_whole_part|]. split; [apply int_whole_part|].
  pose proof (Z.div_mod (seconds_or_zero dt) 3600 ltac:(lia)) as E1.
  pose proof (Z.mod_pos_bound (seconds_or_zero dt) 3600 ltac:(lia)) as B1.
  pose proof (Z.div_mod (seconds_or_zero dt mod 3600) 60 ltac:(lia)) as E2.
  pose proof (Z.mod_pos_bound (seconds_or_zero dt mod 3600) 60 ltac:(lia)) as B2.
  split; [lia|]. split; [|split; [exact B2|]].
  - split; [apply Z.div_pos; lia | apply Z.div_lt_upper_bound; lia].
  - intros Hday. split; [apply Z.div_pos; lia | apply Z.div_lt_upper_bound; lia].
Qed.

(** A year and a half and seven months and three quarters, beside two days
    and an hour and a minute and a second, are read as one year and seven
    months. *)
Lemma fractional_years_and_months_lose_their_fraction `{DateUtils} :
  parse_duration_as_blender_props
    (Object (Duration (3 # 2) (31 # 4)
               {| Timedelta.days := 2; Timedelta.seconds := 3661;
                  Timedelta.microseconds := 0 |})) true
  = Returns (Some [("years", PyInt 1); ("months", PyInt 7); ("days", PyInt 2);
                   ("hours", PyInt 1); ("minutes", PyInt 1); ("seconds", PyInt 1)]).
Proof. reflexivity. Qed.

(** ** Unbound variables *)

Lemma named_none attrs prop_name : forall found,
  (forall item, In item attrs -> name item <> prop_name) ->
  fold_left (fun duration_props item =>
               if String.eqb (name item) prop_name then Some item else duration_props)
            attrs found = found.
Proof.
  induction attrs as [|item attrs IH]; intros found Hno; [reflexivity|]. simpl.
  destruct (String.eqb (name item) prop_name) eqn:E.
  - apply String.eqb_eq in E. exfalso. exact (Hno item (or_introl eq_refl) E).
  - apply IH. intros x Hx. apply Hno. right. exact Hx.
Qed.

(** [simplify_duration] fails with UnboundLocalError when no item has the
    name asked for, whatever the duration type, and when the duration type
    is a non-empty value other than ELAPSEDTIME and WORKTIME, whatever the
    items. *)
Theorem simplify_duration_leaves_variables_unbound `{DateUtils}
    (durations_attributes : list ISODuration) (duration_type : value) (prop_name : string) :
  ((forall item, In item durations_attributes -> name item <> prop_name) ->
   simplify_duration durations_attributes duration_type prop_name = Fails UnboundLocalError)
  /\ (truthy duration_type = true ->
      equals_string duration_type "ELAPSEDTIME" = false ->
      equals_string duration_type "WORKTIME" = false ->
      simplify_duration durations_attributes duration_type prop_name
      = Fails UnboundLocalError).
Proof.
  unfold simplify_duration. split.
  - intros Hno. unfold named. rewrite (named_none _ _ None Hno). reflexivity.
  - intros -> -> ->. destruct (named durations_attributes prop_name); reflexivity.
Qed.

(** ** Work time *)

Lemma scaled_or_zero x y : (x = 0 -> y = 0) -> (if negb (Z.eqb x 0) then y else 0) = y.
Proof.
  intros H. destruct (Z.eqb x 0) eqn:E; [|reflexivity].
  apply Z.eqb_eq in E. symmetry. exact (H E).
Qed.

Lemma or_zero_id x : or_zero x = x.
Proof. unfold or_zero. destruct (Z.eqb x 0) eqn:E; [apply Z.eqb_eq in E; lia | reflexivity]. Qed.

(** On a timedelta every number of the last part stays an [int]. *)
Lemma simplified_delta td :
  simplified (Delta td)
  = let '(years, days) := divmod (Timedelta.days td) 365 in
    let '(months, days) := divmod days 30 in
    let '(years, months) :=
      if Z.leb 12 months then
        let '(extra_years, months) := divmod months 12 in (years + extra_years, months)
      else (years, months) in
    let '(hours, seconds) := divmod (Timedelta.seconds td) 3600 in
    let '(minutes, seconds) := divmod seconds 60 in
    Returns (duration_string years months days hours minutes seconds).
Proof.
  unfold simplified, divmod. cbv beta iota zeta. cbn [ge number_divmod add int].
  destruct (Z.leb 12 (Timedelta.days td mod 365 / 30)); reflexivity.
Qed.

Lemma worktime_delta p :
  worktime p
  = if Z.ltb 999999999 (Z.abs (work_days p)) then Fails OverflowError
    else Returns (Delta {| Timedelta.days := work_days p;
                           Timedelta.seconds := work_seconds p mod 28800;
                           Timedelta.microseconds := 0 |}).
Proof.
  unfold worktime.
  rewrite (scaled_or_zero (years p)), (scaled_or_zero (months p)), (scaled_or_zero (days p)),
    (scaled_or_zero (hours p)), (scaled_or_zero (minutes p)), or_zero_id
    by (intros ->; reflexivity).
  replace (hours p * 60 * 60 + minutes p * 60 + seconds p) with (work_seconds p)
    by (unfold work_seconds; lia).
  replace ((years p * 365 * 24 * 60 * 60 + months p * 30 * 24 * 60 * 60
            + days p * 24 * 60 * 60) / (24 * 60 * 60))
    with (years p * 365 + months p * 30 + days p).
  2: { replace (years p * 365 * 24 * 60 * 60 + months p * 30 * 24 * 60 * 60
                + days p * 24 * 60 * 60)
         with ((years p * 365 + months p * 30 + days p) * (24 * 60 * 60)) by lia.
       rewrite Z.div_mul by lia. reflexivity. }
  change (8 * 60 * 60) with 28800. unfold divmod, timedelta_of, divmod.
  cbv beta iota zeta.
  pose proof (Z.mod_pos_bound (work_seconds p) 28800 ltac:(lia)) as B.
  rewrite (Z.div_small (work_seconds p mod 28800) 86400) by lia.
  rewrite (Z.mod_small (work_seconds p mod 28800) 86400) by lia.
  rewrite Z.add_0_r. fold (work_days p). unfold then_.
  destruct (Z.ltb 999999999 (Z.abs (work_days p))); reflexivity.
Qed.

(** For WORKTIME, eight hours of work count as a day.  A duration of no
    day and no second gives None; more than 999999999 days are refused;
    otherwise the string returned holds months below 12, days below 30,
    hours below 8, minutes and seconds below 60, the seconds of work left
    over, and as many days (a year being 365 and a month 30) as the duration
    has, except that the last five days of a year of 365 are counted as a
    full year and the days beyond it. *)
Theorem worktime_counts_eight_hours_a_day `{DateUtils}
    (durations_attributes : list ISODuration) (duration_props : ISODuration)
    (prop_name : string) :
  named durations_attributes prop_name = Some duration_props ->
  in_range duration_props = true ->
  let total := work_days duration_props in
  let left := work_seconds duration_props mod 28800 in
  (total = 0 /\ left = 0 ->
   simplify_duration durations_attributes (PyStr "WORKTIME") prop_name = Returns None)
  /\ (999999999 < Z.abs total ->
      simplify_duration durations_attributes (PyStr "WORKTIME") prop_name
      = Fails OverflowError)
  /\ (~ (total = 0 /\ left = 0) -> Z.abs total <= 999999999 ->
      exists years months days hours minutes seconds,
        simplify_duration durations_attributes (PyStr "WORKTIME") prop_name
        = Returns (Some (duration_string years months days hours minutes seconds))
        /\ 0 <= months < 12 /\ 0 <= days < 30
        /\ 0 <= hours < 8 /\ 0 <= minutes < 60 /\ 0 <= seconds < 60
        /\ hours * 3600 + minutes * 60 + seconds = left
        /\ years * 365 + months * 30 + days
           = total + (if Z.leb 360 (total mod 365) then 5 else 0)).
Proof.
  intros Hnamed _ total left.
  assert (simplify_duration durations_attributes (PyStr "WORKTIME") prop_name
          = then_ (worktime duration_props)
              (fun duration_object =>
                 if is_set duration_object then
                   then_ (simplified duration_object) (fun s => Returns (Some s))
                 else Returns None)) as ->.
  { unfold simplify_duration. rewrite Hnamed. reflexivity. }
  rewrite worktime_delta. fold total. fold left.
  pose proof (Z.mod_pos_bound (work_seconds duration_props) 28800 ltac:(lia)) as Bleft.
  fold left in Bleft.
  split; [|split].
  - intros [-> ->]. reflexivity.
  - intros Hbig. apply Z.ltb_lt in Hbig. rewrite Hbig. reflexivity.
  - intros Hset Hsmall.
    assert (Z.ltb 999999999 (Z.abs total) = false) as -> by (apply Z.ltb_ge; exact Hsmall).
    cbn [then_ is_set Timedelta.days Timedelta.seconds Timedelta.microseconds].
    assert (Z.eqb total 0 && Z.eqb left 0 && Z.eqb 0 0 = false) as ->.
    { destruct (Z.eqb total 0) eqn:E1; [|reflexivity].
      destruct (Z.eqb left 0) eqn:E2; [|reflexivity].
      apply Z.eqb_eq in E1, E2. exfalso. apply Hset. split; assumption. }
    cbn [negb]. rewrite simplified_delta.
    cbn [Timedelta.days Timedelta.seconds]. unfold divmod.
    cbv beta iota zeta.
    pose proof (Z.div_mod total 365 ltac:(lia)) as E1.
    pose proof (Z.mod_pos_bound total 365 ltac:(lia)) as B1.
    pose proof (Z.div_mod (total mod 365) 30 ltac:(lia)) as E2.
    pose proof (Z.mod_pos_bound (total mod 365) 30 ltac:(lia)) as B2.
    pose proof (Z.div_mod left 3600 ltac:(lia)) as E3.
    pose proof (Z.mod_pos_bound left 3600 ltac:(lia)) as B3.
    pose proof (Z.div_mod (left mod 3600) 60 ltac:(lia)) as E4.
    pose proof (Z.mod_pos_bound (left mod 3600) 60 ltac:(lia)) as B4.
    assert (0 <= left / 3600 < 8) as B5
      by (split; [apply Z.div_pos; lia | apply Z.div_lt_upper_bound; lia]).
    assert (0 <= left mod 3600 / 60 < 60) as B6
      by (split; [apply Z.div_pos; lia | apply Z.div_lt_upper_bound; lia]).
    assert (0 <= total mod 365 / 30 < 13) as B7
      by (split; [apply Z.div_pos; lia | apply Z.div_lt_upper_bound; lia]).
    destruct (Z.leb 12 (total mod 365 / 30)) eqn:E12.
    + apply Z.leb_le in E12. assert (total mod 365 / 30 = 12) as E by lia.
      rewrite E. change (12 / 12) with 1. change (12 mod 12) with 0.
      cbn [then_].
      exists (total / 365 + 1), 0, (total mod 365 mod 30), (left / 3600),
             (left mod 3600 / 60), (left mod 3600 mod 60).
      split; [reflexivity|]. split; [lia|]. split; [exact B2|]. split; [exact B5|].
      split; [exact B6|]. split; [exact B4|]. split; [lia|].
      assert (Z.leb 360 (total mod 365) = true) as -> by (apply Z.leb_le; lia). lia.
    + apply Z.leb_gt in E12. cbn [then_].
      exists (total / 365), (total mod 365 / 30), (total mod 365 mod 30), (left / 3600),
             (left mod 3600 / 60), (left mod 3600 mod 60).
      split; [reflexivity|]. split; [lia|]. split; [exact B2|]. split; [exact B5|].
      split; [exact B6|]. split; [exact B4|]. split; [lia|].
      assert (Z.leb 360 (total mod 365) = false) as -> by (apply Z.leb_gt; lia). lia.
Qed.

Lemma worktime_counts_eight_hours_a_day_witness :
  let total := work_days Samples.schedule_duration in
  let left := work_seconds Samples.schedule_duration mod 28800 in
  total = 361 /\ left = 5400
  /\ simplify_duration (H := Samples.no_date_utils) [Samples.schedule_duration]
       (PyStr "WORKTIME") "ScheduleDuration" = Returns (Some "P1Y0M1DT1H30M0S")
  /\ (~ (total = 0 /\ left = 0) -> Z.abs total <= 999999999 ->
      exists years months days hours minutes seconds,
        simplify_duration (H := Samples.no_date_utils) [Samples.schedule_duration]
          (PyStr "WORKTIME") "ScheduleDuration"
        = Returns (Some (duration_string years months days hours minutes seconds))
        /\ 0 <= months < 12 /\ 0 <= days < 30
        /\ 0 <= hours < 8 /\ 0 <= minutes < 60 /\ 0 <= seconds < 60
        /\ hours * 3600 + minutes * 60 + seconds = left
        /\ years * 365 + months * 30 + days
           = total + (if Z.leb 360 (total mod 365) then 5 else 0)).
Proof.
  split; [reflexivity|]. split; [reflexivity|]. split; [reflexivity|].
  apply (worktime_counts_eight_hours_a_day (H := Samples.no_date_utils)
           [Samples.schedule_duration] Samples.schedule_duration "ScheduleDuration");
    reflexivity.
Defined.

End SequenceSpec.
